(** * ishare-task-api: credential issuance and verification

    A shallow embedding of the authentication core of the task API
    (internal/auth: jwt.go, oauth.go, middleware.go; internal/config;
    internal/models) together with the library routines it calls
    (strings.Split, encoding/base64, crypto/sha256, crypto/hmac,
    encoding/json, google/uuid, time), followed by the properties of the
    token issuer, the authorization-code store and the request authorizer.

    Go strings are byte sequences: they are modelled by [string], whose
    characters are the 256 values of [ascii].  Clock readings are explicit
    arguments.  The relational store is modelled by the list of rows of each
    table. *)

From Stdlib Require Import ZArith QArith List String Ascii Bool Lia.
Import ListNotations.
Local Open Scope string_scope.
Local Open Scope list_scope.
Local Open Scope Z_scope.

(** ** Errors and results *)

(** The error values that cross the functions of the core.  [Errorf] is the
    value built by [fmt.Errorf] or [errors.New] from a constant message; the
    others are the error types of encoding/base64 and encoding/json. *)
Inductive error : Type :=
| Errorf (msg : string)
| CorruptInputError (offset : nat)
| SyntaxError
| UnmarshalTypeError (value : string).

Inductive result (A : Type) : Type :=
| Ok (a : A)
| Err (e : error).
Arguments Ok {A} a.
Arguments Err {A} e.

Definition bind {A B : Type} (r : result A) (k : A -> result B) : result B :=
  match r with
  | Ok a => k a
  | Err e => Err e
  end.

Notation "'let*' x ':=' r 'in' k" := (bind r (fun x => k))
  (at level 10, x pattern, r at level 100, k at level 200).

(** ** Bytes *)

Definition byte_val (c : ascii) : Z := Z.of_N (N_of_ascii c).
Definition byte_chr (z : Z) : ascii := ascii_of_N (Z.to_N (z mod 256)).

Fixpoint bytes_of_string (s : string) : list Z :=
  match s with
  | EmptyString => []
  | String c s' => byte_val c :: bytes_of_string s'
  end.

Fixpoint string_of_bytes (l : list Z) : string :=
  match l with
  | [] => EmptyString
  | b :: l' => String (byte_chr b) (string_of_bytes l')
  end.

(** ** strings *)

Module strings.

(** [strings.Split s sep] for a separator of one byte, the only use the
    core makes of it: the pieces between the occurrences of [sep], one more
    than there are occurrences. *)
Fixpoint Split (s : string) (sep : ascii) : list string :=
  match s with
  | EmptyString => [EmptyString]
  | String c s' =>
      if Ascii.eqb c sep then EmptyString :: Split s' sep
      else match Split s' sep with
           | [] => [String c EmptyString]
           | p :: ps => String c p :: ps
           end
  end.

End strings.

(** ** encoding/base64 *)

Module base64.

Definition encodeURL : string :=
  "ABCDEFGHIJKLMNOPQRSTUVWXYZabcdefghijklmnopqrstuvwxyz0123456789-_".

Definition encode_sextet (v : Z) : ascii :=
  match String.get (Z.to_nat (Z.land v 63)) encodeURL with
  | Some c => c
  | None => "A"%char
  end.

(** The value of a character of the alphabet, [None] for the bytes the
    decode map sends to 0xff. *)
Definition decodeMap (c : ascii) : option Z :=
  let v := byte_val c in
  if (65 <=? v) && (v <=? 90) then Some (v - 65)
  else if (97 <=? v) && (v <=? 122) then Some (v - 71)
  else if (48 <=? v) && (v <=? 57) then Some (v + 4)
  else if v =? 45 then Some 62
  else if v =? 95 then Some 63
  else None.

(** The bytes of a quantum of [dlen] sextets (the missing ones are zero);
    the encodings are not strict, so the unused low bits are not checked. *)
Definition quantum_bytes (dbuf : list Z) : list Z :=
  let val := Z.lor (Z.lor (Z.lor (Z.shiftl (nth 0 dbuf 0) 18) (Z.shiftl (nth 1 dbuf 0) 12))
                      (Z.shiftl (nth 2 dbuf 0) 6)) (nth 3 dbuf 0) in
  firstn (List.length dbuf - 1)
    [Z.land (Z.shiftr val 16) 255; Z.land (Z.shiftr val 8) 255; Z.land val 255].

(** The encoding without padding. *)
Module RawURLEncoding.

(** [EncodeToString]: three bytes give four characters, a remainder of
    one or two bytes gives two or three. *)
Fixpoint EncodeToString (src : string) : string :=
  match src with
  | EmptyString => EmptyString
  | String a EmptyString =>
      let val := Z.shiftl (byte_val a) 16 in
      String (encode_sextet (Z.shiftr val 18))
        (String (encode_sextet (Z.shiftr val 12)) EmptyString)
  | String a (String b EmptyString) =>
      let val := Z.lor (Z.shiftl (byte_val a) 16) (Z.shiftl (byte_val b) 8) in
      String (encode_sextet (Z.shiftr val 18))
        (String (encode_sextet (Z.shiftr val 12))
           (String (encode_sextet (Z.shiftr val 6)) EmptyString))
  | String a (String b (String c rest)) =>
      let val := Z.lor (Z.lor (Z.shiftl (byte_val a) 16) (Z.shiftl (byte_val b) 8))
                   (byte_val c) in
      String (encode_sextet (Z.shiftr val 18))
        (String (encode_sextet (Z.shiftr val 12))
           (String (encode_sextet (Z.shiftr val 6))
              (String (encode_sextet val) (EncodeToString rest))))
  end.

(** [DecodeString], following [decodeQuantum]: [dst] holds the bytes
    decoded so far, [dbuf] the sextets of the current quantum and [si]
    the offset in the source.  Newlines and carriage returns are
    skipped; any other byte outside the alphabet (the padding character
    included, as the encoding has none) is a corrupt input, and so is a
    final quantum of a single character. *)
Fixpoint decode (dst dbuf : list Z) (si : nat) (src : string) : result string :=
  match src with
  | EmptyString =>
      match dbuf with
      | [] => Ok (string_of_bytes dst)
      | [_] => Err (CorruptInputError (si - 1))
      | _ => Ok (string_of_bytes (dst ++ quantum_bytes dbuf))
      end
  | String c rest =>
      match decodeMap c with
      | Some out =>
          let dbuf' := dbuf ++ [out] in
          if (List.length dbuf' =? 4)%nat
          then decode (dst ++ quantum_bytes dbuf') [] (S si) rest
          else decode dst dbuf' (S si) rest
      | None =>
          if Ascii.eqb c "010"%char || Ascii.eqb c "013"%char
          then decode dst dbuf (S si) rest
          else Err (CorruptInputError si)
      end
  end.

Definition DecodeString (s : string) : result string := decode [] [] 0 s.

End RawURLEncoding.

(** The encoding with padding. *)
Module URLEncoding.

Definition EncodeToString (src : string) : string :=
  let raw := RawURLEncoding.EncodeToString src in
  (raw ++ string_of_bytes (repeat 61 ((3 - String.length src mod 3) mod 3)%nat))%string.

End URLEncoding.

End base64.

(** ** crypto/sha256 *)

Module sha256.

Definition w32 (z : Z) : Z := z mod 2 ^ 32.

Definition rotr (n x : Z) : Z :=
  Z.lor (Z.shiftr x n) (w32 (Z.shiftl x (32 - n))).

Definition Ch (x y z : Z) : Z := Z.lxor (Z.land x y) (Z.land (Z.lnot x) z).
Definition Maj (x y z : Z) : Z :=
  Z.lxor (Z.lxor (Z.land x y) (Z.land x z)) (Z.land y z).
Definition bsig0 (x : Z) : Z := Z.lxor (Z.lxor (rotr 2 x) (rotr 13 x)) (rotr 22 x).
Definition bsig1 (x : Z) : Z := Z.lxor (Z.lxor (rotr 6 x) (rotr 11 x)) (rotr 25 x).
Definition ssig0 (x : Z) : Z := Z.lxor (Z.lxor (rotr 7 x) (rotr 18 x)) (Z.shiftr x 3).
Definition ssig1 (x : Z) : Z := Z.lxor (Z.lxor (rotr 17 x) (rotr 19 x)) (Z.shiftr x 10).

(** A 32-bit word from its eight hexadecimal digits, most significant first. *)
Definition nibble (c : ascii) : Z :=
  let v := byte_val c in
  if (48 <=? v) && (v <=? 57) then v - 48
  else if (97 <=? v) && (v <=? 102) then v - 87
  else 0.

Fixpoint word_of_hex (acc : Z) (s : string) : Z :=
  match s with
  | EmptyString => acc
  | String c rest => word_of_hex (16 * acc + nibble c) rest
  end.

(** The round constants [_K], in the order of the table. *)
Definition K : list Z := Eval vm_compute in
  map (word_of_hex 0)
  ["428a2f98"; "71374491"; "b5c0fbcf"; "e9b5dba5";
   "3956c25b"; "59f111f1"; "923f82a4"; "ab1c5ed5";
   "d807aa98"; "12835b01"; "243185be"; "550c7dc3";
   "72be5d74"; "80deb1fe"; "9bdc06a7"; "c19bf174";
   "e49b69c1"; "efbe4786"; "0fc19dc6"; "240ca1cc";
   "2de92c6f"; "4a7484aa"; "5cb0a9dc"; "76f988da";
   "983e5152"; "a831c66d"; "b00327c8"; "bf597fc7";
   "c6e00bf3"; "d5a79147"; "06ca6351"; "14292967";
   "27b70a85"; "2e1b2138"; "4d2c6dfc"; "53380d13";
   "650a7354"; "766a0abb"; "81c2c92e"; "92722c85";
   "a2bfe8a1"; "a81a664b"; "c24b8b70"; "c76c51a3";
   "d192e819"; "d6990624"; "f40e3585"; "106aa070";
   "19a4c116"; "1e376c08"; "2748774c"; "34b0bcb5";
   "391c0cb3"; "4ed8aa4a"; "5b9cca4f"; "682e6ff3";
   "748f82ee"; "78a5636f"; "84c87814"; "8cc70208";
   "90befffa"; "a4506ceb"; "bef9a3f7"; "c67178f2"].

Definition init : list Z :=
  [0x6a09e667; 0xbb67ae85; 0x3c6ef372; 0xa54ff53a;
   0x510e527f; 0x9b05688c; 0x1f83d9ab; 0x5be0cd19].

(** Big-endian 32-bit words of a block. *)
Fixpoint be_words (bs : list Z) : list Z :=
  match bs with
  | a :: b :: c :: d :: rest =>
      Z.lor (Z.lor (Z.lor (Z.shiftl a 24) (Z.shiftl b 16)) (Z.shiftl c 8)) d
      :: be_words rest
  | _ => []
  end.

(** The message schedule; [w] holds the words so far, newest first. *)
Fixpoint schedule (n : nat) (w : list Z) : list Z :=
  match n with
  | O => rev w
  | S n' =>
      let x := w32 (ssig1 (nth 1 w 0) + nth 6 w 0 + ssig0 (nth 14 w 0) + nth 15 w 0) in
      schedule n' (x :: w)
  end.

Definition round (st : list Z) (kw : Z * Z) : list Z :=
  match st with
  | [a; b; c; d; e; f; g; h] =>
      let t1 := h + bsig1 e + Ch e f g + fst kw + snd kw in
      let t2 := bsig0 a + Maj a b c in
      [w32 (t1 + t2); a; b; c; w32 (d + t1); e; f; g]
  | _ => st
  end.

Definition compress (h : list Z) (block : list Z) : list Z :=
  let w := schedule 48 (rev (be_words block)) in
  let st := fold_left round (combine K w) h in
  map (fun p => w32 (fst p + snd p)) (combine h st).

(** Feeding bytes to the digest: a block is compressed when 64 bytes have
    gathered in [buf]. *)
Fixpoint absorb (h buf bytes : list Z) : list Z :=
  match bytes with
  | [] => h
  | b :: rest =>
      let buf' := buf ++ [b] in
      if (List.length buf' =? 64)%nat then absorb (compress h buf') [] rest
      else absorb h buf' rest
  end.

Definition be_bytes (n : nat) (z : Z) : list Z :=
  map (fun i => Z.land (Z.shiftr z (8 * Z.of_nat i)) 255) (rev (seq 0 n)).

Definition padding (len : Z) : list Z :=
  128 :: repeat 0 (Z.to_nat ((55 - len) mod 64)) ++ be_bytes 8 (8 * len).

Definition Sum256 (msg : list Z) : list Z :=
  let h := absorb init [] (msg ++ padding (Z.of_nat (List.length msg))) in
  flat_map (be_bytes 4) h.

End sha256.

(** ** crypto/hmac over SHA-256 *)

Module hmac.

Definition blocksize : nat := 64.

Definition prepare_key (key : list Z) : list Z :=
  let k := if (blocksize <? List.length key)%nat then sha256.Sum256 key else key in
  k ++ repeat 0 (blocksize - List.length k).

Definition Sum (key msg : list Z) : list Z :=
  let k := prepare_key key in
  let ipad := map (Z.lxor 0x36) k in
  let opad := map (Z.lxor 0x5c) k in
  sha256.Sum256 (opad ++ sha256.Sum256 (ipad ++ msg)).

End hmac.

(** ** unicode/utf8 *)

Module utf8.

Definition RuneError : Z := 0xFFFD.
Definition RuneSelf : Z := 0x80.
Definition MaxRune : Z := 0x10FFFF.

Definition between (lo b hi : Z) : bool := (lo <=? b) && (b <=? hi).

(** [utf8.DecodeRune]: the first rune of [s] and its width in bytes.  An
    encoding that is invalid, too short, not the shortest one, of a
    surrogate or beyond [MaxRune] gives [(RuneError, 1)]; the empty string
    gives [(RuneError, 0)].  The payload bits are written with the
    arithmetic of the encoding: a continuation byte carries [b - 0x80]. *)
Definition DecodeRune (s : string) : Z * nat :=
  match s with
  | EmptyString => (RuneError, 0%nat)
  | String c0 r0 =>
      let b0 := byte_val c0 in
      if b0 <? RuneSelf then (b0, 1%nat)
      else if between 0xC2 b0 0xDF then
        match r0 with
        | String c1 _ =>
            let b1 := byte_val c1 in
            if between 0x80 b1 0xBF
            then ((b0 - 0xC0) * 64 + (b1 - 0x80), 2%nat)
            else (RuneError, 1%nat)
        | _ => (RuneError, 1%nat)
        end
      else if between 0xE0 b0 0xEF then
        match r0 with
        | String c1 (String c2 _) =>
            let b1 := byte_val c1 in
            let b2 := byte_val c2 in
            let lo := if b0 =? 0xE0 then 0xA0 else 0x80 in
            let hi := if b0 =? 0xED then 0x9F else 0xBF in
            if between lo b1 hi && between 0x80 b2 0xBF
            then (((b0 - 0xE0) * 64 + (b1 - 0x80)) * 64 + (b2 - 0x80), 3%nat)
            else (RuneError, 1%nat)
        | _ => (RuneError, 1%nat)
        end
      else if between 0xF0 b0 0xF4 then
        match r0 with
        | String c1 (String c2 (String c3 _)) =>
            let b1 := byte_val c1 in
            let b2 := byte_val c2 in
            let b3 := byte_val c3 in
            let lo := if b0 =? 0xF0 then 0x90 else 0x80 in
            let hi := if b0 =? 0xF4 then 0x8F else 0xBF in
            if between lo b1 hi && between 0x80 b2 0xBF && between 0x80 b3 0xBF
            then ((((b0 - 0xF0) * 64 + (b1 - 0x80)) * 64 + (b2 - 0x80)) * 64
                  + (b3 - 0x80), 4%nat)
            else (RuneError, 1%nat)
        | _ => (RuneError, 1%nat)
        end
      else (RuneError, 1%nat)
  end.

Definition surrogate (r : Z) : bool := between 0xD800 r 0xDFFF.

(** [utf8.EncodeRune]; a rune out of range or a surrogate is written as
    [RuneError]. *)
Definition EncodeRune (r : Z) : string :=
  let r := if (r <? 0) || (MaxRune <? r) || surrogate r then RuneError else r in
  if r <? 0x80 then string_of_bytes [r]
  else if r <? 0x800 then string_of_bytes [0xC0 + r / 64; 0x80 + r mod 64]
  else if r <? 0x10000 then
    string_of_bytes [0xE0 + r / 4096; 0x80 + (r / 64) mod 64; 0x80 + r mod 64]
  else
    string_of_bytes [0xF0 + r / 262144; 0x80 + (r / 4096) mod 64;
                     0x80 + (r / 64) mod 64; 0x80 + r mod 64].

(** [utf8.ValidString]; [skip] counts the bytes still to pass of a rune
    that has been decoded. *)
Fixpoint valid_from (skip : nat) (s : string) : bool :=
  match s with
  | EmptyString => true
  | String c rest =>
      match skip with
      | S k => valid_from k rest
      | O =>
          let (r, size) := DecodeRune s in
          if (r =? RuneError) && (size =? 1)%nat then false
          else valid_from (size - 1) rest
      end
  end.

Definition ValidString (s : string) : bool := valid_from 0 s.

End utf8.

(** ** strconv *)

Module strconv.

Definition digit (d : Z) : ascii := byte_chr (48 + d).

Fixpoint digits (fuel : nat) (n : Z) (acc : string) : string :=
  match fuel with
  | O => acc
  | S fuel' =>
      let acc' := String (digit (n mod 10)) acc in
      if n <? 10 then acc' else digits fuel' (n / 10) acc'
  end.

(** [strconv.FormatInt n 10] for a 64-bit [n]: at most 19 digits. *)
Definition FormatInt (n : Z) : string :=
  if n <? 0 then String "-" (digits 20 (- n) EmptyString)
  else digits 20 n EmptyString.

End strconv.

Definition dquote : ascii := "034"%char.
Definition backslash : ascii := "092"%char.

Definition str1 (c : ascii) : string := String c EmptyString.

(** ** encoding/json *)

Module json.

(** *** Encoding *)

Definition hex : string := "0123456789abcdef".

Definition hex_digit (v : Z) : ascii :=
  match String.get (Z.to_nat v) hex with
  | Some c => c
  | None => "0"%char
  end.

(** The bytes below [utf8.RuneSelf] that [Marshal] copies unchanged: the
    printable ones but the quote, the backslash and the three that could
    open markup. *)
Definition htmlSafe (b : Z) : bool :=
  (0x20 <=? b) && (b <? 0x80) &&
  negb ((b =? 34) || (b =? 92) || (b =? 60) || (b =? 62) || (b =? 38)).

Definition escape_byte (b : Z) : string :=
  if (b =? 92) || (b =? 34) then String backslash (str1 (byte_chr b))
  else if b =? 8 then String backslash "b"
  else if b =? 12 then String backslash "f"
  else if b =? 10 then String backslash "n"
  else if b =? 13 then String backslash "r"
  else if b =? 9 then String backslash "t"
  else String backslash
         (String "u" (String "0" (String "0"
            (String (hex_digit (Z.shiftr b 4)) (str1 (hex_digit (Z.land b 15))))))).

(** The loop of [appendString] with HTML escaping on; [skip] counts the
    bytes still to pass of a rune that has been written. *)
Fixpoint appendString_loop (skip : nat) (src : string) : string :=
  match src with
  | EmptyString => EmptyString
  | String c rest =>
      match skip with
      | S k => appendString_loop k rest
      | O =>
          let b := byte_val c in
          if b <? utf8.RuneSelf then
            ((if htmlSafe b then str1 c else escape_byte b)
             ++ appendString_loop 0 rest)%string
          else
            let (r, size) := utf8.DecodeRune src in
            if (r =? utf8.RuneError) && (size =? 1)%nat then
              (String backslash "ufffd" ++ appendString_loop 0 rest)%string
            else if (r =? 0x2028) || (r =? 0x2029) then
              (String backslash "u202" ++ str1 (hex_digit (Z.land r 15))
               ++ appendString_loop (size - 1) rest)%string
            else
              (substring 0 size src ++ appendString_loop (size - 1) rest)%string
      end
  end.

Definition appendString (src : string) : string :=
  String dquote (appendString_loop 0 src ++ str1 dquote)%string.

(** The dynamic values that the core stores in the maps it marshals. *)
Inductive any : Type :=
| AString (s : string)
| AInt64 (n : Z).

Definition encode_any (v : any) : string :=
  match v with
  | AString s => appendString s
  | AInt64 n => strconv.FormatInt n
  end.

(** [Marshal] writes the entries of a map in the order of their keys. *)
Fixpoint insert_sorted (kv : string * any) (l : list (string * any)) : list (string * any) :=
  match l with
  | [] => [kv]
  | kv' :: l' =>
      if String.leb (fst kv) (fst kv') then kv :: l
      else kv' :: insert_sorted kv l'
  end.

Definition sort_keys (m : list (string * any)) : list (string * any) :=
  fold_right insert_sorted [] m.

Fixpoint encode_members (l : list (string * any)) : string :=
  match l with
  | [] => EmptyString
  | [(k, v)] => (appendString k ++ ":" ++ encode_any v)%string
  | (k, v) :: l' =>
      (appendString k ++ ":" ++ encode_any v ++ "," ++ encode_members l')%string
  end.

(** [json.Marshal] of a map from strings to strings and integers; it
    cannot fail on such a map. *)
Definition Marshal (m : list (string * any)) : result string :=
  Ok ("{" ++ encode_members (sort_keys m) ++ "}")%string.

(** *** Scanning *)

Inductive token : Type :=
| TBeginObject | TEndObject | TBeginArray | TEndArray | TColon | TComma
| TString (raw : string)
| TNumber (lit : string)
| TTrue | TFalse | TNull.

(** The states of the scanner inside a number, named as in scanner.go. *)
Inductive num_state : Type :=
| stateNeg | state0 | state1 | stateDot | stateDot0 | stateE | stateESign | stateE0.

Inductive lex_state : Type :=
| LBegin
| LInString (acc : string)
| LInStringEsc (acc : string)
| LInStringEscU (n : nat) (acc : string)
| LNumber (st : num_state) (acc : string)
| LLiteral (rest : string) (t : token).

Definition isSpace (b : Z) : bool :=
  (b =? 32) || (b =? 9) || (b =? 13) || (b =? 10).
Definition isDigit (b : Z) : bool := (48 <=? b) && (b <=? 57).
Definition isHex (b : Z) : bool :=
  isDigit b || ((97 <=? b) && (b <=? 102)) || ((65 <=? b) && (b <=? 70)).

Definition push (acc : string) (c : ascii) : string := (acc ++ str1 c)%string.

(** A character met between two tokens. *)
Definition lex_begin (c : ascii) : option (list token * lex_state) :=
  let b := byte_val c in
  if isSpace b then Some ([], LBegin)
  else if b =? 123 then Some ([TBeginObject], LBegin)
  else if b =? 125 then Some ([TEndObject], LBegin)
  else if b =? 91 then Some ([TBeginArray], LBegin)
  else if b =? 93 then Some ([TEndArray], LBegin)
  else if b =? 58 then Some ([TColon], LBegin)
  else if b =? 44 then Some ([TComma], LBegin)
  else if b =? 34 then Some ([], LInString EmptyString)
  else if b =? 45 then Some ([], LNumber stateNeg (str1 c))
  else if b =? 48 then Some ([], LNumber state0 (str1 c))
  else if isDigit b then Some ([], LNumber state1 (str1 c))
  else if b =? 116 then Some ([], LLiteral "rue" TTrue)
  else if b =? 102 then Some ([], LLiteral "alse" TFalse)
  else if b =? 110 then Some ([], LLiteral "ull" TNull)
  else None.

(** One character inside a number: the next state, [Some None] when the
    number ends before the character, [None] when the character is an
    error. *)
Definition num_step (st : num_state) (b : Z) : option (option num_state) :=
  let after0 :=
    if b =? 46 then Some (Some stateDot)
    else if (b =? 101) || (b =? 69) then Some (Some stateE)
    else Some None in
  let afterESign := if isDigit b then Some (Some stateE0) else None in
  match st with
  | stateNeg =>
      if b =? 48 then Some (Some state0)
      else if isDigit b then Some (Some state1)
      else None
  | state0 => after0
  | state1 => if isDigit b then Some (Some state1) else after0
  | stateDot => if isDigit b then Some (Some stateDot0) else None
  | stateDot0 =>
      if isDigit b then Some (Some stateDot0)
      else if (b =? 101) || (b =? 69) then Some (Some stateE)
      else Some None
  | stateE => if (b =? 43) || (b =? 45) then Some (Some stateESign) else afterESign
  | stateESign => afterESign
  | stateE0 => if isDigit b then Some (Some stateE0) else Some None
  end.

Definition num_accepting (st : num_state) : bool :=
  match st with
  | state0 | state1 | stateDot0 | stateE0 => true
  | _ => false
  end.

Definition lex_step (st : lex_state) (c : ascii) : option (list token * lex_state) :=
  let b := byte_val c in
  match st with
  | LBegin => lex_begin c
  | LInString acc =>
      if b =? 34 then Some ([TString acc], LBegin)
      else if b =? 92 then Some ([], LInStringEsc (push acc c))
      else if b <? 0x20 then None
      else Some ([], LInString (push acc c))
  | LInStringEsc acc =>
      if (b =? 98) || (b =? 102) || (b =? 110) || (b =? 114) || (b =? 116)
         || (b =? 92) || (b =? 47) || (b =? 34)
      then Some ([], LInString (push acc c))
      else if b =? 117 then Some ([], LInStringEscU 0 (push acc c))
      else None
  | LInStringEscU n acc =>
      if isHex b then
        if (n =? 3)%nat then Some ([], LInString (push acc c))
        else Some ([], LInStringEscU (S n) (push acc c))
      else None
  | LNumber nst acc =>
      match num_step nst b with
      | Some (Some nst') => Some ([], LNumber nst' (push acc c))
      | Some None =>
          match lex_begin c with
          | Some (toks, st') => Some (TNumber acc :: toks, st')
          | None => None
          end
      | None => None
      end
  | LLiteral rest t =>
      match rest with
      | String x rest' =>
          if Ascii.eqb c x then
            match rest' with
            | EmptyString => Some ([t], LBegin)
            | _ => Some ([], LLiteral rest' t)
            end
          else None
      | EmptyString => None
      end
  end.

Fixpoint lex (st : lex_state) (data : string) : option (list token) :=
  match data with
  | EmptyString =>
      match st with
      | LBegin => Some []
      | LNumber nst acc => if num_accepting nst then Some [TNumber acc] else None
      | _ => None
      end
  | String c rest =>
      match lex_step st c with
      | Some (toks, st') =>
          match lex st' rest with
          | Some toks' => Some (toks ++ toks')
          | None => None
          end
      | None => None
      end
  end.

(** *** Values *)

(** A float64 is modelled by the rational it denotes (infinities and NaN
    do not come out of [Unmarshal]). *)
Definition float64 : Type := Q.

(** The values [Unmarshal] stores in an [interface{}].  A Go map is
    modelled by the list of its bindings, the binding in force first. *)
#[warning="-register-all"]
Inductive value : Type :=
| Null
| Bool (b : bool)
| Number (f : float64)
| Str (s : string)
| Array (l : list value)
| Object (m : list (string * value)).

Definition gomap : Type := list (string * value).

Fixpoint map_get (m : gomap) (k : string) : option value :=
  match m with
  | [] => None
  | (k', v) :: m' => if String.eqb k' k then Some v else map_get m' k
  end.

Definition map_set (m : gomap) (k : string) (v : value) : gomap := (k, v) :: m.

(** *** Strings *)

Definition hexval (b : Z) : Z :=
  if isDigit b then b - 48
  else if (97 <=? b) && (b <=? 102) then b - 87
  else if (65 <=? b) && (b <=? 70) then b - 55
  else -1.

(** [getu4]: the rune of a leading backslash-u escape, [-1] when there is
    none. *)
Definition getu4 (s : string) : Z :=
  match s with
  | String c0 (String c1 (String h1 (String h2 (String h3 (String h4 _))))) =>
      let d1 := hexval (byte_val h1) in
      let d2 := hexval (byte_val h2) in
      let d3 := hexval (byte_val h3) in
      let d4 := hexval (byte_val h4) in
      if (byte_val c0 =? 92) && (byte_val c1 =? 117)
         && (0 <=? d1) && (0 <=? d2) && (0 <=? d3) && (0 <=? d4)
      then ((d1 * 16 + d2) * 16 + d3) * 16 + d4
      else -1
  | _ => -1
  end.

(** [utf16.DecodeRune]. *)
Definition utf16_DecodeRune (r1 r2 : Z) : Z :=
  if utf8.between 0xD800 r1 0xDBFF && utf8.between 0xDC00 r2 0xDFFF
  then (r1 - 0xD800) * 1024 + (r2 - 0xDC00) + 0x10000
  else utf8.RuneError.

Fixpoint drop (n : nat) (s : string) : string :=
  match n, s with
  | S n', String _ s' => drop n' s'
  | _, _ => s
  end.

Definition emit (out : string) (r : option string) : option string :=
  match r with
  | Some s => Some (out ++ s)%string
  | None => None
  end.

(** The loop of [unquoteBytes] over the bytes between the quotes; [skip]
    counts the bytes still to pass of an escape or a rune that has been
    read. *)
Fixpoint unquote_loop (skip : nat) (s : string) : option string :=
  match s with
  | EmptyString => Some EmptyString
  | String c rest =>
      match skip with
      | S k => unquote_loop k rest
      | O =>
          let b := byte_val c in
          if b =? 92 then
            match rest with
            | EmptyString => None
            | String e _ =>
                let eb := byte_val e in
                if (eb =? 34) || (eb =? 92) || (eb =? 47) || (eb =? 39)
                then emit (str1 e) (unquote_loop 1 rest)
                else if eb =? 98 then emit (str1 (byte_chr 8)) (unquote_loop 1 rest)
                else if eb =? 102 then emit (str1 (byte_chr 12)) (unquote_loop 1 rest)
                else if eb =? 110 then emit (str1 (byte_chr 10)) (unquote_loop 1 rest)
                else if eb =? 114 then emit (str1 (byte_chr 13)) (unquote_loop 1 rest)
                else if eb =? 116 then emit (str1 (byte_chr 9)) (unquote_loop 1 rest)
                else if eb =? 117 then
                  let rr := getu4 s in
                  if rr <? 0 then None
                  else if utf8.surrogate rr then
                    let dec := utf16_DecodeRune rr (getu4 (drop 6 s)) in
                    if negb (dec =? utf8.RuneError)
                    then emit (utf8.EncodeRune dec) (unquote_loop 11 rest)
                    else emit (utf8.EncodeRune utf8.RuneError) (unquote_loop 5 rest)
                  else emit (utf8.EncodeRune rr) (unquote_loop 5 rest)
                else None
            end
          else if (b =? 34) || (b <? 0x20) then None
          else if b <? utf8.RuneSelf then emit (str1 c) (unquote_loop 0 rest)
          else
            let (rr, size) := utf8.DecodeRune s in
            emit (utf8.EncodeRune rr) (unquote_loop (size - 1) rest)
      end
  end.

Definition unquote (raw : string) : option string := unquote_loop 0 raw.

(** *** Numbers *)

Inductive dec_phase : Type := DInt | DFrac | DExp.

(** Reads a literal the scanner accepted: its sign, its digits as an
    integer [m] and the power of ten [x] such that it denotes
    [m * 10 ^ x]. *)
Fixpoint readDecimal (ph : dec_phase) (neg : bool) (m scale : Z) (eneg : bool) (e : Z)
    (lit : string) : bool * Z * Z :=
  match lit with
  | EmptyString => (neg, m, (if eneg then - e else e) - scale)
  | String c rest =>
      let b := byte_val c in
      if b =? 45 then
        match ph with
        | DExp => readDecimal ph neg m scale true e rest
        | _ => readDecimal ph true m scale eneg e rest
        end
      else if b =? 43 then readDecimal ph neg m scale eneg e rest
      else if b =? 46 then readDecimal DFrac neg m scale eneg e rest
      else if (b =? 101) || (b =? 69) then readDecimal DExp neg m scale eneg e rest
      else
        let d := b - 48 in
        match ph with
        | DInt => readDecimal ph neg (m * 10 + d) scale eneg e rest
        | DFrac => readDecimal ph neg (m * 10 + d) (scale + 1) eneg e rest
        | DExp => readDecimal ph neg m scale eneg (e * 10 + d) rest
        end
  end.

Definition round_half_even (n d : Z) : Z :=
  let q := n / d in
  let r := n mod d in
  if 2 * r <? d then q
  else if d <? 2 * r then q + 1
  else if Z.even q then q else q + 1.

(** The float64 nearest to [num / den] (both positive), ties to even;
    [None] when it is beyond the largest finite float64.  An integer below
    [2 ^ 53] is exact. *)
Definition nearest_float64 (num den : Z) : option Q :=
  if (den =? 1) && (num <? 2 ^ 53) then Some (num # 1)
  else
    let e0 := Z.log2 num - Z.log2 den in
    let below :=
      if 0 <=? e0 then num <? den * 2 ^ e0 else num * 2 ^ (- e0) <? den in
    let e := if below then e0 - 1 else e0 in
    let u := Z.max (e - 52) (-1074) in
    let m := round_half_even (num * 2 ^ Z.max 0 (- u)) (den * 2 ^ Z.max 0 u) in
    if (971 <? u) || ((u =? 971) && (2 ^ 53 <=? m)) then None
    else if 0 <=? u then Some (m * 2 ^ u # 1)
    else Some (m # Z.to_pos (2 ^ (- u))).

(** [strconv.ParseFloat lit 64] on a literal the scanner accepted;
    [None] is the range error. *)
Definition ParseFloat (lit : string) : option float64 :=
  let '(neg, m, x) := readDecimal DInt false 0 0 false 0 lit in
  let r :=
    if m =? 0 then Some (0 # 1)
    else if 0 <=? x then nearest_float64 (m * 10 ^ x) 1
    else nearest_float64 m (10 ^ (- x)) in
  match r with
  | Some f => Some (if neg then Qopp f else f)
  | None => None
  end.

(** *** Decoding *)

(** A container under construction: the elements of an array, newest
    first, or the bindings of an object and the key that awaits its
    value. *)
Inductive frame : Type :=
| FArray (elems : list value)
| FObject (m : gomap) (key : option string).

(** What the scanner expects next, named as the states of scanner.go. *)
Inductive phase : Type :=
| stateBeginValue
| stateBeginValueOrEmpty
| stateBeginStringOrEmpty
| stateBeginString
| stateObjectKey
| stateEndValue.

Definition maxNestingDepth : Z := 10000.

Record parser : Type := mkParser {
  parseState : list frame;
  step : phase;
  top : option value;
  savedError : option error
}.

(** A value is complete: it goes to the container on top of the stack, or
    it is the result. *)
Definition complete (p : parser) (v : value) : option parser :=
  match parseState p with
  | [] => Some (mkParser [] stateEndValue (Some v) (savedError p))
  | FArray elems :: st =>
      Some (mkParser (FArray (v :: elems) :: st) stateEndValue (top p) (savedError p))
  | FObject m (Some k) :: st =>
      Some (mkParser (FObject (map_set m k v) None :: st) stateEndValue (top p)
              (savedError p))
  | FObject _ None :: _ => None
  end.

Definition pushParseState (p : parser) (f : frame) (next : phase) : option parser :=
  let st := f :: parseState p in
  if Z.of_nat (List.length st) <=? maxNestingDepth
  then Some (mkParser st next (top p) (savedError p))
  else None.

Definition saveError (p : parser) (e : error) : parser :=
  match savedError p with
  | Some _ => p
  | None => mkParser (parseState p) (step p) (top p) (Some e)
  end.

Definition begin_value (p : parser) (t : token) : option parser :=
  match t with
  | TBeginObject => pushParseState p (FObject [] None) stateBeginStringOrEmpty
  | TBeginArray => pushParseState p (FArray []) stateBeginValueOrEmpty
  | TString raw =>
      match unquote raw with
      | Some s => complete p (Str s)
      | None => None
      end
  | TNumber lit =>
      match ParseFloat lit with
      | Some f => complete p (Number f)
      | None =>
          complete (saveError p (UnmarshalTypeError ("number " ++ lit)%string)) Null
      end
  | TTrue => complete p (Bool true)
  | TFalse => complete p (Bool false)
  | TNull => complete p Null
  | _ => None
  end.

Definition object_key (p : parser) (raw : string) : option parser :=
  match parseState p, unquote raw with
  | FObject m None :: st, Some k =>
      Some (mkParser (FObject m (Some k) :: st) stateObjectKey (top p) (savedError p))
  | _, _ => None
  end.

Definition end_container (p : parser) : option parser :=
  match parseState p with
  | FArray elems :: st =>
      complete (mkParser st (step p) (top p) (savedError p)) (Array (rev elems))
  | FObject m None :: st =>
      complete (mkParser st (step p) (top p) (savedError p)) (Object m)
  | _ => None
  end.

Definition parse_step (p : parser) (t : token) : option parser :=
  match step p, t, parseState p with
  | stateBeginValue, _, _ => begin_value p t
  | stateBeginValueOrEmpty, TEndArray, _ => end_container p
  | stateBeginValueOrEmpty, _, _ => begin_value p t
  | stateBeginStringOrEmpty, TEndObject, _ => end_container p
  | stateBeginStringOrEmpty, TString raw, _ => object_key p raw
  | stateBeginString, TString raw, _ => object_key p raw
  | stateObjectKey, TColon, _ =>
      Some (mkParser (parseState p) stateBeginValue (top p) (savedError p))
  | stateEndValue, TComma, FObject _ _ :: _ =>
      Some (mkParser (parseState p) stateBeginString (top p) (savedError p))
  | stateEndValue, TEndObject, FObject _ _ :: _ => end_container p
  | stateEndValue, TComma, FArray _ :: _ =>
      Some (mkParser (parseState p) stateBeginValue (top p) (savedError p))
  | stateEndValue, TEndArray, FArray _ :: _ => end_container p
  | _, _, _ => None
  end.

Fixpoint parse (p : parser) (toks : list token) : option (value * option error) :=
  match toks with
  | [] =>
      match parseState p, step p, top p with
      | [], stateEndValue, Some v => Some (v, savedError p)
      | _, _, _ => None
      end
  | t :: toks' =>
      match parse_step p t with
      | Some p' => parse p' toks'
      | None => None
      end
  end.

(** [json.Unmarshal data &payload] for [payload] a nil
    [map[string]interface{}]: a syntax error comes first; then an object
    fills the map, [null] leaves it nil, and any other value is a type
    error, as is a number beyond the float64 range. *)
Definition Unmarshal (data : string) : result gomap :=
  match lex LBegin data with
  | None => Err SyntaxError
  | Some toks =>
      match parse (mkParser [] stateBeginValue None None) toks with
      | None => Err SyntaxError
      | Some (v, saved) =>
          match toks with
          | TBeginObject :: _ =>
              match saved, v with
              | Some e, _ => Err e
              | None, Object m => Ok m
              | None, _ => Err SyntaxError
              end
          | TNull :: _ => Ok []
          | TBeginArray :: _ => Err (UnmarshalTypeError "array")
          | TString _ :: _ => Err (UnmarshalTypeError "string")
          | TNumber _ :: _ => Err (UnmarshalTypeError "number")
          | _ => Err (UnmarshalTypeError "bool")
          end
      end
  end.

End json.

(** ** github.com/google/uuid *)

Module uuid.

(** A UUID is an array of 16 bytes, modelled by a string of that length. *)
Definition UUID : Type := string.

Definition wf (u : UUID) : Prop := String.length u = 16%nat.

Definition Nil : UUID := string_of_bytes (repeat 0 16).

(** [hex.Encode]: two lower-case digits for each byte. *)
Fixpoint hexEncode (src : string) : string :=
  match src with
  | EmptyString => EmptyString
  | String c rest =>
      String (json.hex_digit (Z.shiftr (byte_val c) 4))
        (String (json.hex_digit (Z.land (byte_val c) 15)) (hexEncode rest))
  end.

(** [UUID.String]: the form xxxxxxxx-xxxx-xxxx-xxxx-xxxxxxxxxxxx. *)
Definition String_ (u : UUID) : string :=
  (hexEncode (substring 0 4 u) ++ "-" ++ hexEncode (substring 4 2 u) ++ "-"
   ++ hexEncode (substring 6 2 u) ++ "-" ++ hexEncode (substring 8 2 u) ++ "-"
   ++ hexEncode (substring 10 6 u))%string.

(** [xtob]: the byte of two hexadecimal digits of either case. *)
Definition xtob (x1 x2 : ascii) : option ascii :=
  let b1 := json.hexval (byte_val x1) in
  let b2 := json.hexval (byte_val x2) in
  if (0 <=? b1) && (0 <=? b2) then Some (byte_chr (b1 * 16 + b2)) else None.

Definition at_ (s : string) (i : nat) : ascii :=
  match String.get i s with
  | Some c => c
  | None => zero
  end.

Fixpoint xtob_all (s : string) (offsets : list nat) : option string :=
  match offsets with
  | [] => Some EmptyString
  | x :: rest =>
      match xtob (at_ s x) (at_ s (S x)), xtob_all s rest with
      | Some b, Some r => Some (String b r)
      | _, _ => None
      end
  end.

Definition invalidFormat : error := Errorf "invalid UUID format".

(** The common end of [Parse]: [s] holds at least 36 bytes and must have
    the hyphenated form. *)
Definition parse_hyphenated (s : string) : result UUID :=
  if negb (Ascii.eqb (at_ s 8) "-") || negb (Ascii.eqb (at_ s 13) "-")
     || negb (Ascii.eqb (at_ s 18) "-") || negb (Ascii.eqb (at_ s 23) "-")
  then Err invalidFormat
  else
    match xtob_all s [0; 2; 4; 6; 9; 11; 14; 16; 19; 21; 24; 26; 28; 30; 32; 34]%nat with
    | Some u => Ok u
    | None => Err invalidFormat
    end.

Definition lower (c : ascii) : ascii :=
  let b := byte_val c in
  if (65 <=? b) && (b <=? 90) then byte_chr (b + 32) else c.

Fixpoint map_string (f : ascii -> ascii) (s : string) : string :=
  match s with
  | EmptyString => EmptyString
  | String c rest => String (f c) (map_string f rest)
  end.

(** [uuid.Parse]: the hyphenated form, alone, after [urn:uuid:] or between
    two bytes that are not looked at, or 32 hexadecimal digits.  The
    messages of its errors do not keep the length or the prefix that was
    met. *)
Definition Parse (s : string) : result UUID :=
  let n := String.length s in
  if (n =? 36)%nat then parse_hyphenated s
  else if (n =? 45)%nat then
    if String.eqb (map_string lower (substring 0 9 s)) "urn:uuid:"
    then parse_hyphenated (json.drop 9 s)
    else Err (Errorf "invalid urn prefix")
  else if (n =? 38)%nat then parse_hyphenated (json.drop 1 s)
  else if (n =? 32)%nat then
    match xtob_all s (map (fun i => 2 * i)%nat (seq 0 16)) with
    | Some u => Ok u
    | None => Err invalidFormat
    end
  else Err (Errorf "invalid UUID length").

End uuid.

(** ** time *)

Module time.

(** A [Duration] is a 64-bit count of nanoseconds. *)
Definition Duration : Type := Z.

Definition Second : Duration := 1000000000.
Definition Minute : Duration := 60 * Second.
Definition Hour : Duration := 60 * Minute.

Definition wrap64 (z : Z) : Z := (z + 2 ^ 63) mod 2 ^ 64 - 2 ^ 63.

(** An instant: the seconds since the Unix epoch and the nanoseconds
    within the second.  The seconds are not bounded in the model (Go
    saturates its 64-bit count only beyond 292 billion years); readings of
    the monotonic clock play no part in what the core computes. *)
Record Time : Type := mkTime { sec : Z; nsec : Z }.

Definition wf (t : Time) : Prop := 0 <= nsec t < 1000000000.

(** [t.Add d]. *)
Definition Add (t : Time) (d : Duration) : Time :=
  let dsec := Z.quot d 1000000000 in
  let n := nsec t + Z.rem d 1000000000 in
  if 1000000000 <=? n then mkTime (sec t + dsec + 1) (n - 1000000000)
  else if n <? 0 then mkTime (sec t + dsec - 1) (n + 1000000000)
  else mkTime (sec t + dsec) n.

(** [t.Unix ()]. *)
Definition Unix_ (t : Time) : Z := sec t.

Definition unixToInternal : Z := 62135596800.

(** [time.Unix sec 0]: the 64-bit sum with [unixToInternal] wraps. *)
Definition Unix (s : Z) : Time := mkTime (wrap64 (s + unixToInternal) - unixToInternal) 0.

Definition Before (t u : Time) : bool :=
  (sec t <? sec u) || ((sec t =? sec u) && (nsec t <? nsec u)).

Definition After (t u : Time) : bool := Before u t.

(** [int64 f] for a float64 [f]: the integer part, and the smallest int64
    when it does not fit (what amd64 and arm64 give for a value below the
    range, and amd64 for one above). *)
Definition int64_of_float64 (f : json.float64) : Z :=
  let z := Z.quot (Qnum f) (Zpos (Qden f)) in
  if (- 2 ^ 63 <=? z) && (z <? 2 ^ 63) then z else - 2 ^ 63.

End time.

(** ** strconv.Atoi *)

Module atoi.

(** What [ParseUint] makes of the digits. *)
Inductive parsed : Type :=
| Value (n : Z)
| ErrSyntax
| ErrRange.

(** The least number whose product by ten is beyond 64 bits. *)
Definition cutoff : Z := (2 ^ 64 - 1) / 10 + 1.

(** The loop of [strconv.ParseUint s 10 64] from the number [n] read so
    far.  A byte that is not a digit is a syntax error.  Before a digit is
    added, a number at or above the cutoff is a range error, and so is a
    sum beyond 64 bits: the bytes after that digit are not read. *)
Fixpoint ParseUint (n : Z) (s : string) : parsed :=
  match s with
  | EmptyString => Value n
  | String c rest =>
      if negb (json.isDigit (byte_val c)) then ErrSyntax
      else if cutoff <=? n then ErrRange
      else
        let n1 := n * 10 + (byte_val c - 48) in
        if 2 ^ 64 <=? n1 then ErrRange else ParseUint n1 rest
  end.

(** [strconv.Atoi] on a 64-bit platform: the value and whether there was
    no error.  A syntax error gives 0 and a range error the largest or the
    smallest 64-bit integer, both with an error.  The fast path that [Atoi]
    takes on fewer than 19 bytes gives what [ParseInt] gives. *)
Definition Atoi (s : string) : Z * bool :=
  let '(neg, body) :=
    match s with
    | String c rest =>
        if Ascii.eqb c "-" then (true, rest)
        else if Ascii.eqb c "+" then (false, rest)
        else (false, s)
    | EmptyString => (false, s)
    end in
  match body with
  | EmptyString => (0, false)
  | _ =>
      match ParseUint 0 body with
      | ErrSyntax => (0, false)
      | ErrRange => (if neg then - 2 ^ 63 else 2 ^ 63 - 1, false)
      | Value un =>
          if negb neg && (2 ^ 63 <=? un) then (2 ^ 63 - 1, false)
          else if neg && (2 ^ 63 <? un) then (- 2 ^ 63, false)
          else (if neg then - un else un, true)
      end
  end.

End atoi.

(** ** internal/config *)

Module config.

Record JWTConfig : Type := mkJWTConfig {
  Secret : string;
  Issuer : string;
  Audience : string;
  Expiration : time.Duration
}.

Record OAuthConfig : Type := mkOAuthConfig {
  ClientID : string;
  ClientSecret : string;
  RedirectURI : string
}.

Record Config : Type := mkConfig {
  JWT : JWTConfig;
  OAuth : OAuthConfig
}.

(** The environment: the value of each variable, empty when unset. *)
Definition Env : Type := string -> string.

Definition getEnv (env : Env) (key defaultValue : string) : string :=
  if String.eqb (env key) EmptyString then defaultValue else env key.

(** [Load], for the parts the core reads.  The error of [Atoi] is
    dropped, and the product with [time.Hour] is a 64-bit one. *)
Definition Load (env : Env) : Config :=
  let expiration := fst (atoi.Atoi (getEnv env "JWT_EXPIRATION_HOURS" "24")) in
  mkConfig
    (mkJWTConfig
       (getEnv env "JWT_SECRET" "your-super-secret-jwt-key")
       (getEnv env "JWT_ISSUER" "ishare-task-api")
       (getEnv env "JWT_AUDIENCE" "ishare-clients")
       (time.wrap64 (expiration * time.Hour)))
    (mkOAuthConfig
       (getEnv env "OAUTH_CLIENT_ID" "test-client")
       (getEnv env "OAUTH_CLIENT_SECRET" "test-secret")
       (getEnv env "OAUTH_REDIRECT_URI" "http://localhost:8080/oauth/callback")).

End config.

(** ** internal/models *)

(** The rows of the three tables the core works on, with the columns it
    reads or writes (the creation and update timestamps are left out). *)
Module models.

Module User.
Record t : Type := mk { ID : uuid.UUID; Email : string; PasswordHash : string }.

(** [BeforeCreate]: a nil identifier is replaced by a new one. *)
Definition BeforeCreate (fresh : uuid.UUID) (user : t) : t :=
  if String.eqb (ID user) uuid.Nil then mk fresh (Email user) (PasswordHash user) else user.
End User.

Module AuthorizationCode.
Record t : Type := mk {
  ID : uuid.UUID;
  Code : string;
  UserID : uuid.UUID;
  ClientID : string;
  Scope : string;
  ExpiresAt : time.Time
}.

(** [BeforeCreate]: a nil identifier is replaced by a new one. *)
Definition BeforeCreate (fresh : uuid.UUID) (code : t) : t :=
  if String.eqb (ID code) uuid.Nil
  then mk fresh (Code code) (UserID code) (ClientID code) (Scope code) (ExpiresAt code)
  else code.
End AuthorizationCode.

Module AccessToken.
Record t : Type := mk {
  ID : uuid.UUID;
  Token : string;
  UserID : uuid.UUID;
  ClientID : string;
  Scope : string;
  ExpiresAt : time.Time
}.

Definition BeforeCreate (fresh : uuid.UUID) (token : t) : t :=
  if String.eqb (ID token) uuid.Nil
  then mk fresh (Token token) (UserID token) (ClientID token) (Scope token)
         (ExpiresAt token)
  else token.
End AccessToken.

Module Task.
Record t : Type := mk {
  ID : uuid.UUID;
  Title : string;
  Description : string;
  Status : string
}.

Definition BeforeCreate (fresh : uuid.UUID) (task : t) : t :=
  if String.eqb (ID task) uuid.Nil
  then mk fresh (Title task) (Description task) (Status task)
  else task.
End Task.

End models.

(** ** The store *)

(** The database as the core sees it through gorm: three tables, each the
    list of its rows.  A query compares strings byte for byte and instants
    exactly (PostgreSQL keeps microseconds); a lost connection is not
    modelled. *)
Module gorm.

Record DB : Type := mkDB {
  users : list models.User.t;
  authorization_codes : list models.AuthorizationCode.t;
  access_tokens : list models.AccessToken.t
}.

Definition ErrRecordNotFound : error := Errorf "record not found".
Definition ErrDuplicatedKey : error := Errorf "duplicated key not allowed".

Section Table.
Variable row : Type.
Variable pk : row -> uuid.UUID.

Fixpoint least (r : row) (rows : list row) : row :=
  match rows with
  | [] => r
  | r' :: rows' => least (if String.ltb (pk r') (pk r) then r' else r) rows'
  end.

(** [Where(cond).First(&dest)]: among the rows that satisfy the
    condition, the one with the least primary key. *)
Definition First (cond : row -> bool) (rows : list row) : result row :=
  match filter cond rows with
  | [] => Err ErrRecordNotFound
  | r :: rest => Ok (least r rest)
  end.

(** [Delete(&value)]: the row with the primary key of the value goes;
    with a zero primary key gorm refuses to delete without a condition
    and the table stays as it is. *)
Definition Delete (value : row) (rows : list row) : list row :=
  if String.eqb (pk value) uuid.Nil then rows
  else filter (fun r => negb (String.eqb (pk r) (pk value))) rows.

(** [Where(cond).Delete(&Model{})]. *)
Definition DeleteWhere (cond : row -> bool) (rows : list row) : list row :=
  filter (fun r => negb (cond r)) rows.

(** [Create(value)] on a table with a primary key and one unique
    column. *)
Definition Create (unique : row -> string) (value : row) (rows : list row)
  : result (list row) :=
  if existsb (fun r => String.eqb (pk r) (pk value)
                       || String.eqb (unique r) (unique value)) rows
  then Err ErrDuplicatedKey
  else Ok (rows ++ [value]).
End Table.

Arguments least {row} pk r rows.
Arguments First {row} pk cond rows.
Arguments Delete {row} pk value rows.
Arguments DeleteWhere {row} cond rows.
Arguments Create {row} pk unique value rows.

End gorm.

(** ** internal/auth/jwt.go *)

Module jwt.

Record JWTManager : Type := mkJWTManager { config : config.JWTConfig }.

Definition NewJWTManager (cfg : config.JWTConfig) : JWTManager := mkJWTManager cfg.

(** The claims that [ValidateJWS] fills; the registered claims embedded in
    the Go structure stay at their zero value. *)
Record Claims : Type := mkClaims {
  UserID : uuid.UUID;
  Email : string;
  Scope : string
}.

(** [sign]: the HMAC-SHA256 of the input under the configured secret, in
    base64url without padding. *)
Definition sign (j : JWTManager) (input : string) : string :=
  base64.RawURLEncoding.EncodeToString
    (string_of_bytes
       (hmac.Sum (bytes_of_string (config.Secret (config j))) (bytes_of_string input))).

(** [GenerateJWS]; [now] is the reading of the clock at its first line. *)
Definition GenerateJWS (j : JWTManager) (now : time.Time) (user : models.User.t)
    (scope : string) : result string :=
  let header := [("alg", json.AString "HS256"); ("typ", json.AString "JWT")] in
  let payload :=
    [("sub", json.AString (uuid.String_ (models.User.ID user)));
     ("email", json.AString (models.User.Email user));
     ("scope", json.AString scope);
     ("iss", json.AString (config.Issuer (config j)));
     ("aud", json.AString (config.Audience (config j)));
     ("exp", json.AInt64 (time.Unix_ (time.Add now (config.Expiration (config j)))));
     ("iat", json.AInt64 (time.Unix_ now));
     ("nbf", json.AInt64 (time.Unix_ now))] in
  let* headerJSON := json.Marshal header in
  let* payloadJSON := json.Marshal payload in
  let headerB64 := base64.RawURLEncoding.EncodeToString headerJSON in
  let payloadB64 := base64.RawURLEncoding.EncodeToString payloadJSON in
  let signingInput := (headerB64 ++ "." ++ payloadB64)%string in
  let signature := sign j signingInput in
  let jws := (signingInput ++ "." ++ signature)%string in
  Ok jws.

Definition string_field (payload : json.gomap) (key : string) : option string :=
  match json.map_get payload key with
  | Some (json.Str s) => Some s
  | _ => None
  end.

Definition float64_field (payload : json.gomap) (key : string) : option json.float64 :=
  match json.map_get payload key with
  | Some (json.Number f) => Some f
  | _ => None
  end.

(** The steps of [ValidateJWS] after the signature has been checked;
    [now] is the reading of the clock in the expiry check, the only place
    where the clock is read. *)
Definition validate_payload (now : time.Time) (payloadB64 : string) : result Claims :=
  let* payloadBytes := base64.RawURLEncoding.DecodeString payloadB64 in
  let* payload := json.Unmarshal payloadBytes in
  let expired :=
    match float64_field payload "exp" with
    | Some exp => time.Before (time.Unix (time.int64_of_float64 exp)) now
    | None => false
    end in
  if expired then Err (Errorf "token expired")
  else
    match string_field payload "sub" with
    | None => Err (Errorf "invalid user ID in token")
    | Some userIDStr =>
        match uuid.Parse userIDStr with
        | Err _ => Err (Errorf "invalid user ID format")
        | Ok userID =>
            let email :=
              match string_field payload "email" with Some s => s | None => EmptyString end in
            let scope :=
              match string_field payload "scope" with Some s => s | None => EmptyString end in
            Ok (mkClaims userID email scope)
        end
    end.

(** [ValidateJWS]. *)
Definition ValidateJWS (j : JWTManager) (now : time.Time) (jws : string) : result Claims :=
  match strings.Split jws "." with
  | [headerB64; payloadB64; signatureB64] =>
      let signingInput := (headerB64 ++ "." ++ payloadB64)%string in
      let expectedSignature := sign j signingInput in
      if negb (String.eqb signatureB64 expectedSignature)
      then Err (Errorf "invalid signature")
      else validate_payload now payloadB64
  | _ => Err (Errorf "invalid JWS format")
  end.

Fixpoint contains (scopes : list string) (requiredScope : string) : bool :=
  match scopes with
  | [] => false
  | scope :: rest =>
      if String.eqb scope requiredScope then true else contains rest requiredScope
  end.

(** [HasScope]. *)
Definition HasScope (j : JWTManager) (claims : Claims) (requiredScope : string) : bool :=
  if String.eqb (Scope claims) EmptyString then false
  else contains (strings.Split (Scope claims) " ") requiredScope.

End jwt.

(** ** github.com/gin-gonic/gin *)

Module gin.

(** [gin.H] with the single entry the core writes. *)
Definition H : Type := list (string * string).

(** What a handler binds to a key of the context. *)
Inductive key_value : Type :=
| KUser (u : models.User.t)
| KClaims (c : jwt.Claims)
| KAccessToken (t : models.AccessToken.t).

Record Context : Type := mkContext {
  Header : string -> string;
  Writer : list (Z * H);
  Keys : list (string * key_value);
  index : Z
}.

Definition abortIndex : Z := 63.

Definition GetHeader (c : Context) (key : string) : string := Header c key.

Definition JSON (c : Context) (code : Z) (obj : H) : Context :=
  mkContext (Header c) (Writer c ++ [(code, obj)]) (Keys c) (index c).

Definition Abort (c : Context) : Context :=
  mkContext (Header c) (Writer c) (Keys c) abortIndex.

Definition IsAborted (c : Context) : bool := abortIndex <=? index c.

Definition Set_ (c : Context) (key : string) (v : key_value) : Context :=
  mkContext (Header c) (Writer c) ((key, v) :: Keys c) (index c).

Fixpoint Get (keys : list (string * key_value)) (key : string) : option key_value :=
  match keys with
  | [] => None
  | (k, v) :: keys' => if String.eqb k key then Some v else Get keys' key
  end.

(** A handler; its first argument is what [c.Next ()] does where the
    handler stands in the chain. *)
Definition HandlerFunc : Type := (Context -> Context) -> Context -> Context.

Definition incr (c : Context) : Context :=
  mkContext (Header c) (Writer c) (Keys c) (index c + 1).

(** The loop of [Context.Next] over the handlers from position [pos] on:
    the handler at the index of the context runs, the index moves by one,
    and a handler the index has passed is not run. *)
Fixpoint run (handlers : list HandlerFunc) (pos : Z) (c : Context) : Context :=
  match handlers with
  | [] => c
  | h :: rest =>
      if index c =? pos
      then run rest (pos + 1) (incr (h (fun c' => run rest (pos + 1) (incr c')) c))
      else run rest (pos + 1) c
  end.

(** The engine serves a request: the index starts at -1 and [Next] is
    called. *)
Definition handle (handlers : list HandlerFunc) (c : Context) : Context :=
  run handlers 0 (incr (mkContext (Header c) (Writer c) (Keys c) (-1))).

Definition StatusUnauthorized : Z := 401.
Definition StatusForbidden : Z := 403.
Definition StatusInternalServerError : Z := 500.

Definition StatusOK : Z := 200.
Definition StatusBadRequest : Z := 400.
Definition StatusNotFound : Z := 404.

End gin.

(** ** internal/auth/oauth.go *)

Module oauth.

Import models.

(** The manager; the database it points to is passed to each operation
    and returned by those that write to it. *)
Record OAuthManager : Type := mkOAuthManager {
  config : config.OAuthConfig;
  jwt_ : jwt.JWTManager
}.

Definition invalid_grant : error := Errorf "invalid or expired authorization code".
Definition invalid_client : error := Errorf "invalid client secret".

Definition set_authorization_codes (db : gorm.DB) (l : list AuthorizationCode.t) : gorm.DB :=
  gorm.mkDB (gorm.users db) l (gorm.access_tokens db).

Definition set_access_tokens (db : gorm.DB) (l : list AccessToken.t) : gorm.DB :=
  gorm.mkDB (gorm.users db) (gorm.authorization_codes db) l.

(** [CreateAuthorizationCode]; [codeBytes] are the 32 bytes read from the
    random source, [fresh] the identifier the creation hook draws and
    [now] the reading of the clock. *)
Definition CreateAuthorizationCode (o : OAuthManager) (db : gorm.DB)
    (codeBytes : string) (fresh : uuid.UUID) (now : time.Time)
    (userID : uuid.UUID) (clientID scope : string)
  : result AuthorizationCode.t * gorm.DB :=
  let code := base64.URLEncoding.EncodeToString codeBytes in
  let authCode :=
    AuthorizationCode.BeforeCreate fresh
      (AuthorizationCode.mk uuid.Nil code userID clientID scope
         (time.Add now (10 * time.Minute))) in
  match gorm.Create AuthorizationCode.ID AuthorizationCode.Code authCode
          (gorm.authorization_codes db) with
  | Err e => (Err e, db)
  | Ok rows => (Ok authCode, set_authorization_codes db rows)
  end.

(** The condition of the query of [ValidateAuthorizationCode]. *)
Definition live_code (code clientID : string) (now : time.Time)
    (r : AuthorizationCode.t) : bool :=
  String.eqb (AuthorizationCode.Code r) code
  && String.eqb (AuthorizationCode.ClientID r) clientID
  && time.After (AuthorizationCode.ExpiresAt r) now.

(** [ValidateAuthorizationCode]: the result and the database it leaves. *)
Definition ValidateAuthorizationCode (o : OAuthManager) (db : gorm.DB) (now : time.Time)
    (code clientID clientSecret : string) : result AuthorizationCode.t * gorm.DB :=
  match gorm.First AuthorizationCode.ID (live_code code clientID now)
          (gorm.authorization_codes db) with
  | Err _ => (Err invalid_grant, db)
  | Ok authCode =>
      if negb (String.eqb clientSecret (config.ClientSecret (config o)))
      then (Err invalid_client, db)
      else
        (Ok authCode,
         set_authorization_codes db
           (gorm.Delete AuthorizationCode.ID authCode (gorm.authorization_codes db)))
  end.

(** [CreateAccessToken]; [now_jws] is the reading of the clock inside
    [GenerateJWS] and [now] the later one for the row. *)
Definition CreateAccessToken (o : OAuthManager) (db : gorm.DB)
    (now_jws now : time.Time) (fresh : uuid.UUID)
    (userID : uuid.UUID) (clientID scope : string)
  : result AccessToken.t * gorm.DB :=
  let user := User.mk userID EmptyString EmptyString in
  match jwt.GenerateJWS (jwt_ o) now_jws user scope with
  | Err e => (Err e, db)
  | Ok tokenString =>
      let accessToken :=
        AccessToken.BeforeCreate fresh
          (AccessToken.mk uuid.Nil tokenString userID clientID scope
             (time.Add now (24 * time.Hour))) in
      match gorm.Create AccessToken.ID AccessToken.Token accessToken
              (gorm.access_tokens db) with
      | Err e => (Err e, db)
      | Ok rows => (Ok accessToken, set_access_tokens db rows)
      end
  end.

Definition live_token (tokenString : string) (now : time.Time) (r : AccessToken.t) : bool :=
  String.eqb (AccessToken.Token r) tokenString
  && time.After (AccessToken.ExpiresAt r) now.

(** [ValidateAccessToken]. *)
Definition ValidateAccessToken (o : OAuthManager) (db : gorm.DB) (now : time.Time)
    (tokenString : string) : result AccessToken.t :=
  match gorm.First AccessToken.ID (live_token tokenString now) (gorm.access_tokens db) with
  | Err _ => Err (Errorf "invalid or expired access token")
  | Ok accessToken => Ok accessToken
  end.

(** [CleanupExpiredTokens], with the two readings of the clock. *)
Definition CleanupExpiredTokens (o : OAuthManager) (db : gorm.DB) (now1 now2 : time.Time)
  : gorm.DB :=
  gorm.mkDB (gorm.users db)
    (gorm.DeleteWhere (fun r => time.Before (AuthorizationCode.ExpiresAt r) now1)
       (gorm.authorization_codes db))
    (gorm.DeleteWhere (fun r => time.Before (AccessToken.ExpiresAt r) now2)
       (gorm.access_tokens db)).

(** [GetUserByID]. *)
Definition GetUserByID (o : OAuthManager) (db : gorm.DB) (userID : uuid.UUID)
  : result User.t :=
  gorm.First User.ID (fun u => String.eqb (User.ID u) userID) (gorm.users db).

Definition set_users (db : gorm.DB) (l : list User.t) : gorm.DB :=
  gorm.mkDB l (gorm.authorization_codes db) (gorm.access_tokens db).

Section Passwords.

(** [bcrypt.CompareHashAndPassword hashedPassword password] returns no
    error. *)
Variable CompareHashAndPassword : string -> string -> bool.

(** [AuthenticateUser]. *)
Definition AuthenticateUser (o : OAuthManager) (db : gorm.DB) (email password : string)
  : result User.t :=
  match gorm.First User.ID (fun u => String.eqb (User.Email u) email) (gorm.users db) with
  | Err _ => Err (Errorf "invalid credentials")
  | Ok user =>
      if negb (CompareHashAndPassword (User.PasswordHash user) password)
      then Err (Errorf "invalid credentials")
      else Ok user
  end.

End Passwords.

(** [CreateUser]; [hashed] is what [bcrypt.GenerateFromPassword] returns
    for the password (the hash under the salt it draws, or its error) and
    [fresh] the identifier the creation hook draws. *)
Definition CreateUser (o : OAuthManager) (db : gorm.DB) (hashed : result string)
    (fresh : uuid.UUID) (email password : string) : result User.t * gorm.DB :=
  match hashed with
  | Err e => (Err e, db)
  | Ok hashedPassword =>
      let user := User.BeforeCreate fresh (User.mk uuid.Nil email hashedPassword) in
      match gorm.Create User.ID User.Email user (gorm.users db) with
      | Err e => (Err e, db)
      | Ok rows => (Ok user, set_users db rows)
      end
  end.

(** The request and the response of the token endpoint. *)
Record TokenRequest : Type := mkTokenRequest {
  GrantType : string;
  Code : string;
  RedirectURI : string;
  ClientID : string;
  ClientSecret : string
}.

Record TokenResponse : Type := mkTokenResponse {
  AccessToken_ : string;
  TokenType : string;
  ExpiresIn : Z;
  RefreshToken : string;
  Scope : string
}.

End oauth.

(** ** internal/auth/middleware.go *)

Module middleware.

Import models.

Record AuthMiddleware : Type := mkAuthMiddleware { jwt_ : jwt.JWTManager }.

Definition reject (c : gin.Context) (code : Z) (msg : string) : gin.Context :=
  gin.Abort (gin.JSON c code [("error", msg)]).

(** [Authenticate]; [now] is the clock of the process, read by
    [ValidateJWS], and [db_now] the clock of the database, read by the
    NOW() of the token query. *)
Definition Authenticate (a : AuthMiddleware) (db : gorm.DB) (now db_now : time.Time)
  : gin.HandlerFunc :=
  fun Next c =>
    let authHeader := gin.GetHeader c "Authorization" in
    if String.eqb authHeader EmptyString
    then reject c gin.StatusUnauthorized "Authorization header required"
    else
      match strings.Split authHeader " " with
      | [scheme; tokenString] =>
          if negb (String.eqb scheme "Bearer")
          then reject c gin.StatusUnauthorized
                 "Invalid authorization header format. Use 'Bearer <token>'"
          else
            match jwt.ValidateJWS (jwt_ a) now tokenString with
            | Err _ => reject c gin.StatusUnauthorized "Invalid or expired token"
            | Ok claims =>
                match gorm.First AccessToken.ID (oauth.live_token tokenString db_now)
                        (gorm.access_tokens db) with
                | Err _ => reject c gin.StatusUnauthorized "Token not found or expired"
                | Ok accessToken =>
                    match gorm.First User.ID
                            (fun u => String.eqb (User.ID u) (jwt.UserID claims))
                            (gorm.users db) with
                    | Err _ => reject c gin.StatusUnauthorized "User not found"
                    | Ok user =>
                        Next
                          (gin.Set_
                             (gin.Set_ (gin.Set_ c "user" (gin.KUser user))
                                "claims" (gin.KClaims claims))
                             "access_token" (gin.KAccessToken accessToken))
                    end
                end
            end
      | _ =>
          reject c gin.StatusUnauthorized
            "Invalid authorization header format. Use 'Bearer <token>'"
      end.

(** [RequireScope]. *)
Definition RequireScope (a : AuthMiddleware) (requiredScope : string) : gin.HandlerFunc :=
  fun Next c =>
    match gin.Get (gin.Keys c) "claims" with
    | None => reject c gin.StatusUnauthorized "Authentication required"
    | Some (gin.KClaims claims) =>
        if negb (jwt.HasScope (jwt_ a) claims requiredScope)
        then reject c gin.StatusForbidden "Insufficient permissions"
        else Next c
    | Some _ => reject c gin.StatusInternalServerError "Invalid claims format"
    end.

(** [GetUserFromContext]: the user and [true], or nothing when the key is
    missing or bound to a value of another type. *)
Definition GetUserFromContext (c : gin.Context) : option User.t :=
  match gin.Get (gin.Keys c) "user" with
  | Some (gin.KUser user) => Some user
  | _ => None
  end.

(** [GetClaimsFromContext]. *)
Definition GetClaimsFromContext (c : gin.Context) : option jwt.Claims :=
  match gin.Get (gin.Keys c) "claims" with
  | Some (gin.KClaims claims) => Some claims
  | _ => None
  end.

(** [GetAccessTokenFromContext]. *)
Definition GetAccessTokenFromContext (c : gin.Context) : option AccessToken.t :=
  match gin.Get (gin.Keys c) "access_token" with
  | Some (gin.KAccessToken token) => Some token
  | _ => None
  end.

(** [ValidateUserOwnership]; [tasks] is the table of tasks and
    [resourceID] the value of the URL parameter [id]. *)
Definition ValidateUserOwnership (a : AuthMiddleware) (tasks : list Task.t)
    (resourceID : string) : gin.HandlerFunc :=
  fun Next c =>
    match GetUserFromContext c with
    | None => reject c gin.StatusUnauthorized "Authentication required"
    | Some user =>
        if String.eqb resourceID EmptyString
        then reject c gin.StatusBadRequest "Resource ID required"
        else
          match uuid.Parse resourceID with
          | Err _ => reject c gin.StatusBadRequest "Invalid resource ID format"
          | Ok resourceUUID =>
              match gorm.First Task.ID (fun t => String.eqb (Task.ID t) resourceUUID)
                      tasks with
              | Err _ => reject c gin.StatusNotFound "Resource not found"
              | Ok task => Next c
              end
          end
    end.

End middleware.

(** ** internal/handlers *)

Module handlers.

Import models.

Record AuthHandler : Type := mkAuthHandler {
  oauth_ : oauth.OAuthManager;
  cfg : config.Config
}.

(** What a handler answers with: through [c.JSON], an object with the
    message of an error under the key [error] or a token response;
    [RedirectTo url] stands for the call [c.Redirect code url].  The
    Location header that net/http writes from [url] is not modelled: it
    resolves a URL without scheme and host against the path of the request
    and escapes the bytes that are not ASCII. *)
Inductive body : Type :=
| ErrorBody (e : error)
| TokenBody (r : oauth.TokenResponse)
| RedirectTo (location : string).

Definition response : Type := (Z * body)%type.

Section Login.

Variable CompareHashAndPassword : string -> string -> bool.


End Login.

(** [Token].  [bound] is what [c.ShouldBind] makes of the request: the
    fields of the form, or its error.  The clock is read by
    [ValidateAuthorizationCode], by [GenerateJWS] and by
    [CreateAccessToken], in that order. *)
Definition Token (h : AuthHandler) (db : gorm.DB) (bound : result oauth.TokenRequest)
    (now_code now_jws now_token : time.Time) (fresh : uuid.UUID) : response * gorm.DB :=
  match bound with
  | Err _ => ((gin.StatusBadRequest, ErrorBody (Errorf "Invalid request parameters")), db)
  | Ok req =>
      if negb (String.eqb (oauth.GrantType req) "authorization_code")
      then ((gin.StatusBadRequest,
             ErrorBody (Errorf "grant_type must be 'authorization_code'")), db)
      else
        match oauth.ValidateAuthorizationCode (oauth_ h) db now_code (oauth.Code req)
                (oauth.ClientID req) (oauth.ClientSecret req) with
        | (Err err, db1) => ((gin.StatusUnauthorized, ErrorBody err), db1)
        | (Ok authCode, db1) =>
            match oauth.CreateAccessToken (oauth_ h) db1 now_jws now_token fresh
                    (AuthorizationCode.UserID authCode) (oauth.ClientID req)
                    (AuthorizationCode.Scope authCode) with
            | (Err _, db2) =>
                ((gin.StatusInternalServerError,
                  ErrorBody (Errorf "Failed to create access token")), db2)
            | (Ok accessToken, db2) =>
                ((gin.StatusOK,
                  TokenBody
                    (oauth.mkTokenResponse (AccessToken.Token accessToken) "Bearer"
                       (24 * 60 * 60) EmptyString (AccessToken.Scope accessToken))),
                 db2)
            end
        end
  end.

(** The page, the limit and the offset [ListTasks] computes from the
    values of the query parameters [page] and [limit] (["1"] and ["10"]
    when they are absent); the product is a 64-bit one. *)
Definition pagination (pageStr limitStr : string) : Z * Z * Z :=
  let '(page, ok) := atoi.Atoi pageStr in
  let page := if negb ok || (page <? 1) then 1 else page in
  let '(limit, ok) := atoi.Atoi limitStr in
  let limit := if negb ok || (limit <? 1) || (100 <? limit) then 10 else limit in
  let offset := time.wrap64 ((page - 1) * limit) in
  (page, limit, offset).

End handlers.

(** * Definitions used by the statements *)

Import models.

(** [has_byte c s]: the byte [c] occurs in [s]. *)
Fixpoint has_byte (c : ascii) (s : string) : bool :=
  match s with
  | EmptyString => false
  | String c' s' => Ascii.eqb c' c || has_byte c s'
  end.

(** [strings.Join] for a separator of one byte. *)
Fixpoint join (sep : ascii) (l : list string) : string :=
  match l with
  | [] => EmptyString
  | [p] => p
  | p :: l' => (p ++ String sep (join sep l'))%string
  end.

(** The constraints of the table of authorization codes: the primary key
    and the code are unique, and no row has the nil identifier. *)
Definition codes_consistent (rows : list AuthorizationCode.t) : Prop :=
  NoDup (map AuthorizationCode.ID rows)
  /\ NoDup (map AuthorizationCode.Code rows)
  /\ Forall (fun r => AuthorizationCode.ID r <> uuid.Nil) rows.

(** The instant as a number of seconds. *)
Definition seconds (t : time.Time) : Q :=
  (inject_Z (time.sec t) + (time.nsec t # 1000000000))%Q.

(** The claims [ValidateJWS] builds from a decoded payload. *)
Definition claims_of (payload : json.gomap) (userID : uuid.UUID) : jwt.Claims :=
  jwt.mkClaims userID
    (match jwt.string_field payload "email" with Some s => s | None => EmptyString end)
    (match jwt.string_field payload "scope" with Some s => s | None => EmptyString end).

(** The context [Authenticate] hands to the next handler: the user, the
    claims and the row of the token are bound to their keys. *)
Definition passed (c : gin.Context) (user : User.t) (claims : jwt.Claims)
    (accessToken : AccessToken.t) : gin.Context :=
  gin.Set_ (gin.Set_ (gin.Set_ c "user" (gin.KUser user)) "claims" (gin.KClaims claims))
    "access_token" (gin.KAccessToken accessToken).

(** The context the engine is left with when a handler has answered with
    an error and aborted: the response is added to those of [c], the keys
    are [keys] and the index is past the chain. *)
Definition rejected (c : gin.Context) (keys : list (string * gin.key_value))
    (code : Z) (msg : string) (index : Z) : gin.Context :=
  gin.mkContext (gin.Header c) (gin.Writer c ++ [(code, [("error", msg)])]) keys index.

(** A clock reading that a row keeps without loss: PostgreSQL stores
    instants in microseconds. *)
Definition microseconds (t : time.Time) : Prop :=
  time.wf t /\ time.nsec t mod 1000 = 0.

(** What [strconv.Atoi] reads as digits: the string after its sign. *)
Definition unsigned (s : string) : string :=
  match s with
  | String c rest => if Ascii.eqb c "-" then rest else if Ascii.eqb c "+" then rest else s
  | EmptyString => s
  end.

(** ** Definitions used by the proofs *)

(** The scanner run over a piece of the input: the tokens it completes and
    the state it is left in. *)
Fixpoint lex_run (st : json.lex_state) (data : string)
  : option (list json.token * json.lex_state) :=
  match data with
  | EmptyString => Some ([], st)
  | String c rest =>
      match json.lex_step st c with
      | Some (toks, st') =>
          match lex_run st' rest with
          | Some (toks', st'') => Some (toks ++ toks', st'')
          | None => None
          end
      | None => None
      end
  end.

Fixpoint all_digits (s : string) : bool :=
  match s with
  | EmptyString => true
  | String c rest => json.isDigit (byte_val c) && all_digits rest
  end.

Fixpoint dec_value (m : Z) (s : string) : Z :=
  match s with
  | EmptyString => m
  | String c rest => dec_value (m * 10 + (byte_val c - 48)) rest
  end.

Ltac ztest :=
  repeat match goal with
    | |- context [?a =? ?b] => destruct (Z.eqb_spec a b); try lia
    | |- context [?a <? ?b] => destruct (Z.ltb_spec a b); try lia
    | |- context [?a <=? ?b] => destruct (Z.leb_spec a b); try lia
    end.

Definition rune2 (c0 c1 : ascii) : Z := (byte_val c0 - 0xC0) * 64 + (byte_val c1 - 0x80).
Definition rune3 (c0 c1 c2 : ascii) : Z :=
  ((byte_val c0 - 0xE0) * 64 + (byte_val c1 - 0x80)) * 64 + (byte_val c2 - 0x80).
Definition rune4 (c0 c1 c2 c3 : ascii) : Z :=
  (((byte_val c0 - 0xF0) * 64 + (byte_val c1 - 0x80)) * 64 + (byte_val c2 - 0x80)) * 64
  + (byte_val c3 - 0x80).

Definition lead2 (c0 c1 : ascii) : Prop :=
  0xC2 <= byte_val c0 <= 0xDF /\ 0x80 <= byte_val c1 <= 0xBF.
Definition lead3 (c0 c1 c2 : ascii) : Prop :=
  0xE0 <= byte_val c0 <= 0xEF
  /\ (if byte_val c0 =? 0xE0 then 0xA0 else 0x80) <= byte_val c1
       <= (if byte_val c0 =? 0xED then 0x9F else 0xBF)
  /\ 0x80 <= byte_val c2 <= 0xBF.
Definition lead4 (c0 c1 c2 c3 : ascii) : Prop :=
  0xF0 <= byte_val c0 <= 0xF4
  /\ (if byte_val c0 =? 0xF0 then 0x90 else 0x80) <= byte_val c1
       <= (if byte_val c0 =? 0xF4 then 0x8F else 0xBF)
  /\ 0x80 <= byte_val c2 <= 0xBF /\ 0x80 <= byte_val c3 <= 0xBF.

(** What [DecodeRune] finds at a byte that is not ASCII. *)
Inductive decoded : string -> Prop :=
| dec_bad : forall s, utf8.DecodeRune s = (utf8.RuneError, 1%nat) -> decoded s
| dec_2 : forall c0 c1 t, lead2 c0 c1 -> decoded (String c0 (String c1 t))
| dec_3 : forall c0 c1 c2 t, lead3 c0 c1 c2 -> decoded (String c0 (String c1 (String c2 t)))
| dec_4 : forall c0 c1 c2 c3 t, lead4 c0 c1 c2 c3 ->
    decoded (String c0 (String c1 (String c2 (String c3 t)))).

Fixpoint pushes (acc s : string) : string :=
  match s with
  | EmptyString => acc
  | String c rest => pushes (json.push acc c) rest
  end.

(** A piece of a quoted string: the scanner passes over it inside a string,
    and [unquote] reads it as [piece]. *)
Definition unit_ok (chunk piece : string) : Prop :=
  (forall acc, lex_run (json.LInString acc) chunk
               = Some ([], json.LInString (acc ++ chunk)%string))
  /\ (forall out, json.unquote_loop 0 (chunk ++ out)
                  = json.emit piece (json.unquote_loop 0 out)).

Definition quoted_ok (q dec : string) : Prop :=
  (forall acc, lex_run (json.LInString acc) q = Some ([], json.LInString (acc ++ q)%string))
  /\ json.unquote_loop 0 q = Some dec.

(** Bytes that the scanner passes inside a string. *)
Fixpoint plain (s : string) : bool :=
  match s with
  | EmptyString => true
  | String c rest => (0x80 <=? byte_val c) && plain rest
  end.

Fixpoint all_ascii (s : string) : bool :=
  match s with
  | EmptyString => true
  | String c rest => (byte_val c <? 0x80) && all_ascii rest
  end.

Definition quoted (s : string) : string := json.appendString_loop 0 s.

(** The text [Marshal] writes for the payload of a token. *)
Definition payload_text (sub email scope iss aud : string) (exp iat nbf : Z) : string :=
  String "{"
   (json.appendString "aud" ++ String ":" (json.appendString aud ++ String ","
   (json.appendString "email" ++ String ":" (json.appendString email ++ String ","
   (json.appendString "exp" ++ String ":" (strconv.FormatInt exp ++ String ","
   (json.appendString "iat" ++ String ":" (strconv.FormatInt iat ++ String ","
   (json.appendString "iss" ++ String ":" (json.appendString iss ++ String ","
   (json.appendString "nbf" ++ String ":" (strconv.FormatInt nbf ++ String ","
   (json.appendString "scope" ++ String ":" (json.appendString scope ++ String ","
   (json.appendString "sub" ++ String ":" (json.appendString sub ++ "}"
   ))))))))))))))))%string.

Definition payload_tokens (sub email scope iss aud : string) (exp iat nbf : Z)
  : list json.token :=
  [json.TBeginObject;
   json.TString (quoted "aud"); json.TColon; json.TString (quoted aud); json.TComma;
   json.TString (quoted "email"); json.TColon; json.TString (quoted email); json.TComma;
   json.TString (quoted "exp"); json.TColon; json.TNumber (strconv.FormatInt exp); json.TComma;
   json.TString (quoted "iat"); json.TColon; json.TNumber (strconv.FormatInt iat); json.TComma;
   json.TString (quoted "iss"); json.TColon; json.TString (quoted iss); json.TComma;
   json.TString (quoted "nbf"); json.TColon; json.TNumber (strconv.FormatInt nbf); json.TComma;
   json.TString (quoted "scope"); json.TColon; json.TString (quoted scope); json.TComma;
   json.TString (quoted "sub"); json.TColon; json.TString (quoted sub);
   json.TEndObject].

Definition payload_map (sub email scope iss aud : string) (exp iat nbf : json.float64)
  : json.gomap :=
  [("sub", json.Str sub); ("scope", json.Str scope); ("nbf", json.Number nbf);
   ("iss", json.Str iss); ("iat", json.Number iat); ("exp", json.Number exp);
   ("email", json.Str email); ("aud", json.Str aud)].

(** The nanoseconds since the epoch. *)
Definition unix_nano (t : time.Time) : Z := time.sec t * 1000000000 + time.nsec t.

(** A reading of the wall clock: after the epoch and before the seconds
    stop being exact in a float64. *)
Definition wall_clock (t : time.Time) : Prop :=
  time.wf t /\ 1 <= time.sec t < 2 ^ 52.

(** The expiry a token carries: the [exp] of its payload, read the way
    [ValidateJWS] reads it. *)
Definition embedded_exp (jws : string) : option Z :=
  match strings.Split jws "." with
  | [_; payloadB64; _] =>
      match base64.RawURLEncoding.DecodeString payloadB64 with
      | Ok payloadBytes =>
          match json.Unmarshal payloadBytes with
          | Ok payload =>
              match jwt.float64_field payload "exp" with
              | Some exp => Some (time.int64_of_float64 exp)
              | None => None
              end
          | Err _ => None
          end
      | Err _ => None
      end
  | _ => None
  end.

Definition header_json : string :=
  match json.Marshal [("alg", json.AString "HS256"); ("typ", json.AString "JWT")] with
  | Ok s => s
  | Err _ => EmptyString
  end.

(** The first segment of every token: the header in base64url. *)
Definition jws_header : string := "eyJhbGciOiJIUzI1NiIsInR5cCI6IkpXVCJ9".

Ltac closed := vm_compute; first [reflexivity | discriminate | intro; discriminate].

(** ** Examples *)

(** Concrete data: the default configuration, one user, tokens signed under
    the default secret and a store with one authorization code. *)
Module demo.

Definition env : config.Env := fun _ => EmptyString.

Definition env_1h : config.Env :=
  fun key => if String.eqb key "JWT_EXPIRATION_HOURS" then "1" else EmptyString.

Definition cfg : config.Config := config.Load env.
Definition cfg_1h : config.Config := config.Load env_1h.

Definition j : jwt.JWTManager := jwt.NewJWTManager (config.JWT cfg).
Definition o : oauth.OAuthManager := oauth.mkOAuthManager (config.OAuth cfg) j.
Definition o_1h : oauth.OAuthManager :=
  oauth.mkOAuthManager (config.OAuth cfg_1h) (jwt.NewJWTManager (config.JWT cfg_1h)).
Definition a : middleware.AuthMiddleware := middleware.mkAuthMiddleware j.

Definition uid : uuid.UUID :=
  string_of_bytes [0x12; 0x34; 0x56; 0x78; 0x9a; 0xbc; 0xde; 0xf0;
                   0x01; 0x23; 0x45; 0x67; 0x89; 0xab; 0xcd; 0xef].
Definition fresh1 : uuid.UUID := string_of_bytes (repeat 0x11 16).
Definition fresh2 : uuid.UUID := string_of_bytes (repeat 0x22 16).

Definition user : User.t := User.mk uid "user@example.com" "$2a$10$hash".

Definition issued : time.Time := time.mkTime 1700000000 500000000.
Definition on_time : time.Time := time.mkTime 1700086400 0.
Definition within_ttl : time.Time := time.mkTime 1700086400 200000000.
Definition later : time.Time := time.mkTime 1700086401 0.
Definition much_later : time.Time := time.mkTime 4000000000 0.

Definition scope : string := "tasks:read tasks:write".

Definition token : string :=
  Eval vm_compute in
    match jwt.GenerateJWS j issued user scope with Ok t => t | Err _ => EmptyString end.

Definition headerB64 : string :=
  Eval vm_compute in base64.RawURLEncoding.EncodeToString header_json.

Definition payloadB64 : string :=
  Eval vm_compute in
    match strings.Split token "." with [_; p; _] => p | _ => EmptyString end.

Definition signatureB64 : string :=
  Eval vm_compute in
    match strings.Split token "." with [_; _; s] => s | _ => EmptyString end.

Definition payloadBytes : string :=
  Eval vm_compute in
    match base64.RawURLEncoding.DecodeString payloadB64 with
    | Ok b => b
    | Err _ => EmptyString
    end.

Definition payload : json.gomap :=
  Eval vm_compute in
    match json.Unmarshal payloadBytes with Ok m => m | Err _ => [] end.

(** A token whose payload holds only a subject, signed under the
    secret. *)
Definition no_exp_bytes : string :=
  (String "{" (json.appendString "sub" ++ String ":" (json.appendString (uuid.String_ uid)
               ++ "}")))%string.

Definition no_exp_payloadB64 : string :=
  Eval vm_compute in base64.RawURLEncoding.EncodeToString no_exp_bytes.

Definition no_exp_signatureB64 : string :=
  Eval vm_compute in jwt.sign j (headerB64 ++ "." ++ no_exp_payloadB64).

Definition no_exp_token : string :=
  Eval vm_compute in (headerB64 ++ "." ++ no_exp_payloadB64 ++ "." ++ no_exp_signatureB64)%string.

Definition no_exp_payload : json.gomap :=
  Eval vm_compute in
    match json.Unmarshal no_exp_bytes with Ok m => m | Err _ => [] end.

(** A store with the user and one authorization code. *)
Definition db0 : gorm.DB := gorm.mkDB [user] [] [].

Definition codeBytes : string := string_of_bytes (repeat 0x5a 32).

Definition code : string := Eval vm_compute in base64.URLEncoding.EncodeToString codeBytes.

Definition authCode : AuthorizationCode.t :=
  Eval vm_compute in
    AuthorizationCode.mk fresh1 code uid "test-client" scope
      (time.Add issued (10 * time.Minute)).

Definition db1 : gorm.DB := gorm.mkDB [user] [authCode] [].

Definition request : gin.Context :=
  gin.mkContext
    (fun key => if String.eqb key "Authorization" then ("Bearer " ++ token)%string
                else EmptyString)
    [] [] 0.

(** A manager of another service that shares the secret. *)
Definition j_other : jwt.JWTManager :=
  jwt.NewJWTManager
    (config.mkJWTConfig (config.Secret (jwt.config j)) "another-service" "another-audience"
       (24 * time.Hour)).


Definition env_wrap : config.Env :=
  fun key => if String.eqb key "JWT_EXPIRATION_HOURS" then "2562048" else EmptyString.

(** A token whose expiry is the largest 64-bit integer. *)
Definition far_bytes : string :=
  (String "{" (json.appendString "exp" ++ String ":" ("9223372036854775807" ++ String ","
               (json.appendString "sub" ++ String ":" (json.appendString (uuid.String_ uid)
                ++ "}")))))%string.

Definition far_payloadB64 : string :=
  Eval vm_compute in base64.RawURLEncoding.EncodeToString far_bytes.

Definition far_signatureB64 : string :=
  Eval vm_compute in jwt.sign j (headerB64 ++ "." ++ far_payloadB64).

Definition far_token : string :=
  Eval vm_compute in (headerB64 ++ "." ++ far_payloadB64 ++ "." ++ far_signatureB64)%string.

Definition far_payload : json.gomap :=
  Eval vm_compute in
    match json.Unmarshal far_bytes with Ok m => m | Err _ => [] end.

(** A token that expires half a second before the epoch, and the
    epoch. *)
Definition early_bytes : string :=
  (String "{" (json.appendString "exp" ++ String ":" ("-0.5" ++ String ","
               (json.appendString "sub" ++ String ":" (json.appendString (uuid.String_ uid)
                ++ "}")))))%string.

Definition early_payloadB64 : string :=
  Eval vm_compute in base64.RawURLEncoding.EncodeToString early_bytes.

Definition early_signatureB64 : string :=
  Eval vm_compute in jwt.sign j (headerB64 ++ "." ++ early_payloadB64).

Definition early_token : string :=
  Eval vm_compute in
    (headerB64 ++ "." ++ early_payloadB64 ++ "." ++ early_signatureB64)%string.

Definition early_payload : json.gomap :=
  Eval vm_compute in
    match json.Unmarshal early_bytes with Ok m => m | Err _ => [] end.

Definition epoch : time.Time := time.mkTime 0 0.

(** The token minted for the user at [issued], its row, and the store
    that holds it. *)
Definition accessToken : AccessToken.t :=
  Eval vm_compute in
    match oauth.CreateAccessToken o db0 issued issued fresh2 uid "test-client" scope with
    | (Ok t, _) => t
    | (Err _, _) => AccessToken.mk uuid.Nil EmptyString uuid.Nil EmptyString EmptyString issued
    end.

Definition db2 : gorm.DB := gorm.mkDB [user] [] [accessToken].

Definition bearer : gin.Context :=
  gin.mkContext
    (fun key => if String.eqb key "Authorization"
                then ("Bearer " ++ AccessToken.Token accessToken)%string
                else EmptyString)
    [] [] 0.

(** A handler that answers 200. *)
Definition ok_handler : gin.HandlerFunc :=
  fun _ c => gin.JSON c gin.StatusOK [("message", "ok")].

Definition five_minutes_later : time.Time := time.mkTime 1700000300 500000000.

(** The token endpoint, a request for the code of [db1], and a store where
    the token that this exchange would mint is already there. *)
Definition h : handlers.AuthHandler := handlers.mkAuthHandler o cfg.

Definition tokenRequest : oauth.TokenRequest :=
  oauth.mkTokenRequest "authorization_code" code "http://localhost:8080/oauth/callback"
    "test-client" "test-secret".

Definition passwordRequest : oauth.TokenRequest :=
  oauth.mkTokenRequest "password" code "http://localhost:8080/oauth/callback"
    "test-client" "test-secret".

Definition db3 : gorm.DB := gorm.mkDB [user] [authCode] [accessToken].


Definition compare : string -> string -> bool :=
  fun hashedPassword password => String.eqb password "password123".

Definition fresh3 : uuid.UUID := string_of_bytes (repeat 0x33 16).

End demo.

(** * Properties *)

(** ** strings.Split *)

Lemma Split_nonempty : forall s sep, strings.Split s sep <> [].
Proof.
  induction s as [|c s IH]; intros sep; simpl.
  - discriminate.
  - destruct (Ascii.eqb c sep); [discriminate|].
    destruct (strings.Split s sep) eqn:E; discriminate.
Qed.

Lemma Split_join : forall s sep, join sep (strings.Split s sep) = s.
Proof.
  induction s as [|c s IH]; intros sep; simpl; [reflexivity|].
  destruct (Ascii.eqb c sep) eqn:E.
  - apply Ascii.eqb_eq in E; subst c.
    specialize (IH sep). destruct (strings.Split s sep) eqn:E'.
    + exfalso; eapply Split_nonempty; eauto.
    + simpl. simpl in IH. rewrite IH. reflexivity.
  - specialize (IH sep). destruct (strings.Split s sep) as [|p ps] eqn:E'.
    + exfalso; eapply Split_nonempty; eauto.
    + destruct ps; simpl in *; rewrite IH; reflexivity.
Qed.

Lemma Split_pieces : forall s sep p,
  In p (strings.Split s sep) -> has_byte sep p = false.
Proof.
  induction s as [|c s IH]; intros sep p; simpl.
  - intros [<-|[]]; reflexivity.
  - destruct (Ascii.eqb c sep) eqn:E.
    + intros [<-|H]; [reflexivity|auto].
    + destruct (strings.Split s sep) as [|q qs] eqn:E'.
      * intros [<-|[]]. simpl. rewrite E. reflexivity.
      * intros [<-|H].
        -- simpl. rewrite E. simpl. apply (IH sep). rewrite E'. left; reflexivity.
        -- apply (IH sep). rewrite E'. right; assumption.
Qed.

Lemma Split_no_sep : forall s sep, has_byte sep s = false -> strings.Split s sep = [s].
Proof.
  induction s as [|c s IH]; intros sep H; simpl in *; [reflexivity|].
  apply orb_false_iff in H as [H1 H2]. rewrite H1, (IH _ H2). reflexivity.
Qed.

Lemma Split_app : forall a sep b,
  has_byte sep a = false ->
  strings.Split (a ++ String sep b) sep = a :: strings.Split b sep.
Proof.
  induction a as [|c a IH]; intros sep b H; simpl in *.
  - rewrite Ascii.eqb_refl. reflexivity.
  - apply orb_false_iff in H as [H1 H2]. rewrite H1, (IH _ _ H2). reflexivity.
Qed.

Lemma contains_In : forall scopes required,
  jwt.contains scopes required = true <-> In required scopes.
Proof.
  induction scopes as [|s l IH]; intros required; simpl.
  - split; [discriminate|tauto].
  - destruct (String.eqb s required) eqn:E.
    + apply String.eqb_eq in E. split; auto.
    + apply String.eqb_neq in E. rewrite IH. split; [auto|intros [H|H]; [contradiction|assumption]].
Qed.

Lemma Split_app_all : forall a sep b,
  strings.Split (a ++ String sep b) sep = strings.Split a sep ++ strings.Split b sep.
Proof.
  induction a as [|c a IH]; intros sep b; cbn [append strings.Split].
  - rewrite Ascii.eqb_refl. reflexivity.
  - rewrite IH. destruct (Ascii.eqb c sep); [reflexivity|].
    destruct (strings.Split a sep) as [|p ps] eqn:E.
    + exfalso. apply (Split_nonempty a sep). exact E.
    + reflexivity.
Qed.

Lemma string_app_assoc : forall a b c : string, ((a ++ b) ++ c = a ++ (b ++ c))%string.
Proof. induction a as [|x a IH]; intros; cbn [append]; [|rewrite IH]; reflexivity. Qed.

Lemma string_app_nil_r : forall a : string, (a ++ EmptyString)%string = a.
Proof. induction a as [|x a IH]; cbn [append]; [|rewrite IH]; reflexivity. Qed.

(** A member of a joined list stands in the result between two ends, each
    empty or a separator away. *)
Lemma join_In : forall sep l r,
  In r l ->
  exists before after : string,
    join sep l = (before ++ r ++ after)%string
    /\ (before = EmptyString \/ exists b, before = (b ++ String sep EmptyString)%string)
    /\ (after = EmptyString \/ exists a, after = String sep a).
Proof.
  intros sep l. induction l as [|x l IH]; intros r Hin; [contradiction|].
  destruct l as [|y l'].
  - destruct Hin as [->|[]]. exists EmptyString, EmptyString.
    cbn [join append]. rewrite string_app_nil_r. auto.
  - change (join sep (x :: y :: l')) with (x ++ String sep (join sep (y :: l')))%string.
    destruct Hin as [->|Hin].
    + exists EmptyString, (String sep (join sep (y :: l'))).
      split; [reflexivity|]. split; [left; reflexivity|right; eexists; reflexivity].
    + destruct (IH r Hin) as (before & after & Hj & Hb & Ha).
      exists (x ++ String sep before)%string, after.
      split; [|split; [right|exact Ha]].
      * rewrite Hj, string_app_assoc. reflexivity.
      * destruct Hb as [->|(b & ->)].
        -- exists x. reflexivity.
        -- exists (x ++ String sep b)%string. rewrite string_app_assoc. reflexivity.
Qed.

(** The pieces [strings.Split] gives are the stretches without a separator
    that the ends of the string or separators enclose. *)
Lemma In_Split_delimited : forall s sep r,
  In r (strings.Split s sep)
  <-> has_byte sep r = false
      /\ exists before after : string,
           s = (before ++ r ++ after)%string
           /\ (before = EmptyString
               \/ exists b, before = (b ++ String sep EmptyString)%string)
           /\ (after = EmptyString \/ exists a, after = String sep a).
Proof.
  intros s sep r. split.
  - intros Hin. split; [apply (Split_pieces s sep r Hin)|].
    pose proof (join_In sep (strings.Split s sep) r Hin) as H.
    rewrite Split_join in H. exact H.
  - intros (Hr & before & after & -> & Hb & Ha).
    assert (Hend : In r (strings.Split (r ++ after) sep)).
    { destruct Ha as [->|(a & ->)].
      - rewrite string_app_nil_r, (Split_no_sep r sep Hr). left. reflexivity.
      - rewrite (Split_app r sep a Hr). left. reflexivity. }
    destruct Hb as [->|(b & ->)]; [exact Hend|].
    rewrite string_app_assoc. cbn [append].
    rewrite Split_app_all. apply in_or_app. right. exact Hend.
Qed.

(** C10.  [HasScope] holds exactly when the scope of the claims is not
    empty and the required scope is one of the pieces of the scope between
    its spaces: it has no space, and it stands in the scope with, on each
    side, the end of the scope or a space.  These pieces are what
    [strings.Split] on the space returns, and on an empty scope [HasScope]
    is false. *)
Theorem HasScope_exact_match :
  forall (j : jwt.JWTManager) (claims : jwt.Claims) (requiredScope : string),
    (jwt.HasScope j claims requiredScope = true <->
       jwt.Scope claims <> EmptyString
       /\ has_byte " " requiredScope = false
       /\ exists before after : string,
            jwt.Scope claims = (before ++ requiredScope ++ after)%string
            /\ (before = EmptyString \/ exists b, before = (b ++ " ")%string)
            /\ (after = EmptyString \/ exists a, after = (" " ++ a)%string))
    /\ (jwt.HasScope j claims requiredScope = true <->
          jwt.Scope claims <> EmptyString
          /\ In requiredScope (strings.Split (jwt.Scope claims) " "))
    /\ jwt.HasScope j (jwt.mkClaims (jwt.UserID claims) (jwt.Email claims) EmptyString)
         requiredScope = false.
Proof.
  intros j claims requiredScope.
  assert (H : jwt.HasScope j claims requiredScope = true <->
              jwt.Scope claims <> EmptyString
              /\ In requiredScope (strings.Split (jwt.Scope claims) " ")).
  { unfold jwt.HasScope.
    destruct (String.eqb (jwt.Scope claims) EmptyString) eqn:E.
    - apply String.eqb_eq in E. split; [discriminate|]. intros [H _]; contradiction.
    - apply String.eqb_neq in E. rewrite contains_In. tauto. }
  split; [|split; [exact H|reflexivity]].
  rewrite H, (In_Split_delimited (jwt.Scope claims) " " requiredScope). reflexivity.
Qed.

(** C5.  [ValidateJWS] fails with the format error when the input does not
    split on the dot into three segments; on three segments it fails with
    the signature error when the third differs from the signature computed
    over the first two, whatever the payload segment holds, and it goes on to
    decode the payload only when they agree. *)
Theorem ValidateJWS_format_then_signature :
  forall (j : jwt.JWTManager) (now : time.Time) (jws : string),
    (List.length (strings.Split jws ".") <> 3%nat ->
       jwt.ValidateJWS j now jws = Err (Errorf "invalid JWS format"))
    /\ (forall headerB64 payloadB64 signatureB64,
          strings.Split jws "." = [headerB64; payloadB64; signatureB64] ->
          (signatureB64 <> jwt.sign j (headerB64 ++ "." ++ payloadB64) ->
             jwt.ValidateJWS j now jws = Err (Errorf "invalid signature"))
          /\ (signatureB64 = jwt.sign j (headerB64 ++ "." ++ payloadB64) ->
                jwt.ValidateJWS j now jws = jwt.validate_payload now payloadB64)).
Proof.
  intros j now jws. unfold jwt.ValidateJWS. split.
  - intros H. destruct (strings.Split jws ".") as [|a [|b [|c [|d l]]]]; try reflexivity.
    exfalso; apply H; reflexivity.
  - intros h p s ->. split; intros H.
    + apply String.eqb_neq in H. rewrite H. reflexivity.
    + apply String.eqb_eq in H. rewrite H. reflexivity.
Qed.

(** ** Bytes and base64 *)

Lemma byte_val_range : forall c, 0 <= byte_val c < 256.
Proof.
  intros c. unfold byte_val.
  assert (H := N_ascii_bounded c). lia.
Qed.

Lemma byte_chr_val : forall c, byte_chr (byte_val c) = c.
Proof.
  intros c. unfold byte_chr, byte_val.
  rewrite Z.mod_small by (pose proof (N_ascii_bounded c); lia).
  rewrite N2Z.id. apply ascii_N_embedding.
Qed.

Lemma byte_val_chr : forall z, 0 <= z < 256 -> byte_val (byte_chr z) = z.
Proof.
  intros z Hz. unfold byte_chr, byte_val.
  rewrite Z.mod_small by lia.
  rewrite N_ascii_embedding by lia. lia.
Qed.

Lemma string_of_bytes_of_string : forall s, string_of_bytes (bytes_of_string s) = s.
Proof.
  induction s as [|c s IH]; simpl; [reflexivity|].
  rewrite byte_chr_val, IH. reflexivity.
Qed.

Lemma string_of_bytes_app : forall l1 l2,
  string_of_bytes (l1 ++ l2) = (string_of_bytes l1 ++ string_of_bytes l2)%string.
Proof.
  induction l1 as [|b l1 IH]; intros l2; simpl; [reflexivity|].
  rewrite IH. reflexivity.
Qed.

(** Induction on a string three bytes at a time. *)
Lemma string_ind3 : forall P : string -> Prop,
  P EmptyString ->
  (forall a, P (String a EmptyString)) ->
  (forall a b, P (String a (String b EmptyString))) ->
  (forall a b c s, P s -> P (String a (String b (String c s)))) ->
  forall s, P s.
Proof.
  intros P H0 H1 H2 H3.
  assert (H : forall s, P s /\ (forall a, P (String a s)) /\ (forall a b, P (String a (String b s)))).
  { induction s as [|c s (IH0 & IH1 & IH2)].
    - auto.
    - repeat split; auto. }
  intros s. apply H.
Qed.

(** Bits as arithmetic. *)
Lemma land_shifted_low : forall x y k, 0 <= k -> 0 <= y < 2 ^ k ->
  Z.land (x * 2 ^ k) y = 0.
Proof.
  intros x y k Hk Hy.
  apply Z.bits_inj'; intros n Hn. rewrite Z.land_spec, Z.bits_0.
  destruct (Z.lt_ge_cases n k) as [Hlt|Hge].
  - rewrite Z.mul_pow2_bits_low by lia. reflexivity.
  - destruct (Z.eq_dec y 0) as [->|Hy0].
    + rewrite Z.bits_0. apply andb_false_r.
    + rewrite (Z.bits_above_log2 y n), andb_false_r; [reflexivity|lia|].
      apply Z.lt_le_trans with k; [apply Z.log2_lt_pow2; lia|lia].
Qed.

Lemma lor_add : forall x y k, 0 <= k -> 0 <= y < 2 ^ k ->
  Z.lor (x * 2 ^ k) y = x * 2 ^ k + y.
Proof.
  intros x y k Hk Hy.
  rewrite Z.add_nocarry_lxor by (apply land_shifted_low; assumption).
  rewrite Z.lxor_lor by (apply land_shifted_low; assumption).
  reflexivity.
Qed.

Lemma sextet_in_alphabet : forall n : nat, (n < 64)%nat ->
  base64.decodeMap (base64.encode_sextet (Z.of_nat n)) = Some (Z.of_nat n)
  /\ Ascii.eqb (base64.encode_sextet (Z.of_nat n)) "." = false.
Proof.
  intros n Hn.
  do 64 (destruct n as [|n]; [split; vm_compute; reflexivity|]).
  lia.
Qed.

Lemma land_63 : forall v, Z.land v 63 = v mod 64.
Proof. intros v. apply (Z.land_ones v 6). lia. Qed.

Lemma land_255 : forall v, Z.land v 255 = v mod 256.
Proof. intros v. apply (Z.land_ones v 8). lia. Qed.

Lemma encode_sextet_mod : forall v,
  base64.encode_sextet v = base64.encode_sextet (v mod 64).
Proof.
  intros v. unfold base64.encode_sextet. rewrite !land_63, Z.mod_mod by lia. reflexivity.
Qed.

Lemma decodeMap_encode : forall v,
  base64.decodeMap (base64.encode_sextet v) = Some (v mod 64).
Proof.
  intros v. rewrite encode_sextet_mod.
  assert (H := Z.mod_pos_bound v 64 ltac:(lia)).
  rewrite <- (Z2Nat.id (v mod 64)) by lia.
  apply sextet_in_alphabet. lia.
Qed.

Lemma encode_sextet_not_dot : forall v,
  Ascii.eqb (base64.encode_sextet v) "." = false.
Proof.
  intros v. rewrite encode_sextet_mod.
  assert (H := Z.mod_pos_bound v 64 ltac:(lia)).
  rewrite <- (Z2Nat.id (v mod 64)) by lia.
  apply sextet_in_alphabet. lia.
Qed.

Lemma EncodeToString_no_dot : forall s,
  has_byte "." (base64.RawURLEncoding.EncodeToString s) = false.
Proof.
  induction s as [| a | a b | a b c s IH] using string_ind3;
    cbn [base64.RawURLEncoding.EncodeToString has_byte];
    rewrite ?encode_sextet_not_dot; auto.
Qed.

Lemma lor_add_mul : forall z x y k, z = x * 2 ^ k -> 0 <= k -> 0 <= y < 2 ^ k ->
  Z.lor z y = z + y.
Proof. intros z x y k -> Hk Hy. apply lor_add; assumption. Qed.

(** The four sextets of three bytes, and the bytes back. *)
Lemma sextets_sum : forall v, 0 <= v < 16777216 ->
  v / 262144 mod 64 * 262144 + v / 4096 mod 64 * 4096 + v / 64 mod 64 * 64 + v mod 64 = v.
Proof.
  intros v Hv.
  replace (v / 262144) with (v / 64 / 64 / 64) by (rewrite !Z.div_div by lia; reflexivity).
  replace (v / 4096) with (v / 64 / 64) by (rewrite !Z.div_div by lia; reflexivity).
  pose proof (Z.div_mod v 64 ltac:(lia)) as E1.
  pose proof (Z.mod_pos_bound v 64 ltac:(lia)) as B1.
  set (q1 := v / 64) in *.
  pose proof (Z.div_mod q1 64 ltac:(lia)) as E2.
  pose proof (Z.mod_pos_bound q1 64 ltac:(lia)) as B2.
  set (q2 := q1 / 64) in *.
  pose proof (Z.div_mod q2 64 ltac:(lia)) as E3.
  pose proof (Z.mod_pos_bound q2 64 ltac:(lia)) as B3.
  set (q3 := q2 / 64) in *.
  rewrite (Z.mod_small q3 64) by lia.
  lia.
Qed.

Lemma bytes_of_triple : forall a b c : Z,
  0 <= a < 256 -> 0 <= b < 256 -> 0 <= c < 256 ->
  let v := a * 65536 + b * 256 + c in
  (v / 65536) mod 256 = a /\ (v / 256) mod 256 = b /\ v mod 256 = c.
Proof.
  intros a b c Ha Hb Hc v.
  assert (E1 : v / 65536 = a) by (symmetry; apply Z.div_unique with (b * 256 + c); unfold v; lia).
  assert (E2 : v / 256 = a * 256 + b) by (symmetry; apply Z.div_unique with c; unfold v; lia).
  rewrite E1, E2. repeat split.
  - apply Z.mod_small; lia.
  - symmetry. apply Z.mod_unique with a; lia.
  - symmetry. apply Z.mod_unique with (a * 256 + b); unfold v; lia.
Qed.

Lemma quantum_value : forall v, 0 <= v < 16777216 ->
  Z.lor (Z.lor (Z.lor (Z.shiftl (Z.shiftr v 18 mod 64) 18) (Z.shiftl (Z.shiftr v 12 mod 64) 12))
           (Z.shiftl (Z.shiftr v 6 mod 64) 6)) (v mod 64) = v.
Proof.
  intros v Hv.
  rewrite !Z.shiftr_div_pow2, !Z.shiftl_mul_pow2 by lia.
  change (2 ^ 18) with 262144. change (2 ^ 12) with 4096. change (2 ^ 6) with 64.
  pose proof (sextets_sum v Hv) as Hre.
  set (s0 := v / 262144 mod 64) in *. set (s1 := v / 4096 mod 64) in *.
  set (s2 := v / 64 mod 64) in *. set (s3 := v mod 64) in *.
  assert (H0 : 0 <= s0 < 64) by (apply Z.mod_pos_bound; lia).
  assert (H1 : 0 <= s1 < 64) by (apply Z.mod_pos_bound; lia).
  assert (H2 : 0 <= s2 < 64) by (apply Z.mod_pos_bound; lia).
  assert (H3 : 0 <= s3 < 64) by (apply Z.mod_pos_bound; lia).
  rewrite (lor_add_mul _ s0 (s1 * 4096) 18) by lia.
  rewrite (lor_add_mul _ (s0 * 64 + s1) (s2 * 64) 12) by lia.
  rewrite (lor_add_mul _ ((s0 * 64 + s1) * 64 + s2) s3 6) by lia.
  exact Hre.
Qed.

Lemma triple_value : forall a b c : Z,
  0 <= a < 256 -> 0 <= b < 256 -> 0 <= c < 256 ->
  Z.lor (Z.lor (Z.shiftl a 16) (Z.shiftl b 8)) c = a * 65536 + b * 256 + c.
Proof.
  intros a b c Ha Hb Hc.
  rewrite !Z.shiftl_mul_pow2 by lia.
  rewrite (lor_add_mul _ a (b * 2 ^ 8) 16) by lia.
  rewrite (lor_add_mul _ (a * 2 ^ 8 + b) c 8) by lia. lia.
Qed.

Lemma quantum_bytes4 : forall a b c : Z,
  0 <= a < 256 -> 0 <= b < 256 -> 0 <= c < 256 ->
  let val := Z.lor (Z.lor (Z.shiftl a 16) (Z.shiftl b 8)) c in
  base64.quantum_bytes
    [Z.shiftr val 18 mod 64; Z.shiftr val 12 mod 64; Z.shiftr val 6 mod 64; val mod 64]
  = [a; b; c].
Proof.
  intros a b c Ha Hb Hc val. unfold val. rewrite triple_value by assumption.
  cbv beta iota zeta delta [base64.quantum_bytes List.length Nat.sub firstn nth].
  rewrite quantum_value by lia.
  rewrite !Z.shiftr_div_pow2, !land_255 by lia.
  destruct (bytes_of_triple a b c Ha Hb Hc) as (E1 & E2 & E3).
  change (2 ^ 16) with 65536. change (2 ^ 8) with 256.
  rewrite E1, E2, E3. reflexivity.
Qed.

Lemma quantum_bytes3 : forall a b : Z,
  0 <= a < 256 -> 0 <= b < 256 ->
  let val := Z.lor (Z.shiftl a 16) (Z.shiftl b 8) in
  base64.quantum_bytes [Z.shiftr val 18 mod 64; Z.shiftr val 12 mod 64; Z.shiftr val 6 mod 64]
  = [a; b].
Proof.
  intros a b Ha Hb val.
  assert (Hval : val = a * 65536 + b * 256 + 0).
  { rewrite <- triple_value by lia. unfold val. rewrite Z.lor_0_r. reflexivity. }
  clearbody val. subst val.
  cbv beta iota zeta delta [base64.quantum_bytes List.length Nat.sub firstn nth].
  set (v := a * 65536 + b * 256 + 0).
  assert (Hv : 0 <= v < 16777216) by (unfold v; lia).
  assert (H3 : v mod 64 = 0).
  { unfold v. replace (a * 65536 + b * 256 + 0) with ((a * 1024 + b * 4) * 64) by lia.
    apply Z.mod_mul. lia. }
  pose proof (quantum_value v Hv) as Hq. rewrite H3 in Hq. rewrite Hq.
  rewrite !Z.shiftr_div_pow2, !land_255 by lia.
  destruct (bytes_of_triple a b 0 Ha Hb ltac:(lia)) as (E1 & E2 & E3).
  change (2 ^ 16) with 65536. change (2 ^ 8) with 256.
  fold v in E1, E2. rewrite E1, E2. reflexivity.
Qed.

Lemma quantum_bytes2 : forall a : Z,
  0 <= a < 256 ->
  let val := Z.shiftl a 16 in
  base64.quantum_bytes [Z.shiftr val 18 mod 64; Z.shiftr val 12 mod 64] = [a].
Proof.
  intros a Ha val.
  assert (Hval : val = a * 65536 + 0 * 256 + 0).
  { rewrite <- triple_value by lia. unfold val.
    rewrite Z.shiftl_0_l, !Z.lor_0_r. reflexivity. }
  clearbody val. subst val.
  cbv beta iota zeta delta [base64.quantum_bytes List.length Nat.sub firstn nth].
  set (v := a * 65536 + 0 * 256 + 0).
  assert (Hv : 0 <= v < 16777216) by (unfold v; lia).
  assert (H3 : v mod 64 = 0).
  { unfold v. replace (a * 65536 + 0 * 256 + 0) with ((a * 1024) * 64) by lia.
    apply Z.mod_mul. lia. }
  assert (H2 : Z.shiftr v 6 mod 64 = 0).
  { rewrite Z.shiftr_div_pow2 by lia. change (2 ^ 6) with 64.
    unfold v. replace (a * 65536 + 0 * 256 + 0) with ((a * 16 * 64) * 64) by lia.
    rewrite Z.div_mul by lia. apply Z.mod_mul. lia. }
  pose proof (quantum_value v Hv) as Hq. rewrite H3, H2 in Hq.
  rewrite Hq.
  rewrite !Z.shiftr_div_pow2, !land_255 by lia.
  destruct (bytes_of_triple a 0 0 Ha ltac:(lia) ltac:(lia)) as (E1 & E2 & E3).
  change (2 ^ 16) with 65536.
  fold v in E1. rewrite E1. reflexivity.
Qed.

Lemma decode_char : forall dst dbuf si v rest,
  base64.RawURLEncoding.decode dst dbuf si (String (base64.encode_sextet v) rest)
  = if (List.length (dbuf ++ [(v mod 64)%Z]) =? 4)%nat
    then base64.RawURLEncoding.decode (dst ++ base64.quantum_bytes (dbuf ++ [v mod 64])) []
           (S si) rest
    else base64.RawURLEncoding.decode dst (dbuf ++ [v mod 64]) (S si) rest.
Proof.
  intros. cbn [base64.RawURLEncoding.decode]. rewrite decodeMap_encode. reflexivity.
Qed.

Lemma decode_encode : forall s dst si,
  base64.RawURLEncoding.decode dst [] si (base64.RawURLEncoding.EncodeToString s)
  = Ok (string_of_bytes (dst ++ bytes_of_string s)).
Proof.
  induction s as [| a | a b | a b c s IH] using string_ind3; intros dst si;
    cbn [base64.RawURLEncoding.EncodeToString bytes_of_string].
  - cbn [base64.RawURLEncoding.decode]. rewrite app_nil_r. reflexivity.
  - rewrite !decode_char. cbn [app List.length Nat.eqb base64.RawURLEncoding.decode].
    rewrite quantum_bytes2 by apply byte_val_range. reflexivity.
  - rewrite !decode_char. cbn [app List.length Nat.eqb base64.RawURLEncoding.decode].
    rewrite quantum_bytes3 by apply byte_val_range. reflexivity.
  - rewrite !decode_char. cbn [app List.length Nat.eqb].
    rewrite quantum_bytes4 by apply byte_val_range.
    rewrite IH. rewrite <- app_assoc. reflexivity.
Qed.

Lemma DecodeString_EncodeToString : forall s,
  base64.RawURLEncoding.DecodeString (base64.RawURLEncoding.EncodeToString s) = Ok s.
Proof.
  intros s. unfold base64.RawURLEncoding.DecodeString.
  rewrite decode_encode. cbn [app]. rewrite string_of_bytes_of_string. reflexivity.
Qed.

(** ** Numbers *)

Lemma append_assoc : forall a b c : string, ((a ++ b) ++ c = a ++ (b ++ c))%string.
Proof. induction a as [|x a IH]; intros; simpl; [|rewrite IH]; reflexivity. Qed.

Lemma append_nil_r : forall a : string, (a ++ EmptyString)%string = a.
Proof. induction a as [|x a IH]; simpl; [|rewrite IH]; reflexivity. Qed.

Lemma lex_app : forall a b st,
  json.lex st (a ++ b)
  = match lex_run st a with
    | Some (toks, st') =>
        match json.lex st' b with
        | Some toks' => Some (toks ++ toks')
        | None => None
        end
    | None => None
    end.
Proof.
  induction a as [|c a IH]; intros b st.
  - cbn [append lex_run]. destruct (json.lex st b); reflexivity.
  - cbn [append lex_run json.lex].
    destruct (json.lex_step st c) as [[toks st']|]; [|reflexivity].
    rewrite IH. destruct (lex_run st' a) as [[toks' st'']|]; [|reflexivity].
    destruct (json.lex st'' b); [|reflexivity].
    rewrite app_assoc. reflexivity.
Qed.

Lemma lex_run_app : forall a b st,
  lex_run st (a ++ b)
  = match lex_run st a with
    | Some (toks, st') =>
        match lex_run st' b with
        | Some (toks', st'') => Some (toks ++ toks', st'')
        | None => None
        end
    | None => None
    end.
Proof.
  induction a as [|c a IH]; intros b st.
  - cbn [append lex_run]. destruct (lex_run st b) as [[? ?]|]; reflexivity.
  - cbn [append lex_run].
    destruct (json.lex_step st c) as [[toks st']|]; [|reflexivity].
    rewrite IH. destruct (lex_run st' a) as [[toks' st'']|]; [|reflexivity].
    destruct (lex_run st'' b) as [[? ?]|]; [|reflexivity].
    rewrite app_assoc. reflexivity.
Qed.

Lemma isDigit_range : forall b, json.isDigit b = true <-> 48 <= b <= 57.
Proof. intros b. unfold json.isDigit. rewrite andb_true_iff, !Z.leb_le. tauto. Qed.

Lemma byte_val_digit : forall d, 0 <= d < 10 -> byte_val (strconv.digit d) = 48 + d.
Proof. intros d Hd. unfold strconv.digit. apply byte_val_chr. lia. Qed.

Lemma lex_run_digits : forall s acc,
  all_digits s = true ->
  lex_run (json.LNumber json.state1 acc) s
  = Some ([], json.LNumber json.state1 (acc ++ s)%string).
Proof.
  induction s as [|c s IH]; intros acc H.
  - cbn [lex_run]. rewrite append_nil_r. reflexivity.
  - cbn [all_digits] in H. apply andb_true_iff in H as [Hc Hs].
    cbn [lex_run json.lex_step json.num_step]. rewrite Hc.
    rewrite IH by assumption. unfold json.push, str1.
    rewrite append_assoc. reflexivity.
Qed.

Lemma lex_begin_digit : forall c,
  49 <= byte_val c <= 57 ->
  json.lex_begin c = Some ([], json.LNumber json.state1 (str1 c)).
Proof.
  intros c H. unfold json.lex_begin, json.isSpace, json.isDigit.
  ztest. reflexivity.
Qed.

Lemma digits_acc : forall f n acc,
  strconv.digits f n acc = (strconv.digits f n EmptyString ++ acc)%string.
Proof.
  induction f as [|f IH]; intros n acc; cbn [strconv.digits]; [reflexivity|].
  destruct (n <? 10); [reflexivity|].
  rewrite IH. rewrite (IH _ (String _ EmptyString)).
  rewrite append_assoc. reflexivity.
Qed.

Lemma all_digits_digits : forall f n acc,
  0 <= n -> all_digits acc = true -> all_digits (strconv.digits f n acc) = true.
Proof.
  induction f as [|f IH]; intros n acc Hn Hacc; cbn [strconv.digits]; [assumption|].
  assert (Hd : all_digits (String (strconv.digit (n mod 10)) acc) = true).
  { cbn [all_digits]. rewrite Hacc, andb_true_r. apply isDigit_range.
    pose proof (Z.mod_pos_bound n 10 ltac:(lia)).
    rewrite byte_val_digit by lia. lia. }
  destruct (n <? 10); [assumption|].
  apply IH; [|assumption]. apply Z.div_pos; lia.
Qed.

Lemma lex_run_number : forall f n acc,
  0 < n < 10 ^ Z.of_nat f -> all_digits acc = true ->
  lex_run json.LBegin (strconv.digits f n acc)
  = Some ([], json.LNumber json.state1 (strconv.digits f n acc)).
Proof.
  induction f as [|f IH]; intros n acc Hn Hacc.
  - simpl in Hn. lia.
  - cbn [strconv.digits].
    pose proof (Z.mod_pos_bound n 10 ltac:(lia)) as Hm.
    destruct (Z.ltb_spec n 10) as [Hlt|Hge].
    + rewrite Z.mod_small by lia.
      cbn [lex_run json.lex_step].
      rewrite lex_begin_digit by (rewrite byte_val_digit; lia).
      rewrite lex_run_digits by assumption. reflexivity.
    + apply IH.
      * split; [apply Z.div_str_pos; lia|].
        apply Z.div_lt_upper_bound; [lia|].
        rewrite Nat2Z.inj_succ, Z.pow_succ_r in Hn by lia. lia.
      * cbn [all_digits]. rewrite Hacc, andb_true_r. apply isDigit_range.
        rewrite byte_val_digit by lia. lia.
Qed.

Lemma dec_value_app : forall a b m, dec_value m (a ++ b) = dec_value (dec_value m a) b.
Proof. induction a as [|c a IH]; intros; cbn [append dec_value]; [|rewrite IH]; reflexivity. Qed.

Lemma dec_value_digits : forall f n,
  0 <= n < 10 ^ Z.of_nat f ->
  dec_value 0 (strconv.digits f n EmptyString) = n.
Proof.
  induction f as [|f IH]; intros n Hn.
  - simpl in Hn. cbn [strconv.digits dec_value]. lia.
  - cbn [strconv.digits].
    pose proof (Z.mod_pos_bound n 10 ltac:(lia)) as Hm.
    destruct (Z.ltb_spec n 10) as [Hlt|Hge].
    + cbn [dec_value]. rewrite byte_val_digit by lia. rewrite Z.mod_small by lia. lia.
    + rewrite digits_acc, dec_value_app.
      rewrite IH.
      * cbn [dec_value]. rewrite byte_val_digit by lia.
        pose proof (Z.div_mod n 10 ltac:(lia)). lia.
      * split; [apply Z.div_pos; lia|].
        apply Z.div_lt_upper_bound; [lia|].
        rewrite Nat2Z.inj_succ, Z.pow_succ_r in Hn by lia. lia.
Qed.

Lemma readDecimal_digits : forall s neg m,
  all_digits s = true ->
  json.readDecimal json.DInt neg m 0 false 0 s = (neg, dec_value m s, 0).
Proof.
  induction s as [|c s IH]; intros neg m H.
  - reflexivity.
  - cbn [all_digits] in H. apply andb_true_iff in H as [Hc Hs].
    apply isDigit_range in Hc.
    cbn [json.readDecimal dec_value].
    replace (byte_val c =? 45) with false by (symmetry; apply Z.eqb_neq; lia).
    replace (byte_val c =? 43) with false by (symmetry; apply Z.eqb_neq; lia).
    replace (byte_val c =? 46) with false by (symmetry; apply Z.eqb_neq; lia).
    replace (byte_val c =? 101) with false by (symmetry; apply Z.eqb_neq; lia).
    replace (byte_val c =? 69) with false by (symmetry; apply Z.eqb_neq; lia).
    cbn [orb]. apply IH. assumption.
Qed.

(** An integer below 2^53 is read back from its decimal form as itself. *)
Lemma ParseFloat_FormatInt : forall n,
  0 <= n < 2 ^ 53 -> json.ParseFloat (strconv.FormatInt n) = Some (n # 1).
Proof.
  intros n Hn. unfold json.ParseFloat, strconv.FormatInt.
  replace (n <? 0) with false by (symmetry; apply Z.ltb_ge; lia).
  rewrite readDecimal_digits by (apply all_digits_digits; [lia|reflexivity]).
  rewrite dec_value_digits by (change (10 ^ Z.of_nat 20) with 100000000000000000000; lia).
  destruct (Z.eqb_spec n 0) as [->|Hn0]; [reflexivity|].
  cbn [Z.leb Z.compare Z.sub Z.opp Z.add]. 
  unfold json.nearest_float64.
  change (10 ^ 0) with 1. rewrite Z.mul_1_r.
  replace (n <? 2 ^ 53) with true by (symmetry; apply Z.ltb_lt; lia).
  reflexivity.
Qed.

Lemma int64_of_integer : forall n,
  - 2 ^ 63 <= n < 2 ^ 63 -> time.int64_of_float64 (n # 1) = n.
Proof.
  intros n Hn. unfold time.int64_of_float64. cbn [Qnum Qden].
  rewrite Z.quot_1_r.
  replace (- 2 ^ 63 <=? n) with true by (symmetry; apply Z.leb_le; lia).
  replace (n <? 2 ^ 63) with true by (symmetry; apply Z.ltb_lt; lia).
  reflexivity.
Qed.

(** The scanner on the decimal form of a natural number followed by a
    comma or a closing brace. *)
Lemma lex_run_FormatInt : forall n,
  0 <= n < 2 ^ 63 ->
  exists st,
    lex_run json.LBegin (strconv.FormatInt n)
    = Some ([], json.LNumber st (strconv.FormatInt n))
    /\ (st = json.state0 \/ st = json.state1).
Proof.
  intros n Hn. unfold strconv.FormatInt.
  replace (n <? 0) with false by (symmetry; apply Z.ltb_ge; lia).
  destruct (Z.eq_dec n 0) as [->|Hn0].
  - exists json.state0. split; [reflexivity|left; reflexivity].
  - exists json.state1. split; [|right; reflexivity].
    apply lex_run_number; [|reflexivity].
    change (10 ^ Z.of_nat 20) with 100000000000000000000. lia.
Qed.

(** ** UTF-8 *)

Lemma between_spec : forall lo b hi, utf8.between lo b hi = true <-> lo <= b <= hi.
Proof. intros. unfold utf8.between. rewrite andb_true_iff, !Z.leb_le. tauto. Qed.

Lemma between_false : forall lo b hi, utf8.between lo b hi = false <-> (b < lo \/ hi < b).
Proof.
  intros. unfold utf8.between. rewrite andb_false_iff, !Z.leb_gt. tauto.
Qed.

Lemma string_of_bytes2 : forall c0 c1 x0 x1,
  x0 = byte_val c0 -> x1 = byte_val c1 ->
  string_of_bytes [x0; x1] = String c0 (String c1 EmptyString).
Proof. intros; subst. cbn [string_of_bytes]. rewrite !byte_chr_val. reflexivity. Qed.

Lemma string_of_bytes3 : forall c0 c1 c2 x0 x1 x2,
  x0 = byte_val c0 -> x1 = byte_val c1 -> x2 = byte_val c2 ->
  string_of_bytes [x0; x1; x2] = String c0 (String c1 (String c2 EmptyString)).
Proof. intros; subst. cbn [string_of_bytes]. rewrite !byte_chr_val. reflexivity. Qed.

Lemma string_of_bytes4 : forall c0 c1 c2 c3 x0 x1 x2 x3,
  x0 = byte_val c0 -> x1 = byte_val c1 -> x2 = byte_val c2 -> x3 = byte_val c3 ->
  string_of_bytes [x0; x1; x2; x3]
  = String c0 (String c1 (String c2 (String c3 EmptyString))).
Proof. intros; subst. cbn [string_of_bytes]. rewrite !byte_chr_val. reflexivity. Qed.

(** The runes of two, three and four bytes are written back as the bytes
    they were read from. *)
Lemma EncodeRune_2 : forall c0 c1,
  0xC2 <= byte_val c0 <= 0xDF -> 0x80 <= byte_val c1 <= 0xBF ->
  utf8.EncodeRune ((byte_val c0 - 0xC0) * 64 + (byte_val c1 - 0x80))
  = String c0 (String c1 EmptyString).
Proof.
  intros c0 c1 H0 H1. set (r := (byte_val c0 - 0xC0) * 64 + (byte_val c1 - 0x80)).
  assert (Hr : 0x80 <= r < 0x800) by (unfold r; lia).
  unfold utf8.EncodeRune, utf8.surrogate, utf8.MaxRune, utf8.RuneError.
  replace (r <? 0) with false by (symmetry; apply Z.ltb_ge; lia).
  replace (1114111 <? r) with false by (symmetry; apply Z.ltb_ge; lia).
  replace (utf8.between 55296 r 57343) with false by (symmetry; apply between_false; lia).
  cbn [orb].
  replace (r <? 128) with false by (symmetry; apply Z.ltb_ge; lia).
  replace (r <? 2048) with true by (symmetry; apply Z.ltb_lt; lia).
  apply string_of_bytes2; unfold r.
  - assert (E : ((byte_val c0 - 192) * 64 + (byte_val c1 - 128)) / 64 = byte_val c0 - 192)
      by (symmetry; apply Z.div_unique with (byte_val c1 - 128); lia).
    rewrite E. lia.
  - assert (E : ((byte_val c0 - 192) * 64 + (byte_val c1 - 128)) mod 64 = byte_val c1 - 128)
      by (symmetry; apply Z.mod_unique with (byte_val c0 - 192); lia).
    rewrite E. lia.
Qed.

Lemma divmod64 : forall x y, 0 <= y < 64 -> (x * 64 + y) / 64 = x /\ (x * 64 + y) mod 64 = y.
Proof.
  intros x y Hy. split.
  - symmetry; apply Z.div_unique with y; lia.
  - symmetry; apply Z.mod_unique with x; lia.
Qed.

Lemma EncodeRune_3 : forall c0 c1 c2,
  0xE0 <= byte_val c0 <= 0xEF ->
  (if byte_val c0 =? 0xE0 then 0xA0 else 0x80) <= byte_val c1
    <= (if byte_val c0 =? 0xED then 0x9F else 0xBF) ->
  0x80 <= byte_val c2 <= 0xBF ->
  utf8.EncodeRune (((byte_val c0 - 0xE0) * 64 + (byte_val c1 - 0x80)) * 64 + (byte_val c2 - 0x80))
  = String c0 (String c1 (String c2 EmptyString)).
Proof.
  intros c0 c1 c2 H0 H1 H2.
  set (x0 := byte_val c0 - 0xE0) in *. set (x1 := byte_val c1 - 0x80) in *.
  set (x2 := byte_val c2 - 0x80) in *.
  assert (B1 : 0 <= x1 < 64).
  { unfold x1. destruct (byte_val c0 =? 224), (byte_val c0 =? 237); lia. }
  assert (B2 : 0 <= x2 < 64) by (unfold x2; lia).
  assert (B0 : 0 <= x0 < 16) by (unfold x0; lia).
  assert (Hlo : x0 = 0 -> 32 <= x1).
  { intros E. unfold x0 in E. replace (byte_val c0 =? 224) with true in H1
      by (symmetry; apply Z.eqb_eq; lia). unfold x1. lia. }
  assert (Hhi : x0 = 13 -> x1 < 32).
  { intros E. unfold x0 in E. replace (byte_val c0 =? 237) with true in H1
      by (symmetry; apply Z.eqb_eq; lia).
    replace (byte_val c0 =? 224) with false in H1 by (symmetry; apply Z.eqb_neq; lia).
    unfold x1. lia. }
  set (r := (x0 * 64 + x1) * 64 + x2).
  assert (Hr : 0x800 <= r < 0x10000) by (unfold r; lia).
  assert (Hs : r < 0xD800 \/ 0xDFFF < r) by (unfold r; lia).
  unfold utf8.EncodeRune, utf8.surrogate, utf8.MaxRune, utf8.RuneError.
  replace (r <? 0) with false by (symmetry; apply Z.ltb_ge; lia).
  replace (1114111 <? r) with false by (symmetry; apply Z.ltb_ge; lia).
  replace (utf8.between 55296 r 57343) with false by (symmetry; apply between_false; lia).
  cbn [orb].
  replace (r <? 128) with false by (symmetry; apply Z.ltb_ge; lia).
  replace (r <? 2048) with false by (symmetry; apply Z.ltb_ge; lia).
  replace (r <? 65536) with true by (symmetry; apply Z.ltb_lt; lia).
  destruct (divmod64 (x0 * 64 + x1) x2 B2) as [D1 M1]. fold r in D1, M1.
  destruct (divmod64 x0 x1 B1) as [D2 M2].
  assert (D3 : r / 4096 = x0).
  { replace 4096 with (64 * 64) by reflexivity. rewrite <- Z.div_div by lia.
    rewrite D1. exact D2. }
  apply string_of_bytes3.
  - rewrite D3. unfold x0. lia.
  - rewrite D1, M2. unfold x1. lia.
  - rewrite M1. unfold x2. lia.
Qed.

Lemma EncodeRune_4 : forall c0 c1 c2 c3,
  0xF0 <= byte_val c0 <= 0xF4 ->
  (if byte_val c0 =? 0xF0 then 0x90 else 0x80) <= byte_val c1
    <= (if byte_val c0 =? 0xF4 then 0x8F else 0xBF) ->
  0x80 <= byte_val c2 <= 0xBF -> 0x80 <= byte_val c3 <= 0xBF ->
  utf8.EncodeRune
    ((((byte_val c0 - 0xF0) * 64 + (byte_val c1 - 0x80)) * 64 + (byte_val c2 - 0x80)) * 64
     + (byte_val c3 - 0x80))
  = String c0 (String c1 (String c2 (String c3 EmptyString))).
Proof.
  intros c0 c1 c2 c3 H0 H1 H2 H3.
  set (x0 := byte_val c0 - 0xF0) in *. set (x1 := byte_val c1 - 0x80) in *.
  set (x2 := byte_val c2 - 0x80) in *. set (x3 := byte_val c3 - 0x80) in *.
  assert (B1 : 0 <= x1 < 64).
  { unfold x1. destruct (byte_val c0 =? 240), (byte_val c0 =? 244); lia. }
  assert (B2 : 0 <= x2 < 64) by (unfold x2; lia).
  assert (B3 : 0 <= x3 < 64) by (unfold x3; lia).
  assert (B0 : 0 <= x0 < 5) by (unfold x0; lia).
  assert (Hlo : x0 = 0 -> 16 <= x1).
  { intros E. unfold x0 in E. replace (byte_val c0 =? 240) with true in H1
      by (symmetry; apply Z.eqb_eq; lia). unfold x1. lia. }
  assert (Hhi : x0 = 4 -> x1 < 16).
  { intros E. unfold x0 in E. replace (byte_val c0 =? 244) with true in H1
      by (symmetry; apply Z.eqb_eq; lia).
    replace (byte_val c0 =? 240) with false in H1 by (symmetry; apply Z.eqb_neq; lia).
    unfold x1. lia. }
  set (r := ((x0 * 64 + x1) * 64 + x2) * 64 + x3).
  assert (Hr : 0x10000 <= r <= 0x10FFFF) by (unfold r; lia).
  unfold utf8.EncodeRune, utf8.surrogate, utf8.MaxRune, utf8.RuneError.
  replace (r <? 0) with false by (symmetry; apply Z.ltb_ge; lia).
  replace (1114111 <? r) with false by (symmetry; apply Z.ltb_ge; lia).
  replace (utf8.between 55296 r 57343) with false by (symmetry; apply between_false; lia).
  cbn [orb].
  replace (r <? 128) with false by (symmetry; apply Z.ltb_ge; lia).
  replace (r <? 2048) with false by (symmetry; apply Z.ltb_ge; lia).
  replace (r <? 65536) with false by (symmetry; apply Z.ltb_ge; lia).
  destruct (divmod64 ((x0 * 64 + x1) * 64 + x2) x3 B3) as [D1 M1]. fold r in D1, M1.
  destruct (divmod64 (x0 * 64 + x1) x2 B2) as [D2 M2].
  destruct (divmod64 x0 x1 B1) as [D3 M3].
  assert (D4 : r / 4096 = x0 * 64 + x1).
  { replace 4096 with (64 * 64) by reflexivity. rewrite <- Z.div_div by lia.
    rewrite D1. exact D2. }
  assert (D5 : r / 262144 = x0).
  { replace 262144 with (4096 * 64) by reflexivity. rewrite <- Z.div_div by lia.
    rewrite D4. exact D3. }
  apply string_of_bytes4.
  - rewrite D5. unfold x0. lia.
  - rewrite D4, M3. unfold x1. lia.
  - rewrite D1, M2. unfold x2. lia.
  - rewrite M1. unfold x3. lia.
Qed.

Lemma DecodeRune_2 : forall c0 c1 t, lead2 c0 c1 ->
  utf8.DecodeRune (String c0 (String c1 t)) = (rune2 c0 c1, 2%nat).
Proof.
  intros c0 c1 t [H0 H1]. unfold utf8.DecodeRune, utf8.RuneSelf.
  replace (byte_val c0 <? 128) with false by (symmetry; apply Z.ltb_ge; lia).
  replace (utf8.between 194 (byte_val c0) 223) with true by (symmetry; apply between_spec; lia).
  replace (utf8.between 128 (byte_val c1) 191) with true by (symmetry; apply between_spec; lia).
  reflexivity.
Qed.

Lemma DecodeRune_3 : forall c0 c1 c2 t, lead3 c0 c1 c2 ->
  utf8.DecodeRune (String c0 (String c1 (String c2 t))) = (rune3 c0 c1 c2, 3%nat).
Proof.
  intros c0 c1 c2 t (H0 & H1 & H2). unfold utf8.DecodeRune, utf8.RuneSelf.
  replace (byte_val c0 <? 128) with false by (symmetry; apply Z.ltb_ge; lia).
  replace (utf8.between 194 (byte_val c0) 223) with false by (symmetry; apply between_false; lia).
  replace (utf8.between 224 (byte_val c0) 239) with true by (symmetry; apply between_spec; lia).
  cbv zeta.
  replace (utf8.between _ (byte_val c1) _) with true by (symmetry; apply between_spec; exact H1).
  replace (utf8.between 128 (byte_val c2) 191) with true by (symmetry; apply between_spec; lia).
  reflexivity.
Qed.

Lemma DecodeRune_4 : forall c0 c1 c2 c3 t, lead4 c0 c1 c2 c3 ->
  utf8.DecodeRune (String c0 (String c1 (String c2 (String c3 t))))
  = (rune4 c0 c1 c2 c3, 4%nat).
Proof.
  intros c0 c1 c2 c3 t (H0 & H1 & H2 & H3). unfold utf8.DecodeRune, utf8.RuneSelf.
  replace (byte_val c0 <? 128) with false by (symmetry; apply Z.ltb_ge; lia).
  replace (utf8.between 194 (byte_val c0) 223) with false by (symmetry; apply between_false; lia).
  replace (utf8.between 224 (byte_val c0) 239) with false by (symmetry; apply between_false; lia).
  replace (utf8.between 240 (byte_val c0) 244) with true by (symmetry; apply between_spec; lia).
  cbv zeta.
  replace (utf8.between _ (byte_val c1) _) with true by (symmetry; apply between_spec; exact H1).
  replace (utf8.between 128 (byte_val c2) 191) with true by (symmetry; apply between_spec; lia).
  replace (utf8.between 128 (byte_val c3) 191) with true by (symmetry; apply between_spec; lia).
  reflexivity.
Qed.

Lemma DecodeRune_cases : forall c0 r0,
  0x80 <= byte_val c0 -> decoded (String c0 r0).
Proof.
  intros c0 r0 H0.
  destruct (utf8.between 0xC2 (byte_val c0) 0xDF) eqn:E2.
  { apply between_spec in E2.
    destruct r0 as [|c1 t].
    - apply dec_bad. unfold utf8.DecodeRune, utf8.RuneSelf.
      replace (byte_val c0 <? 128) with false by (symmetry; apply Z.ltb_ge; lia).
      replace (utf8.between 194 (byte_val c0) 223) with true by (symmetry; apply between_spec; lia).
      reflexivity.
    - destruct (utf8.between 0x80 (byte_val c1) 0xBF) eqn:E.
      + apply between_spec in E. apply dec_2. split; assumption.
      + apply dec_bad. unfold utf8.DecodeRune, utf8.RuneSelf.
        replace (byte_val c0 <? 128) with false by (symmetry; apply Z.ltb_ge; lia).
        replace (utf8.between 194 (byte_val c0) 223) with true
          by (symmetry; apply between_spec; lia).
        cbv zeta. rewrite E. reflexivity. }
  apply between_false in E2.
  destruct (utf8.between 0xE0 (byte_val c0) 0xEF) eqn:E3.
  { apply between_spec in E3.
    assert (Hpre : forall X Y : Z * nat,
      (if byte_val c0 <? utf8.RuneSelf then X
       else if utf8.between 194 (byte_val c0) 223 then Y
       else if utf8.between 224 (byte_val c0) 239 then
         match r0 with
         | String c1 (String c2 _) =>
             let b1 := byte_val c1 in
             let b2 := byte_val c2 in
             let lo := if byte_val c0 =? 224 then 160 else 128 in
             let hi := if byte_val c0 =? 237 then 159 else 191 in
             if utf8.between lo b1 hi && utf8.between 128 b2 191
             then (((byte_val c0 - 224) * 64 + (b1 - 128)) * 64 + (b2 - 128), 3%nat)
             else (utf8.RuneError, 1%nat)
         | _ => (utf8.RuneError, 1%nat)
         end
       else X) = (utf8.RuneError, 1%nat) -> decoded (String c0 r0)).
    { intros X Y H. apply dec_bad. unfold utf8.DecodeRune.
      unfold utf8.RuneSelf in *.
      replace (byte_val c0 <? 128) with false in * by (symmetry; apply Z.ltb_ge; lia).
      replace (utf8.between 194 (byte_val c0) 223) with false in *
        by (symmetry; apply between_false; lia).
      replace (utf8.between 224 (byte_val c0) 239) with true in *
        by (symmetry; apply between_spec; lia).
      exact H. }
    destruct r0 as [|c1 [|c2 t]].
    - apply (Hpre (0, 0%nat) (0, 0%nat)). unfold utf8.RuneSelf.
      replace (byte_val c0 <? 128) with false by (symmetry; apply Z.ltb_ge; lia).
      replace (utf8.between 194 (byte_val c0) 223) with false
        by (symmetry; apply between_false; lia).
      replace (utf8.between 224 (byte_val c0) 239) with true
        by (symmetry; apply between_spec; lia). reflexivity.
    - apply (Hpre (0, 0%nat) (0, 0%nat)). unfold utf8.RuneSelf.
      replace (byte_val c0 <? 128) with false by (symmetry; apply Z.ltb_ge; lia).
      replace (utf8.between 194 (byte_val c0) 223) with false
        by (symmetry; apply between_false; lia).
      replace (utf8.between 224 (byte_val c0) 239) with true
        by (symmetry; apply between_spec; lia). reflexivity.
    - destruct (utf8.between (if byte_val c0 =? 224 then 160 else 128) (byte_val c1)
                  (if byte_val c0 =? 237 then 159 else 191)) eqn:E1;
      [destruct (utf8.between 128 (byte_val c2) 191) eqn:E2'|].
      + apply between_spec in E1, E2'. apply dec_3. repeat split; try lia; apply E1.
      + apply (Hpre (0, 0%nat) (0, 0%nat)). unfold utf8.RuneSelf.
        replace (byte_val c0 <? 128) with false by (symmetry; apply Z.ltb_ge; lia).
        replace (utf8.between 194 (byte_val c0) 223) with false
          by (symmetry; apply between_false; lia).
        replace (utf8.between 224 (byte_val c0) 239) with true
          by (symmetry; apply between_spec; lia).
        cbv zeta. rewrite E1, E2'. reflexivity.
      + apply (Hpre (0, 0%nat) (0, 0%nat)). unfold utf8.RuneSelf.
        replace (byte_val c0 <? 128) with false by (symmetry; apply Z.ltb_ge; lia).
        replace (utf8.between 194 (byte_val c0) 223) with false
          by (symmetry; apply between_false; lia).
        replace (utf8.between 224 (byte_val c0) 239) with true
          by (symmetry; apply between_spec; lia).
        cbv zeta. rewrite E1. reflexivity. }
  apply between_false in E3.
  destruct (utf8.between 0xF0 (byte_val c0) 0xF4) eqn:E4.
  2: { apply between_false in E4. apply dec_bad. unfold utf8.DecodeRune, utf8.RuneSelf.
       replace (byte_val c0 <? 128) with false by (symmetry; apply Z.ltb_ge; lia).
       replace (utf8.between 194 (byte_val c0) 223) with false
         by (symmetry; apply between_false; lia).
       replace (utf8.between 224 (byte_val c0) 239) with false
         by (symmetry; apply between_false; lia).
       replace (utf8.between 240 (byte_val c0) 244) with false
         by (symmetry; apply between_false; lia).
       reflexivity. }
  apply between_spec in E4.
  assert (Hhead : forall R : Z * nat,
    match r0 with
    | String c1 (String c2 (String c3 _)) =>
        let b1 := byte_val c1 in
        let b2 := byte_val c2 in
        let b3 := byte_val c3 in
        let lo := if byte_val c0 =? 240 then 144 else 128 in
        let hi := if byte_val c0 =? 244 then 143 else 191 in
        if utf8.between lo b1 hi && utf8.between 128 b2 191 && utf8.between 128 b3 191
        then ((((byte_val c0 - 240) * 64 + (b1 - 128)) * 64 + (b2 - 128)) * 64 + (b3 - 128),
              4%nat)
        else (utf8.RuneError, 1%nat)
    | _ => (utf8.RuneError, 1%nat)
    end = R -> utf8.DecodeRune (String c0 r0) = R).
  { intros R H. unfold utf8.DecodeRune, utf8.RuneSelf.
    replace (byte_val c0 <? 128) with false by (symmetry; apply Z.ltb_ge; lia).
    replace (utf8.between 194 (byte_val c0) 223) with false
      by (symmetry; apply between_false; lia).
    replace (utf8.between 224 (byte_val c0) 239) with false
      by (symmetry; apply between_false; lia).
    replace (utf8.between 240 (byte_val c0) 244) with true
      by (symmetry; apply between_spec; lia).
    exact H. }
  destruct r0 as [|c1 [|c2 [|c3 t]]]; try (apply dec_bad, Hhead; reflexivity).
  destruct (utf8.between (if byte_val c0 =? 240 then 144 else 128) (byte_val c1)
              (if byte_val c0 =? 244 then 143 else 191)) eqn:E1;
    [destruct (utf8.between 128 (byte_val c2) 191) eqn:E2';
     [destruct (utf8.between 128 (byte_val c3) 191) eqn:E3'|]|].
  - apply between_spec in E1, E2', E3'. apply dec_4. repeat split; try lia; apply E1.
  - apply dec_bad, Hhead. cbv zeta. rewrite E1, E2', E3'. reflexivity.
  - apply dec_bad, Hhead. cbv zeta. rewrite E1, E2'. reflexivity.
  - apply dec_bad, Hhead. cbv zeta. rewrite E1. reflexivity.
Qed.

(** ** Quoted strings *)

Lemma pushes_app : forall s acc, pushes acc s = (acc ++ s)%string.
Proof.
  induction s as [|c s IH]; intros acc; cbn [pushes].
  - rewrite append_nil_r. reflexivity.
  - rewrite IH. unfold json.push, str1. rewrite append_assoc. reflexivity.
Qed.

Lemma quoted_nil : quoted_ok EmptyString EmptyString.
Proof.
  split; [|reflexivity]. intros acc. cbn [lex_run]. rewrite append_nil_r. reflexivity.
Qed.

Lemma quoted_cons : forall chunk piece q dec,
  unit_ok chunk piece -> quoted_ok q dec ->
  quoted_ok (chunk ++ q)%string (piece ++ dec)%string.
Proof.
  intros chunk piece q dec [L1 U1] [L2 U2]. split.
  - intros acc. rewrite lex_run_app, L1, L2. rewrite append_assoc. reflexivity.
  - rewrite U1, U2. reflexivity.
Qed.

Lemma ascii_unit : forall c, byte_val c < 0x80 ->
  (forall acc,
     lex_run (json.LInString acc)
       (if json.htmlSafe (byte_val c) then str1 c else json.escape_byte (byte_val c))
     = Some ([], json.LInString
                   (pushes acc (if json.htmlSafe (byte_val c) then str1 c
                                else json.escape_byte (byte_val c)))))
  /\ (forall out,
        json.unquote_loop 0
          ((if json.htmlSafe (byte_val c) then str1 c else json.escape_byte (byte_val c))
           ++ out)
        = json.emit (str1 c) (json.unquote_loop 0 out)).
Proof.
  intros [b0 b1 b2 b3 b4 b5 b6 b7].
  destruct b7; [intros H; exfalso; destruct b0, b1, b2, b3, b4, b5, b6; vm_compute in H; discriminate|].
  intros _.
  destruct b0, b1, b2, b3, b4, b5, b6; (split; intros; simpl; reflexivity).
Qed.

Lemma ascii_unit_ok : forall c, byte_val c < 0x80 ->
  unit_ok (if json.htmlSafe (byte_val c) then str1 c else json.escape_byte (byte_val c))
    (str1 c).
Proof.
  intros c H. destruct (ascii_unit c H) as [L U]. split; [|exact U].
  intros acc. rewrite L, pushes_app. reflexivity.
Qed.

Lemma bad_unit_ok :
  unit_ok (String backslash "ufffd") (utf8.EncodeRune utf8.RuneError).
Proof.
  split.
  - intros acc. rewrite <- pushes_app. simpl. reflexivity.
  - intros out. simpl. reflexivity.
Qed.

Lemma sep_unit_ok : forall r, r = 0x2028 \/ r = 0x2029 ->
  unit_ok (String backslash "u202" ++ str1 (json.hex_digit (Z.land r 15)))%string
    (utf8.EncodeRune r).
Proof.
  intros r [-> | ->].
  - change (String backslash "u202" ++ str1 (json.hex_digit (Z.land 8232 15)))%string
      with (String backslash "u2028").
    split; [intros acc; rewrite <- pushes_app; simpl; reflexivity
           |intros out; simpl; reflexivity].
  - change (String backslash "u202" ++ str1 (json.hex_digit (Z.land 8233 15)))%string
      with (String backslash "u2029").
    split; [intros acc; rewrite <- pushes_app; simpl; reflexivity
           |intros out; simpl; reflexivity].
Qed.

Lemma lex_run_plain : forall s acc,
  plain s = true ->
  lex_run (json.LInString acc) s = Some ([], json.LInString (acc ++ s)%string).
Proof.
  induction s as [|c s IH]; intros acc H.
  - cbn [lex_run]. rewrite append_nil_r. reflexivity.
  - cbn [plain] in H. apply andb_true_iff in H as [Hc Hs]. apply Z.leb_le in Hc.
    cbn [lex_run json.lex_step].
    replace (byte_val c =? 34) with false by (symmetry; apply Z.eqb_neq; lia).
    replace (byte_val c =? 92) with false by (symmetry; apply Z.eqb_neq; lia).
    replace (byte_val c <? 32) with false by (symmetry; apply Z.ltb_ge; lia).
    rewrite IH by assumption. unfold json.push, str1. rewrite append_assoc. reflexivity.
Qed.

Lemma unquote_rune : forall c rest r size,
  0x80 <= byte_val c ->
  utf8.DecodeRune (String c rest) = (r, size) ->
  json.unquote_loop 0 (String c rest)
  = json.emit (utf8.EncodeRune r) (json.unquote_loop (size - 1) rest).
Proof.
  intros c rest r size Hc Hd. cbn [json.unquote_loop].
  replace (byte_val c =? 92) with false by (symmetry; apply Z.eqb_neq; lia).
  replace (byte_val c =? 34) with false by (symmetry; apply Z.eqb_neq; lia).
  replace (byte_val c <? 32) with false by (symmetry; apply Z.ltb_ge; lia).
  unfold utf8.RuneSelf.
  replace (byte_val c <? 128) with false by (symmetry; apply Z.ltb_ge; lia).
  cbn [orb]. rewrite Hd. reflexivity.
Qed.

Lemma rune2_unit_ok : forall c0 c1, lead2 c0 c1 ->
  unit_ok (String c0 (String c1 EmptyString)) (String c0 (String c1 EmptyString)).
Proof.
  intros c0 c1 H. pose proof H as [H0 H1]. split.
  - intros acc. apply lex_run_plain. cbn [plain].
    rewrite !(proj2 (Z.leb_le _ _)) by lia. reflexivity.
  - intros out. cbn [append].
    rewrite (unquote_rune c0 _ _ _ ltac:(lia) (DecodeRune_2 c0 c1 out H)).
    unfold rune2. rewrite EncodeRune_2 by assumption. reflexivity.
Qed.

Lemma rune3_unit_ok : forall c0 c1 c2, lead3 c0 c1 c2 ->
  unit_ok (String c0 (String c1 (String c2 EmptyString)))
    (String c0 (String c1 (String c2 EmptyString))).
Proof.
  intros c0 c1 c2 H. pose proof H as (H0 & H1 & H2).
  assert (B1 : 0x80 <= byte_val c1)
    by (destruct (byte_val c0 =? 224), (byte_val c0 =? 237); lia).
  split.
  - intros acc. apply lex_run_plain. cbn [plain].
    rewrite !(proj2 (Z.leb_le _ _)) by lia. reflexivity.
  - intros out. cbn [append].
    rewrite (unquote_rune c0 _ _ _ ltac:(lia) (DecodeRune_3 c0 c1 c2 out H)).
    unfold rune3. rewrite EncodeRune_3 by assumption. reflexivity.
Qed.

Lemma rune4_unit_ok : forall c0 c1 c2 c3, lead4 c0 c1 c2 c3 ->
  unit_ok (String c0 (String c1 (String c2 (String c3 EmptyString))))
    (String c0 (String c1 (String c2 (String c3 EmptyString)))).
Proof.
  intros c0 c1 c2 c3 H. pose proof H as (H0 & H1 & H2 & H3).
  assert (B1 : 0x80 <= byte_val c1)
    by (destruct (byte_val c0 =? 240), (byte_val c0 =? 244); lia).
  split.
  - intros acc. apply lex_run_plain. cbn [plain].
    rewrite !(proj2 (Z.leb_le _ _)) by lia. reflexivity.
  - intros out. cbn [append].
    rewrite (unquote_rune c0 _ _ _ ltac:(lia) (DecodeRune_4 c0 c1 c2 c3 out H)).
    unfold rune4. rewrite EncodeRune_4 by assumption. reflexivity.
Qed.

Lemma substring_0_0 : forall t, substring 0 0 t = EmptyString.
Proof. destruct t; reflexivity. Qed.

(** [Marshal] quotes any string into something the scanner accepts and
    [unquote] reads; a string of valid UTF-8 is read back as itself. *)
Lemma quote_spec : forall (n : nat) (s : string),
  (String.length s <= n)%nat ->
  exists dec,
    quoted_ok (json.appendString_loop 0 s) dec
    /\ (utf8.valid_from 0 s = true -> dec = s).
Proof.
  induction n as [|n IH]; intros s Hlen.
  - destruct s; [|simpl in Hlen; lia].
    exists EmptyString. split; [apply quoted_nil|reflexivity].
  - destruct s as [|c rest].
    { exists EmptyString. split; [apply quoted_nil|reflexivity]. }
    cbn [String.length] in Hlen.
    destruct (Z.ltb_spec (byte_val c) 0x80) as [Hlo|Hhi].
    + destruct (IH rest ltac:(lia)) as (dec & Hq & Hv).
      exists (str1 c ++ dec)%string. split.
      * cbn [json.appendString_loop]. unfold utf8.RuneSelf.
        replace (byte_val c <? 128) with true by (symmetry; apply Z.ltb_lt; lia).
        apply quoted_cons; [apply ascii_unit_ok; assumption|assumption].
      * cbn [utf8.valid_from]. unfold utf8.DecodeRune, utf8.RuneSelf, utf8.RuneError.
        replace (byte_val c <? 128) with true by (symmetry; apply Z.ltb_lt; lia).
        replace (byte_val c =? 65533) with false by (symmetry; apply Z.eqb_neq; lia).
        cbn [andb Nat.sub]. intros H. rewrite (Hv H). reflexivity.
    + pose proof (DecodeRune_cases c rest Hhi) as Hd.
      inversion Hd as [s' Hbad Es | c0 c1 t H2 Es | c0 c1 c2 t H3 Es | c0 c1 c2 c3 t H4 Es];
        subst.
      * destruct (IH rest ltac:(lia)) as (dec & Hq & Hv).
        exists (utf8.EncodeRune utf8.RuneError ++ dec)%string. split.
        -- cbn [json.appendString_loop]. unfold utf8.RuneSelf.
           replace (byte_val c <? 128) with false by (symmetry; apply Z.ltb_ge; lia).
           rewrite Hbad. rewrite Z.eqb_refl. cbn [Nat.eqb andb].
           apply quoted_cons; [apply bad_unit_ok|assumption].
        -- cbn [utf8.valid_from]. rewrite Hbad, Z.eqb_refl. cbn [Nat.eqb andb].
           discriminate.
      * destruct (IH t ltac:(cbn [String.length] in Hlen; lia)) as (dec & Hq & Hv).
        exists (String c (String c1 EmptyString) ++ dec)%string.
        pose proof H2 as [B0 B1].
        assert (Hr : 0x80 <= rune2 c c1 < 0x800) by (unfold rune2; lia).
        split.
        -- cbn [json.appendString_loop]. unfold utf8.RuneSelf.
           replace (byte_val c <? 128) with false by (symmetry; apply Z.ltb_ge; lia).
           rewrite (DecodeRune_2 c c1 t H2).
           replace (rune2 c c1 =? 8232) with false by (symmetry; apply Z.eqb_neq; lia).
           replace (rune2 c c1 =? 8233) with false by (symmetry; apply Z.eqb_neq; lia).
           cbn [Nat.eqb andb orb Nat.sub substring json.appendString_loop].
           rewrite andb_false_r, substring_0_0.
           apply quoted_cons; [apply rune2_unit_ok; assumption|assumption].
        -- cbn [utf8.valid_from]. rewrite (DecodeRune_2 c c1 t H2).
           cbn [Nat.eqb andb Nat.sub utf8.valid_from]. rewrite andb_false_r.
           intros H. rewrite (Hv H). reflexivity.
      * destruct (IH t ltac:(cbn [String.length] in Hlen; lia)) as (dec & Hq & Hv).
        exists (String c (String c1 (String c2 EmptyString)) ++ dec)%string.
        split.
        -- cbn [json.appendString_loop]. unfold utf8.RuneSelf.
           replace (byte_val c <? 128) with false by (symmetry; apply Z.ltb_ge; lia).
           rewrite (DecodeRune_3 c c1 c2 t H3).
           cbn [Nat.eqb andb]. rewrite andb_false_r.
           destruct ((rune3 c c1 c2 =? 8232) || (rune3 c c1 c2 =? 8233)) eqn:Esep.
           ++ cbn [Nat.sub json.appendString_loop]. rewrite <- append_assoc.
              apply quoted_cons; [|assumption].
              pose proof (EncodeRune_3 c c1 c2 (proj1 H3) (proj1 (proj2 H3)) (proj2 (proj2 H3)))
                as He.
              fold (rune3 c c1 c2) in He. rewrite <- He.
              apply sep_unit_ok.
              apply orb_true_iff in Esep as [E|E]; apply Z.eqb_eq in E; auto.
           ++ cbn [Nat.sub substring json.appendString_loop]. rewrite substring_0_0.
              apply quoted_cons; [apply rune3_unit_ok; assumption|assumption].
        -- cbn [utf8.valid_from]. rewrite (DecodeRune_3 c c1 c2 t H3).
           cbn [Nat.eqb andb Nat.sub utf8.valid_from]. rewrite andb_false_r.
           intros H. rewrite (Hv H). reflexivity.
      * destruct (IH t ltac:(cbn [String.length] in Hlen; lia)) as (dec & Hq & Hv).
        exists (String c (String c1 (String c2 (String c3 EmptyString))) ++ dec)%string.
        pose proof H4 as (B0 & B1 & B2 & B3).
        assert (Hr : 0x10000 <= rune4 c c1 c2 c3).
        { unfold rune4.
          destruct (Z.eqb_spec (byte_val c) 240), (byte_val c =? 244); lia. }
        split.
        -- cbn [json.appendString_loop]. unfold utf8.RuneSelf.
           replace (byte_val c <? 128) with false by (symmetry; apply Z.ltb_ge; lia).
           rewrite (DecodeRune_4 c c1 c2 c3 t H4).
           replace (rune4 c c1 c2 c3 =? 8232) with false by (symmetry; apply Z.eqb_neq; lia).
           replace (rune4 c c1 c2 c3 =? 8233) with false by (symmetry; apply Z.eqb_neq; lia).
           cbn [Nat.eqb andb orb Nat.sub substring json.appendString_loop].
           rewrite andb_false_r, substring_0_0.
           apply quoted_cons; [apply rune4_unit_ok; assumption|assumption].
        -- cbn [utf8.valid_from]. rewrite (DecodeRune_4 c c1 c2 c3 t H4).
           cbn [Nat.eqb andb Nat.sub utf8.valid_from]. rewrite andb_false_r.
           intros H. rewrite (Hv H). reflexivity.
Qed.

(** ** UUIDs *)

Lemma xtob_hex : forall c,
  uuid.xtob (json.hex_digit (Z.shiftr (byte_val c) 4)) (json.hex_digit (Z.land (byte_val c) 15))
  = Some c.
Proof.
  intros [b0 b1 b2 b3 b4 b5 b6 b7].
  destruct b0, b1, b2, b3, b4, b5, b6, b7; vm_compute; reflexivity.
Qed.

Lemma hex_digit_ascii : forall c,
  (byte_val (json.hex_digit (Z.shiftr (byte_val c) 4)) <? 0x80) = true
  /\ (byte_val (json.hex_digit (Z.land (byte_val c) 15)) <? 0x80) = true.
Proof.
  intros [b0 b1 b2 b3 b4 b5 b6 b7].
  destruct b0, b1, b2, b3, b4, b5, b6, b7; vm_compute; split; reflexivity.
Qed.

Lemma all_ascii_app : forall a b, all_ascii (a ++ b) = all_ascii a && all_ascii b.
Proof.
  induction a as [|c a IH]; intros b; cbn [append all_ascii]; [reflexivity|].
  rewrite IH, andb_assoc. reflexivity.
Qed.

Lemma all_ascii_hexEncode : forall s, all_ascii (uuid.hexEncode s) = true.
Proof.
  induction s as [|c s IH]; cbn [uuid.hexEncode all_ascii]; [reflexivity|].
  destruct (hex_digit_ascii c) as [H1 H2]. rewrite H1, H2, IH. reflexivity.
Qed.

Lemma all_ascii_uuid : forall u, all_ascii (uuid.String_ u) = true.
Proof.
  intros u. unfold uuid.String_.
  rewrite !all_ascii_app, !all_ascii_hexEncode. reflexivity.
Qed.

Lemma all_ascii_valid : forall s, all_ascii s = true -> utf8.valid_from 0 s = true.
Proof.
  induction s as [|c s IH]; intros H; [reflexivity|].
  cbn [all_ascii] in H. apply andb_true_iff in H as [Hc Hs]. apply Z.ltb_lt in Hc.
  cbn [utf8.valid_from]. unfold utf8.DecodeRune, utf8.RuneSelf, utf8.RuneError.
  replace (byte_val c <? 128) with true by (symmetry; apply Z.ltb_lt; lia).
  replace (byte_val c =? 65533) with false by (symmetry; apply Z.eqb_neq; lia).
  cbn [andb Nat.sub]. apply IH. assumption.
Qed.

Lemma length16 : forall u : string, String.length u = 16%nat ->
  exists c0 c1 c2 c3 c4 c5 c6 c7 c8 c9 c10 c11 c12 c13 c14 c15,
    u = String c0 (String c1 (String c2 (String c3 (String c4 (String c5 (String c6
        (String c7 (String c8 (String c9 (String c10 (String c11 (String c12 (String c13
        (String c14 (String c15 EmptyString))))))))))))))).
Proof.
  intros u H.
  do 16 (destruct u as [|? u]; [discriminate H|]).
  destruct u; [|discriminate H].
  repeat eexists.
Qed.

(** A UUID is parsed back from its canonical form. *)
Lemma Parse_String : forall u, uuid.wf u -> uuid.Parse (uuid.String_ u) = Ok u.
Proof.
  intros u H. destruct (length16 u H) as
    (c0 & c1 & c2 & c3 & c4 & c5 & c6 & c7 & c8 & c9 & c10 & c11 & c12 & c13 & c14 & c15 & ->).
  cbv beta iota zeta delta [uuid.String_ substring uuid.hexEncode append].
  cbv beta iota zeta delta [uuid.Parse String.length Nat.eqb].
  cbv beta iota zeta delta [uuid.parse_hyphenated uuid.at_ String.get].
  change (Ascii.eqb "-" "-") with true. cbv beta iota delta [negb orb].
  cbv beta iota zeta delta [uuid.xtob_all uuid.at_ String.get].
  rewrite !xtob_hex. reflexivity.
Qed.

(** ** The payload of a token *)

Lemma Marshal_payload : forall sub email scope iss aud exp iat nbf,
  json.Marshal
    [("sub", json.AString sub); ("email", json.AString email); ("scope", json.AString scope);
     ("iss", json.AString iss); ("aud", json.AString aud); ("exp", json.AInt64 exp);
     ("iat", json.AInt64 iat); ("nbf", json.AInt64 nbf)]
  = Ok (payload_text sub email scope iss aud exp iat nbf).
Proof.
  intros. unfold json.Marshal, payload_text. f_equal.
  replace (json.sort_keys _) with
    [("aud", json.AString aud); ("email", json.AString email); ("exp", json.AInt64 exp);
     ("iat", json.AInt64 iat); ("iss", json.AString iss); ("nbf", json.AInt64 nbf);
     ("scope", json.AString scope); ("sub", json.AString sub)] by reflexivity.
  cbn [json.encode_members json.encode_any].
  rewrite !append_assoc. cbn [append]. reflexivity.
Qed.

Lemma lex_string : forall s rest toks,
  json.lex json.LBegin rest = Some toks ->
  json.lex json.LBegin (json.appendString s ++ rest) = Some (json.TString (quoted s) :: toks).
Proof.
  intros s rest toks H. unfold json.appendString.
  cbn [append]. rewrite append_assoc.
  change (json.lex json.LBegin (String dquote (json.appendString_loop 0 s ++ str1 dquote ++ rest)))
    with (match json.lex (json.LInString EmptyString)
                  (json.appendString_loop 0 s ++ str1 dquote ++ rest) with
          | Some toks' => Some ([] ++ toks')
          | None => None
          end).
  rewrite lex_app.
  destruct (quote_spec _ s (le_n _)) as (dec & [L _] & _).
  rewrite L. cbn [append str1].
  change (json.lex (json.LInString (json.appendString_loop 0 s)) (String dquote rest))
    with (match json.lex json.LBegin rest with
          | Some toks' => Some ([json.TString (json.appendString_loop 0 s)] ++ toks')
          | None => None
          end).
  rewrite H. reflexivity.
Qed.

Lemma lex_cons : forall st c rest toks st' toks',
  json.lex_step st c = Some (toks, st') ->
  json.lex st' rest = Some toks' ->
  json.lex st (String c rest) = Some (toks ++ toks').
Proof. intros st c rest toks st' toks' H1 H2. cbn [json.lex]. rewrite H1, H2. reflexivity. Qed.

Lemma lex_colon : forall rest toks,
  json.lex json.LBegin rest = Some toks ->
  json.lex json.LBegin (String ":" rest) = Some (json.TColon :: toks).
Proof. intros rest toks H. apply (lex_cons _ _ _ [json.TColon] json.LBegin); [reflexivity|exact H]. Qed.

Lemma lex_comma : forall rest toks,
  json.lex json.LBegin rest = Some toks ->
  json.lex json.LBegin (String "," rest) = Some (json.TComma :: toks).
Proof. intros rest toks H. apply (lex_cons _ _ _ [json.TComma] json.LBegin); [reflexivity|exact H]. Qed.

Lemma lex_open : forall rest toks,
  json.lex json.LBegin rest = Some toks ->
  json.lex json.LBegin (String "{" rest) = Some (json.TBeginObject :: toks).
Proof.
  intros rest toks H. apply (lex_cons _ _ _ [json.TBeginObject] json.LBegin); [reflexivity|exact H].
Qed.

Lemma lex_close : json.lex json.LBegin "}" = Some [json.TEndObject].
Proof. reflexivity. Qed.

Lemma lex_number_comma : forall n rest toks,
  0 <= n < 2 ^ 63 ->
  json.lex json.LBegin rest = Some toks ->
  json.lex json.LBegin (strconv.FormatInt n ++ String "," rest)
  = Some (json.TNumber (strconv.FormatInt n) :: json.TComma :: toks).
Proof.
  intros n rest toks Hn H. rewrite lex_app.
  destruct (lex_run_FormatInt n Hn) as (st & -> & [-> | ->]).
  - rewrite (lex_cons (json.LNumber json.state0 (strconv.FormatInt n)) "," rest
               [json.TNumber (strconv.FormatInt n); json.TComma] json.LBegin toks eq_refl H).
    reflexivity.
  - rewrite (lex_cons (json.LNumber json.state1 (strconv.FormatInt n)) "," rest
               [json.TNumber (strconv.FormatInt n); json.TComma] json.LBegin toks eq_refl H).
    reflexivity.
Qed.

Lemma lex_payload : forall sub email scope iss aud exp iat nbf,
  0 <= exp < 2 ^ 63 -> 0 <= iat < 2 ^ 63 -> 0 <= nbf < 2 ^ 63 ->
  json.lex json.LBegin (payload_text sub email scope iss aud exp iat nbf)
  = Some (payload_tokens sub email scope iss aud exp iat nbf).
Proof.
  intros. unfold payload_text, payload_tokens.
  repeat first
    [ apply lex_open | apply lex_string | apply lex_colon | apply lex_comma
    | apply lex_number_comma; [assumption|] | apply lex_close ].
Qed.

Lemma parse_payload :
  forall sub email scope iss aud exp iat nbf sub' email' scope' iss' aud' fexp fiat fnbf,
    json.unquote (quoted sub) = Some sub' -> json.unquote (quoted email) = Some email' ->
    json.unquote (quoted scope) = Some scope' -> json.unquote (quoted iss) = Some iss' ->
    json.unquote (quoted aud) = Some aud' ->
    json.ParseFloat (strconv.FormatInt exp) = Some fexp ->
    json.ParseFloat (strconv.FormatInt iat) = Some fiat ->
    json.ParseFloat (strconv.FormatInt nbf) = Some fnbf ->
    json.parse (json.mkParser [] json.stateBeginValue None None)
      (payload_tokens sub email scope iss aud exp iat nbf)
    = Some (json.Object (payload_map sub' email' scope' iss' aud' fexp fiat fnbf), None).
Proof.
  intros * Hsub Hemail Hscope Hiss Haud Hexp Hiat Hnbf.
  unfold payload_tokens.
  change (quoted "aud") with "aud". change (quoted "email") with "email".
  change (quoted "exp") with "exp". change (quoted "iat") with "iat".
  change (quoted "iss") with "iss". change (quoted "nbf") with "nbf".
  change (quoted "scope") with "scope". change (quoted "sub") with "sub".
  assert (K1 : json.unquote "aud" = Some "aud") by reflexivity.
  assert (K2 : json.unquote "email" = Some "email") by reflexivity.
  assert (K3 : json.unquote "exp" = Some "exp") by reflexivity.
  assert (K4 : json.unquote "iat" = Some "iat") by reflexivity.
  assert (K5 : json.unquote "iss" = Some "iss") by reflexivity.
  assert (K6 : json.unquote "nbf" = Some "nbf") by reflexivity.
  assert (K7 : json.unquote "scope" = Some "scope") by reflexivity.
  assert (K8 : json.unquote "sub" = Some "sub") by reflexivity.
  repeat (cbn -[json.unquote json.ParseFloat quoted];
          rewrite ?K1, ?K2, ?K3, ?K4, ?K5, ?K6, ?K7, ?K8,
                  ?Hsub, ?Hemail, ?Hscope, ?Hiss, ?Haud, ?Hexp, ?Hiat, ?Hnbf).
  reflexivity.
Qed.

Lemma unquote_Q : forall s,
  exists dec, json.unquote (quoted s) = Some dec /\ (utf8.ValidString s = true -> dec = s).
Proof.
  intros s. destruct (quote_spec _ s (le_n _)) as (dec & [_ U] & V).
  exists dec. split; assumption.
Qed.

(** The payload of a token is read back from the text [Marshal] wrote. *)
Lemma Unmarshal_payload : forall sub email scope iss aud exp iat nbf,
  0 <= exp < 2 ^ 53 -> 0 <= iat < 2 ^ 53 -> 0 <= nbf < 2 ^ 53 ->
  exists sub' email' scope' iss' aud',
    json.Unmarshal (payload_text sub email scope iss aud exp iat nbf)
    = Ok (payload_map sub' email' scope' iss' aud' (exp # 1) (iat # 1) (nbf # 1))
    /\ (utf8.ValidString sub = true -> sub' = sub)
    /\ (utf8.ValidString email = true -> email' = email)
    /\ (utf8.ValidString scope = true -> scope' = scope).
Proof.
  intros * Hexp Hiat Hnbf.
  destruct (unquote_Q sub) as (sub' & Usub & Vsub).
  destruct (unquote_Q email) as (email' & Uemail & Vemail).
  destruct (unquote_Q scope) as (scope' & Uscope & Vscope).
  destruct (unquote_Q iss) as (iss' & Uiss & _).
  destruct (unquote_Q aud) as (aud' & Uaud & _).
  exists sub', email', scope', iss', aud'. repeat split; try assumption.
  unfold json.Unmarshal.
  rewrite lex_payload by lia.
  rewrite (parse_payload _ _ _ _ _ _ _ _ _ _ _ _ _ _ _ _ Usub Uemail Uscope Uiss Uaud
             (ParseFloat_FormatInt _ Hexp) (ParseFloat_FormatInt _ Hiat)
             (ParseFloat_FormatInt _ Hnbf)).
  reflexivity.
Qed.

(** ** Expiry *)

Lemma wrap64_le : forall z, - 2 ^ 63 <= z -> time.wrap64 z <= z.
Proof.
  intros z Hz. unfold time.wrap64.
  assert (H := Z.mod_le (z + 2 ^ 63) (2 ^ 64) ltac:(lia) ltac:(lia)). lia.
Qed.

Lemma Unix_le : forall s, - 2 ^ 63 <= s -> time.sec (time.Unix s) <= s.
Proof.
  intros s Hs. unfold time.Unix, time.unixToInternal. simpl.
  assert (H := wrap64_le (s + 62135596800) ltac:(lia)). lia.
Qed.

Lemma Unix_small : forall s, - 2 ^ 62 <= s < 2 ^ 62 -> time.Unix s = time.mkTime s 0.
Proof.
  intros s Hs. unfold time.Unix, time.wrap64, time.unixToInternal. f_equal.
  rewrite Z.mod_small by lia. lia.
Qed.

Lemma int64_of_float64_range : forall f,
  - 2 ^ 63 <= time.int64_of_float64 f < 2 ^ 63.
Proof.
  intros f. unfold time.int64_of_float64.
  destruct (_ && _) eqn:E; [|lia].
  apply andb_true_iff in E as [E1 E2]. lia.
Qed.

(** The integer part of a float64 below an instant after the epoch is
    below the instant too. *)
Lemma int64_below : forall (f : Q) (S n : Z),
  1 <= S -> 0 <= n < 1000000000 ->
  (f < inject_Z S + (n # 1000000000))%Q ->
  let z := time.int64_of_float64 f in z < S \/ (z = S /\ 0 < n).
Proof.
  intros [num den] S n HS Hn Hlt. unfold time.int64_of_float64. simpl.
  unfold Qlt in Hlt. simpl in Hlt.
  (* num * 1e9 < (S * 1e9 + n) * den *)
  assert (Hq : Z.quot num (Z.pos den) <= S /\
               (Z.quot num (Z.pos den) = S -> 0 < n)).
  { destruct (Z_le_gt_dec 0 num) as [Hpos|Hneg].
    - rewrite Z.quot_div_nonneg by lia.
      assert (Hd := Z.mul_div_le num (Z.pos den) ltac:(lia)).
      split; [|intros He; rewrite He in Hd]; nia.
    - assert (Z.quot num (Z.pos den) <= 0) by (apply Z.quot_le_upper_bound; lia).
      split; lia. }
  destruct Hq as [Hq1 Hq2].
  destruct (_ && _) eqn:E; [|lia].
  destruct (Z.eq_dec (Z.quot num (Z.pos den)) S); [right|left]; auto. lia.
Qed.

Lemma int64_below_second : forall (f : Q) (n : Z),
  0 < n < 1000000000 ->
  (f < inject_Z 0 + (n # 1000000000))%Q ->
  - 2 ^ 63 <= time.int64_of_float64 f <= 0.
Proof.
  intros [num den] n Hn Hlt. unfold time.int64_of_float64. cbn [Qnum Qden].
  unfold Qlt in Hlt. cbn in Hlt.
  assert (Hq : Z.quot num (Z.pos den) <= 0).
  { destruct (Z_le_gt_dec 0 num) as [Hpos|Hneg].
    - rewrite Z.quot_div_nonneg by lia.
      assert (num < Z.pos den) by nia.
      rewrite Z.div_small by lia. lia.
    - apply Z.quot_le_upper_bound; lia. }
  destruct (_ && _) eqn:E; [|lia].
  apply andb_true_iff in E. destruct E as [E _]. apply Z.leb_le in E. lia.
Qed.

Lemma Before_Unix_int64 : forall (f : Q) (now : time.Time),
  time.wf now -> 1 <= time.sec now ->
  (f < seconds now)%Q ->
  time.Before (time.Unix (time.int64_of_float64 f)) now = true.
Proof.
  intros f now Hwf Hsec Hlt.
  destruct (int64_below f _ _ Hsec Hwf Hlt) as [H|[H1 H2]];
  pose proof (int64_of_float64_range f) as Hr;
  pose proof (Unix_le _ (proj1 Hr)) as Hle;
  unfold time.Before; simpl time.nsec.
  - apply orb_true_iff. left. apply Z.ltb_lt. lia.
  - apply orb_true_iff.
    destruct (Z.eq_dec (time.sec (time.Unix (time.int64_of_float64 f))) (time.sec now)) as [e|ne].
    + right. rewrite e, Z.eqb_refl. apply Z.ltb_lt. unfold time.Unix; simpl. lia.
    + left. apply Z.ltb_lt. lia.
Qed.

(** C4.  A token of three segments with the right signature, whose
    payload decodes to an object with a valid UUID in [sub] and no number in
    [exp], is accepted by [ValidateJWS] at every instant. *)
Theorem ValidateJWS_without_exp_never_expires :
  forall (j : jwt.JWTManager) (jws headerB64 payloadB64 signatureB64 payloadBytes : string)
         (payload : json.gomap) (userIDStr : string) (userID : uuid.UUID),
    strings.Split jws "." = [headerB64; payloadB64; signatureB64] ->
    signatureB64 = jwt.sign j (headerB64 ++ "." ++ payloadB64) ->
    base64.RawURLEncoding.DecodeString payloadB64 = Ok payloadBytes ->
    json.Unmarshal payloadBytes = Ok payload ->
    jwt.float64_field payload "exp" = None ->
    jwt.string_field payload "sub" = Some userIDStr ->
    uuid.Parse userIDStr = Ok userID ->
    forall now : time.Time,
      jwt.ValidateJWS j now jws = Ok (claims_of payload userID).
Proof.
  intros j jws h p s bytes payload sub uid Hsplit Hsig Hdec Hjson Hexp Hsub Hparse now.
  unfold jwt.ValidateJWS. rewrite Hsplit, <- Hsig, String.eqb_refl. simpl negb. cbv iota.
  unfold jwt.validate_payload. rewrite Hdec. unfold bind at 1. rewrite Hjson. unfold bind.
  rewrite Hexp, Hsub, Hparse. reflexivity.
Qed.

Lemma Before_Unix_after_epoch : forall (f : Q) (now : time.Time),
  time.wf now -> 0 < unix_nano now ->
  (f < seconds now)%Q ->
  time.Before (time.Unix (time.int64_of_float64 f)) now = true.
Proof.
  intros f now Hwf Hpos Hlt.
  destruct (Z_le_gt_dec 1 (time.sec now)) as [Hsec|Hsec];
    [apply Before_Unix_int64; assumption|].
  unfold time.wf, unix_nano in *.
  assert (Hs : time.sec now = 0) by lia.
  assert (Hn : 0 < time.nsec now < 1000000000) by lia.
  unfold seconds in Hlt. rewrite Hs in Hlt.
  pose proof (int64_below_second f (time.nsec now) Hn Hlt) as Hz.
  pose proof (Unix_le _ (proj1 Hz)) as Hle.
  unfold time.Before. apply orb_true_iff.
  destruct (Z.eq_dec (time.sec (time.Unix (time.int64_of_float64 f))) (time.sec now))
    as [e|ne].
  - right. rewrite e, Z.eqb_refl. apply Z.ltb_lt. unfold time.Unix. cbn [time.nsec]. lia.
  - left. apply Z.ltb_lt. lia.
Qed.

(** C6, as amended.  A token of three segments with the right signature,
    whose decoded payload has a number in [exp] below the reading of the
    clock, is rejected by [ValidateJWS] with the expiry error when the clock
    reads an instant after the epoch. *)
Theorem ValidateJWS_rejects_expired :
  forall (j : jwt.JWTManager) (now : time.Time)
         (jws headerB64 payloadB64 signatureB64 payloadBytes : string)
         (payload : json.gomap) (exp : json.float64),
    strings.Split jws "." = [headerB64; payloadB64; signatureB64] ->
    signatureB64 = jwt.sign j (headerB64 ++ "." ++ payloadB64) ->
    base64.RawURLEncoding.DecodeString payloadB64 = Ok payloadBytes ->
    json.Unmarshal payloadBytes = Ok payload ->
    jwt.float64_field payload "exp" = Some exp ->
    time.wf now -> 0 < unix_nano now ->
    (exp < seconds now)%Q ->
    jwt.ValidateJWS j now jws = Err (Errorf "token expired").
Proof.
  intros j now jws h p s bytes payload exp Hsplit Hsig Hdec Hjson Hexp Hwf Hpos Hlt.
  unfold jwt.ValidateJWS. rewrite Hsplit, <- Hsig, String.eqb_refl. simpl negb. cbv iota.
  unfold jwt.validate_payload. rewrite Hdec. unfold bind at 1. rewrite Hjson. unfold bind.
  rewrite Hexp, Before_Unix_after_epoch by assumption. reflexivity.
Qed.

(** ** Issued tokens *)

Lemma Add_Unix_bounds : forall t d,
  time.wf t -> 0 <= d < 2 ^ 63 ->
  time.sec t <= time.Unix_ (time.Add t d) <= time.sec t + 2 ^ 34.
Proof.
  intros t d Hwf Hd. unfold time.wf in Hwf. unfold time.Unix_, time.Add.
  assert (Hq : 0 <= Z.quot d 1000000000 < 2 ^ 34).
  { rewrite Z.quot_div_nonneg by lia. split; [apply Z.div_pos; lia|].
    apply Z.div_lt_upper_bound; lia. }
  assert (Hr : 0 <= Z.rem d 1000000000 < 1000000000).
  { rewrite Z.rem_mod_nonneg by lia. apply Z.mod_pos_bound. lia. }
  destruct (Z.leb_spec 1000000000 (time.nsec t + Z.rem d 1000000000));
    [|destruct (Z.ltb_spec (time.nsec t + Z.rem d 1000000000) 0)]; cbn [time.sec]; lia.
Qed.

Lemma Add_whole_seconds : forall t k,
  time.wf t -> 0 <= k ->
  time.Add t (k * time.Second) = time.mkTime (time.sec t + k) (time.nsec t).
Proof.
  intros t k Hwf Hk. unfold time.wf in Hwf. unfold time.Add, time.Second.
  rewrite Z.quot_mul, Z.rem_mul by lia.
  rewrite Z.add_0_r.
  replace (1000000000 <=? time.nsec t) with false by (symmetry; apply Z.leb_gt; lia).
  replace (time.nsec t <? 0) with false by (symmetry; apply Z.ltb_ge; lia).
  reflexivity.
Qed.

(** What [GenerateJWS] returns, and how its payload reads. *)
Lemma GenerateJWS_shape : forall j now user scope,
  wall_clock now -> 0 <= config.Expiration (jwt.config j) < 2 ^ 63 ->
  exists headerB64 payloadB64 sub' email' scope' iss' aud',
    jwt.GenerateJWS j now user scope
    = Ok (headerB64 ++ "." ++ payloadB64 ++ "."
          ++ jwt.sign j (headerB64 ++ "." ++ payloadB64))%string
    /\ strings.Split (headerB64 ++ "." ++ payloadB64 ++ "."
                      ++ jwt.sign j (headerB64 ++ "." ++ payloadB64))%string "."
       = [headerB64; payloadB64; jwt.sign j (headerB64 ++ "." ++ payloadB64)]
    /\ (exists payloadBytes,
          base64.RawURLEncoding.DecodeString payloadB64 = Ok payloadBytes
          /\ json.Unmarshal payloadBytes
             = Ok (payload_map sub' email' scope' iss' aud'
                     (time.Unix_ (time.Add now (config.Expiration (jwt.config j))) # 1)
                     (time.Unix_ now # 1) (time.Unix_ now # 1)))
    /\ (utf8.ValidString (uuid.String_ (User.ID user)) = true
        -> sub' = uuid.String_ (User.ID user))
    /\ (utf8.ValidString (User.Email user) = true -> email' = User.Email user)
    /\ (utf8.ValidString scope = true -> scope' = scope).
Proof.
  intros j now user scope [Hwf Hsec] Httl.
  pose proof (Add_Unix_bounds now _ Hwf Httl) as Hexp.
  assert (Hexp' : 0 <= time.Unix_ (time.Add now (config.Expiration (jwt.config j))) < 2 ^ 53) by lia.
  assert (Hiat : 0 <= time.Unix_ now < 2 ^ 53) by (unfold time.Unix_; lia).
  destruct (Unmarshal_payload (uuid.String_ (User.ID user)) (User.Email user) scope
              (config.Issuer (jwt.config j)) (config.Audience (jwt.config j))
              _ _ _ Hexp' Hiat Hiat)
    as (sub' & email' & scope' & iss' & aud' & HU & Vsub & Vemail & Vscope).
  set (text := payload_text (uuid.String_ (User.ID user)) (User.Email user) scope
                 (config.Issuer (jwt.config j)) (config.Audience (jwt.config j))
                 (time.Unix_ (time.Add now (config.Expiration (jwt.config j))))
                 (time.Unix_ now) (time.Unix_ now)) in *.
  exists (base64.RawURLEncoding.EncodeToString header_json).
  exists (base64.RawURLEncoding.EncodeToString text).
  exists sub', email', scope', iss', aud'.
  set (h := base64.RawURLEncoding.EncodeToString header_json).
  set (p := base64.RawURLEncoding.EncodeToString text).
  set (sig := jwt.sign j (h ++ "." ++ p)).
  split; [|split; [|split; [|repeat split; assumption]]].
  - unfold jwt.GenerateJWS.
    rewrite Marshal_payload.
    replace (json.Marshal [("alg", json.AString "HS256"); ("typ", json.AString "JWT")])
      with (Ok header_json) by reflexivity.
    cbn [bind]. fold text. fold h. fold p. fold sig.
    rewrite !append_assoc. reflexivity.
  - assert (Hh : has_byte "." h = false) by apply EncodeToString_no_dot.
    assert (Hp : has_byte "." p = false) by apply EncodeToString_no_dot.
    assert (Hs : has_byte "." sig = false) by apply EncodeToString_no_dot.
    clearbody h p sig.
    change (h ++ "." ++ p ++ "." ++ sig)%string
      with (h ++ String "." (p ++ String "." sig))%string.
    rewrite (Split_app h "." _ Hh), (Split_app p "." _ Hp), (Split_no_sep sig "." Hs).
    reflexivity.
  - exists text. split; [apply DecodeString_EncodeToString|exact HU].
Qed.

Lemma payload_fields : forall sub email scope iss aud exp iat nbf,
  jwt.float64_field (payload_map sub email scope iss aud exp iat nbf) "exp" = Some exp
  /\ jwt.string_field (payload_map sub email scope iss aud exp iat nbf) "sub" = Some sub
  /\ jwt.string_field (payload_map sub email scope iss aud exp iat nbf) "email" = Some email
  /\ jwt.string_field (payload_map sub email scope iss aud exp iat nbf) "scope" = Some scope.
Proof. intros. repeat split. Qed.

Lemma not_Before_exp : forall exp now,
  time.wf now -> 0 <= exp < 2 ^ 53 ->
  unix_nano now <= exp * 1000000000 ->
  time.Before (time.Unix (time.int64_of_float64 (exp # 1))) now = false.
Proof.
  intros exp now Hwf Hexp Hle. unfold time.wf, unix_nano in *.
  rewrite int64_of_integer by lia. rewrite Unix_small by lia.
  unfold time.Before. cbn [time.sec time.nsec].
  apply orb_false_iff. split.
  - apply Z.ltb_ge. lia.
  - apply andb_false_iff.
    destruct (Z.eq_dec exp (time.sec now)) as [E|E].
    + right. apply Z.ltb_ge. lia.
    + left. apply Z.eqb_neq. assumption.
Qed.

(** C2, as amended.  For a user with a well-formed identifier and a scope
    of valid UTF-8, under a positive expiration, [GenerateJWS] returns a
    token, and [ValidateJWS] under the same secret, at any instant up to the
    whole second the token carries as its expiry, accepts it with the
    identifier of the user and the scope. *)
Theorem ValidateJWS_GenerateJWS :
  forall (j : jwt.JWTManager) (issued now : time.Time) (user : User.t) (scope : string),
    uuid.wf (User.ID user) ->
    utf8.ValidString scope = true ->
    0 < config.Expiration (jwt.config j) < 2 ^ 63 ->
    wall_clock issued -> time.wf now ->
    unix_nano now
      <= time.Unix_ (time.Add issued (config.Expiration (jwt.config j))) * 1000000000 ->
    exists (jws : string) (claims : jwt.Claims),
      jwt.GenerateJWS j issued user scope = Ok jws
      /\ jwt.ValidateJWS j now jws = Ok claims
      /\ jwt.UserID claims = User.ID user
      /\ jwt.Scope claims = scope.
Proof.
  intros j issued now user scope Hid Hscope Httl Hclock Hnow Hle.
  destruct (GenerateJWS_shape j issued user scope Hclock ltac:(lia))
    as (h & p & sub' & email' & scope' & iss' & aud' & Hgen & Hsplit
        & (bytes & Hdec & Hjson) & Vsub & _ & Vscope).
  rewrite (Vsub (all_ascii_valid _ (all_ascii_uuid _))) in Hjson.
  rewrite (Vscope Hscope) in Hjson.
  eexists. exists (jwt.mkClaims (User.ID user) email' scope).
  split; [exact Hgen|]. split; [|split; reflexivity].
  unfold jwt.ValidateJWS. rewrite Hsplit, String.eqb_refl. cbn [negb].
  unfold jwt.validate_payload. rewrite Hdec. unfold bind at 1. rewrite Hjson. unfold bind.
  destruct (payload_fields (uuid.String_ (User.ID user)) email' scope iss' aud'
              (time.Unix_ (time.Add issued (config.Expiration (jwt.config j))) # 1)
              (time.Unix_ issued # 1) (time.Unix_ issued # 1)) as (F1 & F2 & F3 & F4).
  rewrite F1, F2, F3, F4.
  destruct Hclock as [Hwf Hsec].
  pose proof (Add_Unix_bounds issued (config.Expiration (jwt.config j)) Hwf ltac:(lia)) as Hb.
  rewrite not_Before_exp by (try assumption; lia).
  rewrite Parse_String by assumption. reflexivity.
Qed.

Lemma CreateAccessToken_expiries :
  forall (o : oauth.OAuthManager) (db : gorm.DB) (now_jws now : time.Time)
         (fresh userID : uuid.UUID) (clientID scope : string)
         (accessToken : AccessToken.t) (db' : gorm.DB),
    wall_clock now_jws -> time.wf now ->
    0 <= config.Expiration (jwt.config (oauth.jwt_ o)) < 2 ^ 63 ->
    oauth.CreateAccessToken o db now_jws now fresh userID clientID scope
    = (Ok accessToken, db') ->
    embedded_exp (AccessToken.Token accessToken)
    = Some (time.Unix_ (time.Add now_jws (config.Expiration (jwt.config (oauth.jwt_ o)))))
    /\ AccessToken.ExpiresAt accessToken = time.Add now (24 * time.Hour)
    /\ (config.Expiration (jwt.config (oauth.jwt_ o)) = 24 * time.Hour ->
        time.sec now_jws = time.sec now ->
        embedded_exp (AccessToken.Token accessToken)
        = Some (time.Unix_ (AccessToken.ExpiresAt accessToken))).
Proof.
  intros o db now_jws now fresh userID clientID scope accessToken db' Hclock Hnow Httl Hcreate.
  destruct (GenerateJWS_shape (oauth.jwt_ o) now_jws (User.mk userID EmptyString EmptyString)
              scope Hclock Httl)
    as (h & p & sub' & email' & scope' & iss' & aud' & Hgen & Hsplit
        & (bytes & Hdec & Hjson) & _).
  unfold oauth.CreateAccessToken in Hcreate. rewrite Hgen in Hcreate.
  unfold AccessToken.BeforeCreate in Hcreate. cbn [AccessToken.ID] in Hcreate.
  rewrite String.eqb_refl in Hcreate.
  cbn [AccessToken.Token AccessToken.UserID AccessToken.ClientID AccessToken.Scope
       AccessToken.ExpiresAt] in Hcreate.
  destruct (gorm.Create _ _ _ _) as [rows|e]; [|discriminate].
  injection Hcreate as <- <-.
  cbn [AccessToken.Token AccessToken.ExpiresAt].
  assert (Hexp : embedded_exp (h ++ "." ++ p ++ "." ++ jwt.sign (oauth.jwt_ o) (h ++ "." ++ p))
                 = Some (time.Unix_ (time.Add now_jws
                                       (config.Expiration (jwt.config (oauth.jwt_ o)))))).
  { unfold embedded_exp. rewrite Hsplit, Hdec, Hjson.
    destruct (payload_fields sub' email' scope' iss' aud'
                (time.Unix_ (time.Add now_jws (config.Expiration (jwt.config (oauth.jwt_ o)))) # 1)
                (time.Unix_ now_jws # 1) (time.Unix_ now_jws # 1)) as (F1 & _).
    rewrite F1. destruct Hclock as [Hwf Hsec].
    pose proof (Add_Unix_bounds now_jws _ Hwf Httl) as Hb.
    rewrite int64_of_integer by lia. reflexivity. }
  split; [exact Hexp|]. split; [reflexivity|].
  intros H24 Hsame. etransitivity; [exact Hexp|]. f_equal.
  rewrite H24. change (24 * time.Hour) with (86400 * time.Second).
  change 86400000000000 with (86400 * time.Second).
  destruct Hclock as [Hwf Hsec].
  rewrite !Add_whole_seconds by (try assumption; lia).
  unfold time.Unix_. cbn [time.sec]. lia.
Qed.

(** ** The table of authorization codes *)

Section TableFacts.
Context {row : Type} (pk : row -> uuid.UUID).

Lemma least_In : forall rows r, gorm.least pk r rows = r \/ In (gorm.least pk r rows) rows.
Proof.
  induction rows as [|r' rows IH]; intros r; simpl; [left; reflexivity|].
  destruct (String.ltb (pk r') (pk r)).
  - destruct (IH r') as [H|H]; [right; left; symmetry; exact H|right; right; exact H].
  - destruct (IH r) as [H|H]; [left; exact H|right; right; exact H].
Qed.

Lemma First_Ok : forall cond rows r,
  gorm.First pk cond rows = Ok r -> In r rows /\ cond r = true.
Proof.
  unfold gorm.First. intros cond rows r.
  destruct (filter cond rows) as [|r0 rest] eqn:E; [discriminate|].
  intros H. injection H as <-.
  apply filter_In. rewrite E.
  destruct (least_In rest r0) as [->|H]; [left; reflexivity|right; assumption].
Qed.

Lemma First_Err : forall cond rows,
  (forall r, In r rows -> cond r = false) ->
  gorm.First pk cond rows = Err gorm.ErrRecordNotFound.
Proof.
  unfold gorm.First. intros cond rows H.
  destruct (filter cond rows) as [|r0 rest] eqn:E; [reflexivity|].
  assert (Hin : In r0 (filter cond rows)) by (rewrite E; left; reflexivity).
  apply filter_In in Hin as [Hin Hc]. rewrite (H _ Hin) in Hc. discriminate.
Qed.

Lemma First_Err_inv : forall cond rows e,
  gorm.First pk cond rows = Err e -> forall r, In r rows -> cond r = false.
Proof.
  unfold gorm.First. intros cond rows e.
  destruct (filter cond rows) as [|r0 rest] eqn:E; [|discriminate].
  intros _ r Hin. destruct (cond r) eqn:Hc; [|reflexivity].
  assert (In r (filter cond rows)) by (apply filter_In; auto).
  rewrite E in H. destruct H.
Qed.

Lemma First_unique : forall cond rows r,
  In r rows -> cond r = true ->
  (forall r', In r' rows -> cond r' = true -> r' = r) ->
  gorm.First pk cond rows = Ok r.
Proof.
  intros cond rows r Hin Hc Huniq. unfold gorm.First.
  destruct (filter cond rows) as [|r0 rest] eqn:E.
  - assert (H : In r (filter cond rows)) by (apply filter_In; auto).
    rewrite E in H. destruct H.
  - f_equal.
    assert (H0 : In (gorm.least pk r0 rest) (filter cond rows)).
    { rewrite E. destruct (least_In rest r0) as [->|H]; [left|right]; auto. }
    apply filter_In in H0 as [H1 H2]. auto.
Qed.

Lemma In_Delete : forall value rows r,
  pk value <> uuid.Nil ->
  In r (gorm.Delete pk value rows) <-> In r rows /\ pk r <> pk value.
Proof.
  intros value rows r Hnil. unfold gorm.Delete.
  apply String.eqb_neq in Hnil. rewrite Hnil.
  rewrite filter_In. rewrite negb_true_iff, String.eqb_neq. tauto.
Qed.
End TableFacts.

Lemma NoDup_map_inj : forall {A B : Type} (f : A -> B) (l : list A) (x y : A),
  NoDup (map f l) -> In x l -> In y l -> f x = f y -> x = y.
Proof.
  intros A B f l. induction l as [|a l IH]; intros x y Hnd Hx Hy Hf; [destruct Hx|].
  simpl in Hnd. inversion Hnd as [|? ? Hnotin Hnd']; subst.
  destruct Hx as [<-|Hx], Hy as [<-|Hy]; auto.
  - exfalso. apply Hnotin. rewrite Hf. apply in_map. assumption.
  - exfalso. apply Hnotin. rewrite <- Hf. apply in_map. assumption.
Qed.

(** After the row found for [code] has been deleted, no row of the table
    bears that code. *)
Lemma consumed_code_is_gone :
  forall o db now code clientID clientSecret authCode db',
    codes_consistent (gorm.authorization_codes db) ->
    oauth.ValidateAuthorizationCode o db now code clientID clientSecret = (Ok authCode, db') ->
    In authCode (gorm.authorization_codes db)
    /\ AuthorizationCode.Code authCode = code
    /\ gorm.authorization_codes db'
       = gorm.Delete AuthorizationCode.ID authCode (gorm.authorization_codes db)
    /\ forall r, In r (gorm.authorization_codes db') -> AuthorizationCode.Code r <> code.
Proof.
  intros o db now code clientID clientSecret authCode db' (Hid & Hcode & Hnil).
  unfold oauth.ValidateAuthorizationCode.
  destruct (gorm.First _ _ _) as [r0|e] eqn:E; [|discriminate].
  destruct (negb _); [discriminate|].
  intros H. injection H as <- <-.
  apply First_Ok in E as [Hin Hlive].
  unfold oauth.live_code in Hlive.
  apply andb_true_iff in Hlive as [Hlive _]. apply andb_true_iff in Hlive as [Hc _].
  apply String.eqb_eq in Hc.
  repeat split; auto.
  intros r Hr Hrc. simpl in Hr.
  apply In_Delete in Hr as [Hr Hne].
  - apply Hne. f_equal. eapply NoDup_map_inj; eauto. congruence.
  - rewrite Forall_forall in Hnil. auto.
Qed.

Lemma no_live_code_invalid_grant :
  forall o db now code clientID clientSecret,
    (forall r, In r (gorm.authorization_codes db) ->
               oauth.live_code code clientID now r = false) ->
    oauth.ValidateAuthorizationCode o db now code clientID clientSecret
    = (Err oauth.invalid_grant, db).
Proof.
  intros. unfold oauth.ValidateAuthorizationCode.
  rewrite First_Err by assumption. reflexivity.
Qed.

Lemma live_code_other_code : forall code clientID now r,
  AuthorizationCode.Code r <> code -> oauth.live_code code clientID now r = false.
Proof.
  intros. unfold oauth.live_code. apply String.eqb_neq in H. rewrite H. reflexivity.
Qed.

(** C3.  After [ValidateAuthorizationCode] has returned a code, the row is
    gone from the table, and any later call with the same code string fails
    with the invalid-grant error and leaves the store as it is. *)
Theorem authorization_code_single_use :
  forall (o : oauth.OAuthManager) (db : gorm.DB) (now : time.Time)
         (code clientID clientSecret : string)
         (authCode : AuthorizationCode.t) (db' : gorm.DB),
    codes_consistent (gorm.authorization_codes db) ->
    oauth.ValidateAuthorizationCode o db now code clientID clientSecret = (Ok authCode, db') ->
    ~ In authCode (gorm.authorization_codes db')
    /\ forall (now' : time.Time) (clientID' clientSecret' : string),
         oauth.ValidateAuthorizationCode o db' now' code clientID' clientSecret'
         = (Err oauth.invalid_grant, db').
Proof.
  intros o db now code clientID clientSecret authCode db' Hc Hv.
  destruct (consumed_code_is_gone _ _ _ _ _ _ _ _ Hc Hv) as (Hin & Hcode & Hdb & Hgone).
  split.
  - intros H. apply (Hgone _ H). assumption.
  - intros. apply no_live_code_invalid_grant.
    intros r Hr. apply live_code_other_code. auto.
Qed.

(** C8.  [ValidateAuthorizationCode] returns the same error, and leaves
    the store as it is, for a code whose rows have all expired, for a code
    that is in no row, and for a code that an earlier call has consumed. *)
Theorem invalid_grant_is_uniform :
  forall (o : oauth.OAuthManager) (now : time.Time) (code clientID clientSecret : string),
    (forall db,
       (forall r, In r (gorm.authorization_codes db) ->
                  AuthorizationCode.Code r = code ->
                  time.After (AuthorizationCode.ExpiresAt r) now = false) ->
       oauth.ValidateAuthorizationCode o db now code clientID clientSecret
       = (Err oauth.invalid_grant, db))
    /\ (forall db,
          ~ In code (map AuthorizationCode.Code (gorm.authorization_codes db)) ->
          oauth.ValidateAuthorizationCode o db now code clientID clientSecret
          = (Err oauth.invalid_grant, db))
    /\ (forall db0 now0 clientID0 clientSecret0 authCode db,
          codes_consistent (gorm.authorization_codes db0) ->
          oauth.ValidateAuthorizationCode o db0 now0 code clientID0 clientSecret0
          = (Ok authCode, db) ->
          oauth.ValidateAuthorizationCode o db now code clientID clientSecret
          = (Err oauth.invalid_grant, db)).
Proof.
  intros o now code clientID clientSecret. repeat split.
  - intros db H. apply no_live_code_invalid_grant. intros r Hr.
    unfold oauth.live_code.
    destruct (String.eqb (AuthorizationCode.Code r) code) eqn:E; [|reflexivity].
    apply String.eqb_eq in E. rewrite (H r Hr E). apply andb_false_r.
  - intros db H. apply no_live_code_invalid_grant. intros r Hr.
    apply live_code_other_code. intros Hc. apply H. rewrite <- Hc. apply in_map. assumption.
  - intros db0 now0 clientID0 clientSecret0 authCode db Hc Hv.
    destruct (consumed_code_is_gone _ _ _ _ _ _ _ _ Hc Hv) as (_ & _ & _ & Hgone).
    apply no_live_code_invalid_grant. intros r Hr. apply live_code_other_code. auto.
Qed.

(** C9.  On a live code, [ValidateAuthorizationCode] with a secret that is
    not the configured one fails with the client-secret error and leaves the
    store as it is; a later call with the configured secret, while the code
    has not expired, returns the code. *)
Theorem wrong_client_secret_keeps_code :
  forall (o : oauth.OAuthManager) (db : gorm.DB) (now : time.Time)
         (code clientID clientSecret : string) (authCode : AuthorizationCode.t),
    codes_consistent (gorm.authorization_codes db) ->
    In authCode (gorm.authorization_codes db) ->
    oauth.live_code code clientID now authCode = true ->
    clientSecret <> config.ClientSecret (oauth.config o) ->
    oauth.ValidateAuthorizationCode o db now code clientID clientSecret
    = (Err oauth.invalid_client, db)
    /\ forall now' : time.Time,
         time.After (AuthorizationCode.ExpiresAt authCode) now' = true ->
         oauth.ValidateAuthorizationCode o db now' code clientID
           (config.ClientSecret (oauth.config o))
         = (Ok authCode,
            oauth.set_authorization_codes db
              (gorm.Delete AuthorizationCode.ID authCode (gorm.authorization_codes db))).
Proof.
  intros o db now code clientID clientSecret authCode (Hid & Hcode & Hnil) Hin Hlive Hsecret.
  assert (Hfirst : forall t, time.After (AuthorizationCode.ExpiresAt authCode) t = true ->
            gorm.First AuthorizationCode.ID (oauth.live_code code clientID t)
              (gorm.authorization_codes db) = Ok authCode).
  { intros t Ht. unfold oauth.live_code in Hlive.
    apply andb_true_iff in Hlive as [Hlive _]. apply andb_true_iff in Hlive as [Hc Hcl].
    apply First_unique; auto.
    - unfold oauth.live_code. rewrite Hc, Hcl, Ht. reflexivity.
    - intros r' Hr' Hl'. unfold oauth.live_code in Hl'.
      apply andb_true_iff in Hl' as [Hl' _]. apply andb_true_iff in Hl' as [Hc' _].
      apply String.eqb_eq in Hc, Hc'.
      eapply NoDup_map_inj; eauto. congruence. }
  split.
  - unfold oauth.ValidateAuthorizationCode. rewrite Hfirst.
    + apply String.eqb_neq in Hsecret. rewrite Hsecret. reflexivity.
    + unfold oauth.live_code in Hlive. apply andb_true_iff in Hlive as [_ H]. exact H.
  - intros now' Hnow'. unfold oauth.ValidateAuthorizationCode.
    rewrite (Hfirst _ Hnow'). rewrite String.eqb_refl. reflexivity.
Qed.

(** ** The request authorizer *)

Lemma run_passed : forall handlers pos c,
  pos + Z.of_nat (List.length handlers) <= gin.index c -> gin.run handlers pos c = c.
Proof.
  induction handlers as [|h rest IH]; intros pos c H; simpl; [reflexivity|].
  simpl List.length in H.
  replace (gin.index c =? pos) with false by (symmetry; apply Z.eqb_neq; lia).
  apply IH. lia.
Qed.

(** A handler that aborts without calling [Next] ends the chain. *)
Lemma handle_abort : forall (h : gin.HandlerFunc) rest c code msg,
  (List.length rest <= 62)%nat ->
  (forall Next c0, gin.Header c0 = gin.Header c -> gin.Writer c0 = gin.Writer c ->
                   gin.Keys c0 = gin.Keys c ->
                   h Next c0 = middleware.reject c0 code msg) ->
  gin.handle (h :: rest) c
  = gin.mkContext (gin.Header c) (gin.Writer c ++ [(code, [("error", msg)])]) (gin.Keys c)
      (gin.abortIndex + 1).
Proof.
  intros h rest c code msg Hlen Hh. unfold gin.handle. simpl gin.run.
  rewrite Hh by reflexivity.
  rewrite run_passed.
  - reflexivity.
  - unfold middleware.reject, gin.Abort, gin.incr, gin.abortIndex. simpl gin.index. lia.
Qed.

(** C7.  When the bearer token passes [ValidateJWS] and the table of
    access tokens has no live row with that token string, [Authenticate]
    answers 401 and aborts: the handler that follows is not called, the keys
    of the context are unchanged, and no later handler of the chain runs. *)
Theorem Authenticate_rejects_token_without_record :
  forall (a : middleware.AuthMiddleware) (db : gorm.DB) (now db_now : time.Time)
         (c : gin.Context) (tokenString : string) (claims : jwt.Claims),
    gin.GetHeader c "Authorization" = ("Bearer " ++ tokenString)%string ->
    jwt.ValidateJWS (middleware.jwt_ a) now tokenString = Ok claims ->
    (forall r, In r (gorm.access_tokens db) -> AccessToken.Token r = tokenString ->
               time.After (AccessToken.ExpiresAt r) db_now = false) ->
    exists msg : string,
      (forall Next : gin.Context -> gin.Context,
         middleware.Authenticate a db now db_now Next c
         = gin.Abort (gin.JSON c gin.StatusUnauthorized [("error", msg)]))
      /\ (forall rest : list gin.HandlerFunc,
            (List.length rest <= 62)%nat ->
            gin.handle (middleware.Authenticate a db now db_now :: rest) c
            = gin.mkContext (gin.Header c)
                (gin.Writer c ++ [(gin.StatusUnauthorized, [("error", msg)])])
                (gin.Keys c) (gin.abortIndex + 1)).
Proof.
  intros a db now db_now c tok claims Hhdr Hval Hnone.
  assert (Hsplit : forall c0, gin.Header c0 = gin.Header c ->
            strings.Split (gin.GetHeader c0 "Authorization") " "
            = "Bearer" :: strings.Split tok " ").
  { intros c0 Hc0. unfold gin.GetHeader in *. rewrite Hc0, Hhdr.
    apply (Split_app "Bearer" " " tok). reflexivity. }
  assert (Hne : forall c0, gin.Header c0 = gin.Header c ->
            String.eqb (gin.GetHeader c0 "Authorization") EmptyString = false).
  { intros c0 Hc0. unfold gin.GetHeader in *. rewrite Hc0, Hhdr. reflexivity. }
  assert (Hcases : exists msg, forall Next c0, gin.Header c0 = gin.Header c ->
            middleware.Authenticate a db now db_now Next c0
            = middleware.reject c0 gin.StatusUnauthorized msg).
  { destruct (strings.Split tok " ") as [|p [|q l]] eqn:E.
    - eexists. intros Next c0 Hc0. unfold middleware.Authenticate.
      rewrite (Hne _ Hc0), (Hsplit _ Hc0). reflexivity.
    - assert (Hp : p = tok).
      { pose proof (Split_join tok " ") as Hj. rewrite E in Hj. exact Hj. }
      subst p. eexists. intros Next c0 Hc0. unfold middleware.Authenticate.
      rewrite (Hne _ Hc0), (Hsplit _ Hc0). simpl negb. cbv iota.
      rewrite Hval.
      rewrite First_Err; [reflexivity|].
      intros r Hr. unfold oauth.live_token.
      destruct (String.eqb (AccessToken.Token r) tok) eqn:Et; [|reflexivity].
      apply String.eqb_eq in Et. rewrite (Hnone r Hr Et). reflexivity.
    - eexists. intros Next c0 Hc0. unfold middleware.Authenticate.
      rewrite (Hne _ Hc0), (Hsplit _ Hc0). reflexivity. }
  destruct Hcases as [msg Hmsg]. exists msg. split.
  - intros Next. apply Hmsg. reflexivity.
  - intros rest Hlen. apply handle_abort; [assumption|].
    intros Next c0 H0 _ _. apply Hmsg. assumption.
Qed.

(** ** The properties on the examples *)

Lemma demo_create_code :
  oauth.CreateAuthorizationCode demo.o demo.db0 demo.codeBytes demo.fresh1 demo.issued
    demo.uid "test-client" demo.scope
  = (Ok demo.authCode, demo.db1).
Proof. vm_compute. reflexivity. Qed.

Lemma demo_codes_consistent : codes_consistent (gorm.authorization_codes demo.db1).
Proof.
  repeat split.
  - repeat constructor. intros [].
  - repeat constructor. intros [].
  - repeat constructor. vm_compute. discriminate.
Qed.

(** C1, as amended.  When the configured expiration of tokens is 24 hours
    and the clock is read within the same second by [GenerateJWS] and by
    [CreateAccessToken], the expiry carried by the token a successful
    [CreateAccessToken] mints is the Unix time of the [ExpiresAt] of the row
    it stores. *)
Theorem access_token_expiry_matches_record :
  forall (o : oauth.OAuthManager) (db : gorm.DB) (now_jws now : time.Time)
         (fresh userID : uuid.UUID) (clientID scope : string)
         (accessToken : AccessToken.t) (db' : gorm.DB),
    wall_clock now_jws -> time.wf now ->
    config.Expiration (jwt.config (oauth.jwt_ o)) = 24 * time.Hour ->
    time.sec now_jws = time.sec now ->
    oauth.CreateAccessToken o db now_jws now fresh userID clientID scope
    = (Ok accessToken, db') ->
    embedded_exp (AccessToken.Token accessToken)
    = Some (time.Unix_ (AccessToken.ExpiresAt accessToken)).
Proof.
  intros o db now_jws now fresh userID clientID scope accessToken db' Hclock Hnow H24 Hsame Hc.
  assert (Httl : 0 <= config.Expiration (jwt.config (oauth.jwt_ o)) < 2 ^ 63)
    by (rewrite H24; split; [discriminate|reflexivity]).
  destruct (CreateAccessToken_expiries o db now_jws now fresh userID clientID scope
              accessToken db' Hclock Hnow Httl Hc) as (_ & _ & H).
  apply H; assumption.
Qed.

Lemma access_token_expiry_matches_record_witness :
  exists accessToken db',
    oauth.CreateAccessToken demo.o demo.db0 demo.issued demo.issued demo.fresh2 demo.uid
      "test-client" demo.scope = (Ok accessToken, db')
    /\ embedded_exp (AccessToken.Token accessToken)
       = Some (time.Unix_ (AccessToken.ExpiresAt accessToken)).
Proof.
  eexists. eexists. split.
  - vm_compute. reflexivity.
  - apply (access_token_expiry_matches_record demo.o demo.db0 demo.issued demo.issued
             demo.fresh2 demo.uid "test-client" demo.scope _
             (snd (oauth.CreateAccessToken demo.o demo.db0 demo.issued demo.issued demo.fresh2
                     demo.uid "test-client" demo.scope))).
    + split; [split; closed|split; closed].
    + split; closed.
    + vm_compute. reflexivity.
    + reflexivity.
    + vm_compute. reflexivity.
Defined.

Lemma access_token_expiry_differs :
  (exists accessToken db',
     oauth.CreateAccessToken demo.o_1h demo.db0 demo.issued demo.issued demo.fresh2 demo.uid
       "test-client" demo.scope = (Ok accessToken, db')
     /\ embedded_exp (AccessToken.Token accessToken) = Some 1700003600
     /\ time.Unix_ (AccessToken.ExpiresAt accessToken) = 1700086400)
  /\ (exists accessToken db',
        oauth.CreateAccessToken demo.o demo.db0 (time.mkTime 1700000000 999999999)
          (time.mkTime 1700000001 1000) demo.fresh2 demo.uid "test-client" demo.scope
        = (Ok accessToken, db')
        /\ embedded_exp (AccessToken.Token accessToken) = Some 1700086400
        /\ time.Unix_ (AccessToken.ExpiresAt accessToken) = 1700086401).
Proof.
  split; (eexists; eexists; split; [vm_compute; reflexivity|split; vm_compute; reflexivity]).
Qed.

Lemma ValidateJWS_GenerateJWS_witness :
  exists (jws : string) (claims : jwt.Claims),
    jwt.GenerateJWS demo.j demo.issued demo.user demo.scope = Ok jws
    /\ jwt.ValidateJWS demo.j demo.on_time jws = Ok claims
    /\ jwt.UserID claims = User.ID demo.user
    /\ jwt.Scope claims = demo.scope.
Proof.
  apply (ValidateJWS_GenerateJWS demo.j demo.issued demo.on_time demo.user demo.scope).
  - reflexivity.
  - vm_compute. reflexivity.
  - split; closed.
  - split; [split; closed|split; closed].
  - split; closed.
  - closed.
Defined.

Lemma ValidateJWS_GenerateJWS_fails :
  (unix_nano demo.within_ttl
   < unix_nano demo.issued + config.Expiration (jwt.config demo.j)
   /\ jwt.GenerateJWS demo.j demo.issued demo.user demo.scope = Ok demo.token
   /\ jwt.ValidateJWS demo.j demo.within_ttl demo.token = Err (Errorf "token expired"))
  /\ (exists jws claims,
        jwt.GenerateJWS demo.j demo.issued demo.user (String "255" EmptyString) = Ok jws
        /\ jwt.ValidateJWS demo.j demo.issued jws = Ok claims
        /\ jwt.Scope claims = string_of_bytes [0xEF; 0xBF; 0xBD]
        /\ jwt.Scope claims <> String "255" EmptyString).
Proof.
  split.
  - split; [closed|split; closed].
  - eexists. eexists. split; [vm_compute; reflexivity|].
    split; [vm_compute; reflexivity|]. split; [reflexivity|]. discriminate.
Qed.

Lemma authorization_code_single_use_witness :
  oauth.ValidateAuthorizationCode demo.o demo.db1 demo.issued demo.code "test-client"
    "test-secret" = (Ok demo.authCode, demo.db0)
  /\ ~ In demo.authCode (gorm.authorization_codes demo.db0)
  /\ oauth.ValidateAuthorizationCode demo.o demo.db0 demo.issued demo.code "test-client"
       "test-secret" = (Err oauth.invalid_grant, demo.db0).
Proof.
  assert (H : oauth.ValidateAuthorizationCode demo.o demo.db1 demo.issued demo.code
                "test-client" "test-secret" = (Ok demo.authCode, demo.db0))
    by (vm_compute; reflexivity).
  split; [exact H|].
  destruct (authorization_code_single_use demo.o demo.db1 demo.issued demo.code
              "test-client" "test-secret" demo.authCode demo.db0
              demo_codes_consistent H) as [H1 H2].
  split; [exact H1|apply H2].
Defined.

Lemma invalid_grant_is_uniform_witness :
  oauth.ValidateAuthorizationCode demo.o demo.db1 demo.much_later demo.code "test-client"
    "test-secret" = (Err oauth.invalid_grant, demo.db1)
  /\ oauth.ValidateAuthorizationCode demo.o demo.db1 demo.much_later "unknown" "test-client"
       "test-secret" = (Err oauth.invalid_grant, demo.db1)
  /\ oauth.ValidateAuthorizationCode demo.o demo.db0 demo.much_later demo.code "test-client"
       "test-secret" = (Err oauth.invalid_grant, demo.db0).
Proof.
  destruct (invalid_grant_is_uniform demo.o demo.much_later demo.code "test-client"
              "test-secret") as (Hexpired & _ & Hconsumed).
  destruct (invalid_grant_is_uniform demo.o demo.much_later "unknown" "test-client"
              "test-secret") as (_ & Habsent & _).
  split; [|split].
  - apply Hexpired. intros r [<-|[]] _. vm_compute. reflexivity.
  - apply Habsent. intros [H|[]]. vm_compute in H. discriminate.
  - apply (Hconsumed demo.db1 demo.issued "test-client" "test-secret" demo.authCode).
    + exact demo_codes_consistent.
    + vm_compute. reflexivity.
Defined.

Lemma wrong_client_secret_keeps_code_witness :
  oauth.ValidateAuthorizationCode demo.o demo.db1 demo.issued demo.code "test-client"
    "wrong-secret" = (Err oauth.invalid_client, demo.db1)
  /\ oauth.ValidateAuthorizationCode demo.o demo.db1 demo.issued demo.code "test-client"
       (config.ClientSecret (oauth.config demo.o))
     = (Ok demo.authCode,
        oauth.set_authorization_codes demo.db1
          (gorm.Delete AuthorizationCode.ID demo.authCode
             (gorm.authorization_codes demo.db1))).
Proof.
  destruct (wrong_client_secret_keeps_code demo.o demo.db1 demo.issued demo.code
              "test-client" "wrong-secret" demo.authCode) as [H1 H2].
  - exact demo_codes_consistent.
  - left. reflexivity.
  - vm_compute. reflexivity.
  - vm_compute. discriminate.
  - split; [exact H1|]. apply H2. vm_compute. reflexivity.
Defined.

Lemma ValidateJWS_without_exp_never_expires_witness :
  jwt.ValidateJWS demo.j demo.much_later demo.no_exp_token
  = Ok (claims_of demo.no_exp_payload demo.uid).
Proof.
  apply (ValidateJWS_without_exp_never_expires demo.j demo.no_exp_token demo.headerB64
           demo.no_exp_payloadB64 demo.no_exp_signatureB64 demo.no_exp_bytes
           demo.no_exp_payload (uuid.String_ demo.uid) demo.uid);
    vm_compute; reflexivity.
Defined.

Lemma ValidateJWS_rejects_expired_witness :
  jwt.ValidateJWS demo.j demo.later demo.token = Err (Errorf "token expired").
Proof.
  apply (ValidateJWS_rejects_expired demo.j demo.later demo.token demo.headerB64
           demo.payloadB64 demo.signatureB64 demo.payloadBytes demo.payload (1700086400 # 1)).
  - vm_compute. reflexivity.
  - vm_compute. reflexivity.
  - vm_compute. reflexivity.
  - vm_compute. reflexivity.
  - vm_compute. reflexivity.
  - split; closed.
  - closed.
  - closed.
Defined.

Lemma ValidateJWS_accepts_expired_at_epoch :
  strings.Split demo.early_token "."
  = [demo.headerB64; demo.early_payloadB64; demo.early_signatureB64]
  /\ demo.early_signatureB64 = jwt.sign demo.j (demo.headerB64 ++ "." ++ demo.early_payloadB64)
  /\ base64.RawURLEncoding.DecodeString demo.early_payloadB64 = Ok demo.early_bytes
  /\ json.Unmarshal demo.early_bytes = Ok demo.early_payload
  /\ jwt.float64_field demo.early_payload "exp"
     = Some (-4503599627370496 # 9007199254740992)
  /\ ((-4503599627370496 # 9007199254740992) < seconds demo.epoch)%Q
  /\ jwt.ValidateJWS demo.j demo.epoch demo.early_token
     = Ok (claims_of demo.early_payload demo.uid).
Proof.
  split; [vm_compute; reflexivity|]. split; [vm_compute; reflexivity|].
  split; [vm_compute; reflexivity|]. split; [vm_compute; reflexivity|].
  split; [vm_compute; reflexivity|]. split; [vm_compute; reflexivity|].
  vm_compute. reflexivity.
Qed.

Lemma ValidateJWS_format_then_signature_witness :
  jwt.ValidateJWS demo.j demo.on_time "only.two" = Err (Errorf "invalid JWS format")
  /\ jwt.ValidateJWS demo.j demo.on_time
       (demo.headerB64 ++ "." ++ demo.payloadB64 ++ "." ++ demo.no_exp_signatureB64)
     = Err (Errorf "invalid signature").
Proof.
  split.
  - apply (proj1 (ValidateJWS_format_then_signature demo.j demo.on_time "only.two")).
    vm_compute. discriminate.
  - apply (proj1 (proj2 (ValidateJWS_format_then_signature demo.j demo.on_time
                           (demo.headerB64 ++ "." ++ demo.payloadB64 ++ "."
                            ++ demo.no_exp_signatureB64))
                    demo.headerB64 demo.payloadB64 demo.no_exp_signatureB64
                    ltac:(vm_compute; reflexivity))).
    vm_compute. discriminate.
Defined.

Lemma Authenticate_rejects_token_without_record_witness :
  exists msg : string,
    (forall Next : gin.Context -> gin.Context,
       middleware.Authenticate demo.a demo.db0 demo.on_time demo.on_time Next demo.request
       = gin.Abort (gin.JSON demo.request gin.StatusUnauthorized [("error", msg)]))
    /\ (forall rest : list gin.HandlerFunc,
          (List.length rest <= 62)%nat ->
          gin.handle (middleware.Authenticate demo.a demo.db0 demo.on_time demo.on_time :: rest)
            demo.request
          = gin.mkContext (gin.Header demo.request)
              (gin.Writer demo.request ++ [(gin.StatusUnauthorized, [("error", msg)])])
              (gin.Keys demo.request) (gin.abortIndex + 1)).
Proof.
  apply (Authenticate_rejects_token_without_record demo.a demo.db0 demo.on_time demo.on_time
           demo.request demo.token
           (jwt.mkClaims demo.uid "user@example.com" demo.scope)).
  - reflexivity.
  - vm_compute. reflexivity.
  - intros r [].
Defined.

(** * Further properties *)

(** ** Issued and verified tokens *)

Lemma sign_secret : forall j j' input,
  config.Secret (jwt.config j') = config.Secret (jwt.config j) ->
  jwt.sign j' input = jwt.sign j input.
Proof. intros j j' input H. unfold jwt.sign. rewrite H. reflexivity. Qed.

Lemma Split3 : forall h p s,
  has_byte "." h = false -> has_byte "." p = false -> has_byte "." s = false ->
  strings.Split (h ++ "." ++ p ++ "." ++ s) "." = [h; p; s].
Proof.
  intros h p s Hh Hp Hs.
  change (h ++ "." ++ p ++ "." ++ s)%string with (h ++ String "." (p ++ String "." s))%string.
  rewrite (Split_app h "." _ Hh), (Split_app p "." _ Hp), (Split_no_sep s "." Hs).
  reflexivity.
Qed.

Lemma ValidateJWS_signed : forall j now h p,
  has_byte "." h = false -> has_byte "." p = false ->
  jwt.ValidateJWS j now (h ++ "." ++ p ++ "." ++ jwt.sign j (h ++ "." ++ p))
  = jwt.validate_payload now p.
Proof.
  intros j now h p Hh Hp. unfold jwt.ValidateJWS.
  assert (Hs : has_byte "." (jwt.sign j (h ++ "." ++ p)) = false)
    by apply EncodeToString_no_dot.
  rewrite (Split3 h p _ Hh Hp Hs).
  rewrite String.eqb_refl. reflexivity.
Qed.

Lemma GenerateJWS_text : forall j now user scope,
  jwt.GenerateJWS j now user scope
  = Ok (jws_header ++ "."
        ++ base64.RawURLEncoding.EncodeToString
             (payload_text (uuid.String_ (User.ID user)) (User.Email user) scope
                (config.Issuer (jwt.config j)) (config.Audience (jwt.config j))
                (time.Unix_ (time.Add now (config.Expiration (jwt.config j))))
                (time.Unix_ now) (time.Unix_ now))
        ++ "."
        ++ jwt.sign j
             (jws_header ++ "."
              ++ base64.RawURLEncoding.EncodeToString
                   (payload_text (uuid.String_ (User.ID user)) (User.Email user) scope
                      (config.Issuer (jwt.config j)) (config.Audience (jwt.config j))
                      (time.Unix_ (time.Add now (config.Expiration (jwt.config j))))
                      (time.Unix_ now) (time.Unix_ now))))%string.
Proof.
  intros j now user scope.
  set (text := payload_text _ _ _ _ _ _ _ _).
  set (p := base64.RawURLEncoding.EncodeToString text).
  unfold jwt.GenerateJWS.
  rewrite Marshal_payload.
  replace (json.Marshal [("alg", json.AString "HS256"); ("typ", json.AString "JWT")])
    with (Ok header_json) by reflexivity.
  cbn [bind]. fold text. fold p.
  replace (base64.RawURLEncoding.EncodeToString header_json) with jws_header
    by (vm_compute; reflexivity).
  set (sig := jwt.sign j (jws_header ++ "." ++ p)).
  rewrite !append_assoc. reflexivity.
Qed.

(** X1.  [GenerateJWS] returns a token for every manager, clock reading,
    user and scope: the constant header, a payload segment and the
    signature of the two, which [strings.Split] on the dot gives back as
    exactly three segments; under the same manager [ValidateJWS] passes its
    format and signature checks on it and goes on to the payload. *)
Theorem GenerateJWS_passes_signature_check :
  forall (j : jwt.JWTManager) (issued : time.Time) (user : User.t) (scope : string),
  exists payloadB64 : string,
    jwt.GenerateJWS j issued user scope
    = Ok ("eyJhbGciOiJIUzI1NiIsInR5cCI6IkpXVCJ9" ++ "." ++ payloadB64 ++ "."
          ++ jwt.sign j ("eyJhbGciOiJIUzI1NiIsInR5cCI6IkpXVCJ9" ++ "." ++ payloadB64))%string
    /\ strings.Split
         ("eyJhbGciOiJIUzI1NiIsInR5cCI6IkpXVCJ9" ++ "." ++ payloadB64 ++ "."
          ++ jwt.sign j ("eyJhbGciOiJIUzI1NiIsInR5cCI6IkpXVCJ9" ++ "." ++ payloadB64))%string
         "."
       = ["eyJhbGciOiJIUzI1NiIsInR5cCI6IkpXVCJ9"; payloadB64;
          jwt.sign j ("eyJhbGciOiJIUzI1NiIsInR5cCI6IkpXVCJ9" ++ "." ++ payloadB64)%string]
    /\ forall now : time.Time,
         jwt.ValidateJWS j now
           ("eyJhbGciOiJIUzI1NiIsInR5cCI6IkpXVCJ9" ++ "." ++ payloadB64 ++ "."
            ++ jwt.sign j ("eyJhbGciOiJIUzI1NiIsInR5cCI6IkpXVCJ9" ++ "." ++ payloadB64))%string
         = jwt.validate_payload now payloadB64.
Proof.
  intros j issued user scope.
  eexists. split; [apply GenerateJWS_text|].
  fold jws_header.
  set (p := base64.RawURLEncoding.EncodeToString _).
  assert (Hh : has_byte "." jws_header = false) by reflexivity.
  assert (Hp : has_byte "." p = false) by apply EncodeToString_no_dot.
  clearbody p. split.
  - apply Split3; [assumption|assumption|apply EncodeToString_no_dot].
  - intros now. apply ValidateJWS_signed; assumption.
Qed.

(** X2.  [ValidateJWS] never decodes the header: two tokens with the same
    payload segment, each signed under the secret, get the same answer
    whatever their header segments are. *)
Theorem ValidateJWS_ignores_header :
  forall (j : jwt.JWTManager) (now : time.Time) (header1 header2 payloadB64 : string),
    has_byte "." header1 = false ->
    has_byte "." header2 = false ->
    has_byte "." payloadB64 = false ->
    jwt.ValidateJWS j now
      (header1 ++ "." ++ payloadB64 ++ "." ++ jwt.sign j (header1 ++ "." ++ payloadB64))
    = jwt.ValidateJWS j now
        (header2 ++ "." ++ payloadB64 ++ "." ++ jwt.sign j (header2 ++ "." ++ payloadB64)).
Proof.
  intros j now h1 h2 p H1 H2 Hp.
  rewrite !ValidateJWS_signed by assumption. reflexivity.
Qed.

(** ** Expiry *)

Lemma Before_nano : forall t u, time.wf t -> time.wf u ->
  time.Before t u = true <-> unix_nano t < unix_nano u.
Proof.
  intros [s n] [s' n'] Ht Hu. unfold time.wf, time.Before, unix_nano in *.
  cbn [time.sec time.nsec] in *.
  rewrite orb_true_iff, andb_true_iff, !Z.ltb_lt, Z.eqb_eq. lia.
Qed.

Lemma Before_nano_false : forall t u, time.wf t -> time.wf u ->
  time.Before t u = false <-> unix_nano u <= unix_nano t.
Proof.
  intros t u Ht Hu. pose proof (Before_nano t u Ht Hu) as H.
  destruct (time.Before t u); split; intros; try discriminate; try reflexivity.
  - assert (unix_nano t < unix_nano u) by (apply H; reflexivity). lia.
  - destruct (Z_lt_le_dec (unix_nano t) (unix_nano u)) as [L|L]; [|assumption].
    apply H in L. discriminate.
Qed.

Lemma Unix_in_range : forall z,
  - 2 ^ 63 <= z < 2 ^ 63 - time.unixToInternal -> time.Unix z = time.mkTime z 0.
Proof.
  intros z Hz. unfold time.Unix, time.wrap64, time.unixToInternal in *.
  f_equal. rewrite Z.mod_small by lia. lia.
Qed.

Lemma Unix_wraps : forall z,
  2 ^ 63 - time.unixToInternal <= z < 2 ^ 63 ->
  time.Unix z = time.mkTime (z - 2 ^ 64) 0.
Proof.
  intros z Hz. unfold time.Unix, time.wrap64, time.unixToInternal in *.
  f_equal.
  replace (z + 62135596800 + 2 ^ 63) with ((z + 62135596800 - 2 ^ 63) + 1 * 2 ^ 64) by lia.
  rewrite Z.mod_add by lia. rewrite Z.mod_small by lia. lia.
Qed.

Lemma int64_above : forall (f : Q) (N : Z),
  0 <= N -> (inject_Z N <= f)%Q ->
  let z := time.int64_of_float64 f in z = - 2 ^ 63 \/ N <= z < 2 ^ 63.
Proof.
  intros [num den] N HN Hle. unfold time.int64_of_float64. cbn [Qnum Qden].
  unfold Qle in Hle. cbn [Qnum Qden inject_Z] in Hle.
  destruct (_ && _) eqn:E; [|left; reflexivity].
  right. apply andb_true_iff in E. destruct E as [E1 E2].
  apply Z.ltb_lt in E2. split; [|assumption].
  assert (0 <= num) by nia.
  rewrite Z.quot_div_nonneg by lia.
  apply Z.div_le_lower_bound; lia.
Qed.

(** X3.  A correctly signed token whose payload has a valid UUID in [sub]
    and a number in [exp] is accepted by [ValidateJWS] at every instant up
    to the whole second [int64 exp], that instant included, as long as that
    second is one [time.Unix] represents without wrapping. *)
Theorem ValidateJWS_accepts_until_exp :
  forall (j : jwt.JWTManager) (now : time.Time)
         (jws headerB64 payloadB64 signatureB64 payloadBytes : string)
         (payload : json.gomap) (exp : json.float64) (userIDStr : string) (userID : uuid.UUID),
    strings.Split jws "." = [headerB64; payloadB64; signatureB64] ->
    signatureB64 = jwt.sign j (headerB64 ++ "." ++ payloadB64) ->
    base64.RawURLEncoding.DecodeString payloadB64 = Ok payloadBytes ->
    json.Unmarshal payloadBytes = Ok payload ->
    jwt.float64_field payload "exp" = Some exp ->
    jwt.string_field payload "sub" = Some userIDStr ->
    uuid.Parse userIDStr = Ok userID ->
    time.wf now ->
    time.int64_of_float64 exp < 2 ^ 63 - time.unixToInternal ->
    unix_nano now <= time.int64_of_float64 exp * 1000000000 ->
    jwt.ValidateJWS j now jws = Ok (claims_of payload userID).
Proof.
  intros j now jws h p s bytes payload exp userIDStr userID
         Hsplit Hsig Hdec Hjson Hexp Hsub Hparse Hwf Hrange Hle.
  unfold jwt.ValidateJWS. rewrite Hsplit, <- Hsig, String.eqb_refl. cbn [negb].
  unfold jwt.validate_payload. rewrite Hdec. unfold bind at 1. rewrite Hjson. unfold bind.
  rewrite Hexp.
  pose proof (int64_of_float64_range exp) as Hr.
  rewrite Unix_in_range by lia.
  assert (HB : time.Before (time.mkTime (time.int64_of_float64 exp) 0) now = false).
  { apply Before_nano_false; [unfold time.wf; cbn [time.nsec]; lia|assumption|].
    unfold unix_nano at 2. cbn [time.sec time.nsec]. lia. }
  rewrite HB, Hsub, Hparse. reflexivity.
Qed.

(** X4.  A correctly signed token whose [exp] is 2^63 - 62135596800 or
    more is rejected by [ValidateJWS] as expired at every instant after the
    epoch: the conversion to [int64] and the sum of [time.Unix] wrap to an
    instant in the past. *)
Theorem ValidateJWS_rejects_far_future_exp :
  forall (j : jwt.JWTManager) (now : time.Time)
         (jws headerB64 payloadB64 signatureB64 payloadBytes : string)
         (payload : json.gomap) (exp : json.float64),
    strings.Split jws "." = [headerB64; payloadB64; signatureB64] ->
    signatureB64 = jwt.sign j (headerB64 ++ "." ++ payloadB64) ->
    base64.RawURLEncoding.DecodeString payloadB64 = Ok payloadBytes ->
    json.Unmarshal payloadBytes = Ok payload ->
    jwt.float64_field payload "exp" = Some exp ->
    (inject_Z (2 ^ 63 - time.unixToInternal) <= exp)%Q ->
    0 <= time.sec now ->
    jwt.ValidateJWS j now jws = Err (Errorf "token expired").
Proof.
  intros j now jws h p s bytes payload exp Hsplit Hsig Hdec Hjson Hexp Hbig Hnow.
  unfold jwt.ValidateJWS. rewrite Hsplit, <- Hsig, String.eqb_refl. cbn [negb].
  unfold jwt.validate_payload. rewrite Hdec. unfold bind at 1. rewrite Hjson. unfold bind.
  rewrite Hexp.
  assert (HB : time.Before (time.Unix (time.int64_of_float64 exp)) now = true).
  { destruct (int64_above exp (2 ^ 63 - time.unixToInternal)
                ltac:(unfold time.unixToInternal; lia) Hbig) as [E|E].
    - rewrite E. rewrite Unix_in_range by (unfold time.unixToInternal; lia).
      unfold time.Before. cbn [time.sec]. apply orb_true_iff. left. apply Z.ltb_lt. lia.
    - rewrite Unix_wraps by assumption.
      unfold time.Before. cbn [time.sec]. apply orb_true_iff. left. apply Z.ltb_lt. lia. }
  rewrite HB. reflexivity.
Qed.

(** ** Issued tokens *)

Lemma ValidateJWS_issued : forall j issued now user scope,
  wall_clock issued -> 0 <= config.Expiration (jwt.config j) < 2 ^ 63 ->
  exists jws email' scope',
    jwt.GenerateJWS j issued user scope = Ok jws
    /\ (utf8.ValidString (User.Email user) = true -> email' = User.Email user)
    /\ (utf8.ValidString scope = true -> scope' = scope)
    /\ forall j', config.Secret (jwt.config j') = config.Secret (jwt.config j) ->
         jwt.ValidateJWS j' now jws
         = if time.Before
                (time.mkTime (time.Unix_ (time.Add issued (config.Expiration (jwt.config j)))) 0)
                now
           then Err (Errorf "token expired")
           else
             match uuid.Parse (uuid.String_ (User.ID user)) with
             | Err _ => Err (Errorf "invalid user ID format")
             | Ok userID => Ok (jwt.mkClaims userID email' scope')
             end.
Proof.
  intros j issued now user scope Hclock Httl.
  destruct (GenerateJWS_shape j issued user scope Hclock Httl)
    as (h & p & sub' & email' & scope' & iss' & aud' & Hgen & Hsplit
        & (bytes & Hdec & Hjson) & Vsub & Vemail & Vscope).
  rewrite (Vsub (all_ascii_valid _ (all_ascii_uuid _))) in Hjson.
  eexists. exists email', scope'.
  split; [exact Hgen|]. split; [exact Vemail|]. split; [exact Vscope|].
  intros j' Hsecret.
  unfold jwt.ValidateJWS. rewrite Hsplit.
  rewrite (sign_secret j j' _ Hsecret), String.eqb_refl. cbn [negb].
  unfold jwt.validate_payload. rewrite Hdec. unfold bind at 1. rewrite Hjson. unfold bind.
  destruct (payload_fields (uuid.String_ (User.ID user)) email' scope' iss' aud'
              (time.Unix_ (time.Add issued (config.Expiration (jwt.config j))) # 1)
              (time.Unix_ issued # 1) (time.Unix_ issued # 1)) as (F1 & F2 & F3 & F4).
  rewrite F1, F2, F3, F4.
  destruct Hclock as [Hwf Hsec].
  pose proof (Add_Unix_bounds issued (config.Expiration (jwt.config j)) Hwf Httl) as Hb.
  rewrite int64_of_integer by lia. rewrite Unix_small by lia.
  reflexivity.
Qed.

(** X5.  [ValidateJWS] checks neither the issuer nor the audience: a
    token that a manager with the same secret issues, whatever its issuer,
    audience and expiration are, is accepted up to its expiry second with
    the identifier of the user and the scope. *)
Theorem ValidateJWS_checks_only_the_secret :
  forall (j j' : jwt.JWTManager) (issued now : time.Time) (user : User.t) (scope : string),
    config.Secret (jwt.config j') = config.Secret (jwt.config j) ->
    uuid.wf (User.ID user) ->
    utf8.ValidString scope = true ->
    0 <= config.Expiration (jwt.config j') < 2 ^ 63 ->
    wall_clock issued -> time.wf now ->
    unix_nano now
      <= time.Unix_ (time.Add issued (config.Expiration (jwt.config j'))) * 1000000000 ->
    exists (jws : string) (claims : jwt.Claims),
      jwt.GenerateJWS j' issued user scope = Ok jws
      /\ jwt.ValidateJWS j now jws = Ok claims
      /\ jwt.UserID claims = User.ID user
      /\ jwt.Scope claims = scope.
Proof.
  intros j j' issued now user scope Hsecret Hid Hscope Httl Hclock Hnow Hle.
  destruct (ValidateJWS_issued j' issued now user scope Hclock Httl)
    as (jws & email' & scope' & Hgen & _ & Vscope & Hval).
  exists jws, (jwt.mkClaims (User.ID user) email' scope).
  split; [exact Hgen|]. split; [|split; reflexivity].
  rewrite (Hval j (eq_sym Hsecret)).
  assert (HB : time.Before
                 (time.mkTime (time.Unix_ (time.Add issued (config.Expiration (jwt.config j')))) 0)
                 now = false).
  { apply Before_nano_false; [unfold time.wf; cbn [time.nsec]; lia|assumption|].
    unfold unix_nano at 2. cbn [time.sec time.nsec]. lia. }
  rewrite HB, Parse_String by assumption. rewrite (Vscope Hscope). reflexivity.
Qed.

(** X6.  [HasScope] never grants a required scope that contains a space,
    whatever the scope of the claims is. *)
Theorem HasScope_rejects_scope_with_space :
  forall (j : jwt.JWTManager) (claims : jwt.Claims) (requiredScope : string),
    has_byte " " requiredScope = true ->
    jwt.HasScope j claims requiredScope = false.
Proof.
  intros j claims required Hsp. unfold jwt.HasScope.
  destruct (String.eqb (jwt.Scope claims) EmptyString); [reflexivity|].
  destruct (jwt.contains _ _) eqn:E; [|reflexivity].
  apply contains_In in E. apply Split_pieces in E. congruence.
Qed.

(** ** The store of codes, tokens and users *)

(** ** Clock arithmetic *)

Lemma Add_nano : forall t d, time.wf t ->
  time.wf (time.Add t d) /\ unix_nano (time.Add t d) = unix_nano t + d.
Proof.
  intros [s n] d Hwf. unfold time.wf, time.Add, unix_nano in *. cbn [time.sec time.nsec] in *.
  pose proof (Z.quot_rem' d 1000000000) as Hd.
  pose proof (Z.rem_bound_abs d 1000000000 ltac:(lia)) as Hr.
  assert (Hrem : - 1000000000 < Z.rem d 1000000000 < 1000000000) by lia.
  destruct (Z.leb_spec 1000000000 (n + Z.rem d 1000000000));
    [|destruct (Z.ltb_spec (n + Z.rem d 1000000000) 0)];
    cbn [time.sec time.nsec]; lia.
Qed.

Lemma After_Add : forall t d u, time.wf t -> time.wf u ->
  time.After (time.Add t d) u = true <-> unix_nano u < unix_nano t + d.
Proof.
  intros t d u Ht Hu. unfold time.After.
  destruct (Add_nano t d Ht) as [Hwf Hn].
  rewrite (Before_nano u (time.Add t d) Hu Hwf), Hn. reflexivity.
Qed.

Lemma After_Add_false : forall t d u, time.wf t -> time.wf u ->
  time.After (time.Add t d) u = false <-> unix_nano t + d <= unix_nano u.
Proof.
  intros t d u Ht Hu. unfold time.After.
  destruct (Add_nano t d Ht) as [Hwf Hn].
  rewrite (Before_nano_false u (time.Add t d) Hu Hwf), Hn. reflexivity.
Qed.

(** ** Tables *)

Lemma filter_none : forall {A : Type} (f : A -> bool) (l : list A),
  (forall x, In x l -> f x = false) -> filter f l = [].
Proof.
  intros A f l. induction l as [|a l IH]; intros H; [reflexivity|].
  cbn [filter]. rewrite (H a (or_introl eq_refl)). apply IH.
  intros x Hx. apply H. right. exact Hx.
Qed.


Lemma filter_filter_implied : forall {A : Type} (f g : A -> bool) (l : list A),
  (forall x, In x l -> f x = true -> g x = true) ->
  filter f (filter g l) = filter f l.
Proof.
  intros A f g l. induction l as [|a l IH]; intros H; [reflexivity|].
  cbn [filter].
  assert (IH' : filter f (filter g l) = filter f l)
    by (apply IH; intros x Hx; apply H; right; exact Hx).
  destruct (g a) eqn:G.
  - cbn [filter]. rewrite IH'. reflexivity.
  - destruct (f a) eqn:F.
    + rewrite (H a (or_introl eq_refl) F) in G. discriminate.
    + exact IH'.
Qed.

Section CreateFacts.
Context {row : Type} (pk : row -> uuid.UUID) (unique : row -> string).

Lemma Create_Ok : forall value rows rows',
  gorm.Create pk unique value rows = Ok rows' ->
  rows' = rows ++ [value]
  /\ forall r, In r rows -> pk r <> pk value /\ unique r <> unique value.
Proof.
  intros value rows rows' H. unfold gorm.Create in H.
  destruct (existsb _ rows) eqn:E; [discriminate|].
  injection H as <-. split; [reflexivity|].
  intros r Hr.
  assert (Hf : (String.eqb (pk r) (pk value) || String.eqb (unique r) (unique value)) = false).
  { destruct (_ || _) eqn:E'; [|reflexivity].
    assert (existsb (fun r => String.eqb (pk r) (pk value)
                              || String.eqb (unique r) (unique value)) rows = true)
      by (apply existsb_exists; exists r; split; assumption).
    congruence. }
  apply orb_false_iff in Hf. destruct Hf as [H1 H2].
  split; apply String.eqb_neq; assumption.
Qed.

Lemma Create_duplicate : forall value rows r,
  In r rows -> unique r = unique value ->
  gorm.Create pk unique value rows = Err gorm.ErrDuplicatedKey.
Proof.
  intros value rows r Hr Hu. unfold gorm.Create.
  assert (E : existsb (fun r => String.eqb (pk r) (pk value)
                                || String.eqb (unique r) (unique value)) rows = true).
  { apply existsb_exists. exists r. split; [exact Hr|].
    rewrite Hu, String.eqb_refl. apply orb_true_r. }
  rewrite E. reflexivity.
Qed.

Lemma First_created : forall cond value rows,
  (forall r, In r rows -> cond r = false) ->
  gorm.First pk cond (rows ++ [value])
  = if cond value then Ok value else Err gorm.ErrRecordNotFound.
Proof.
  intros cond value rows H. unfold gorm.First.
  rewrite filter_app, (filter_none cond rows H). cbn [app filter].
  destruct (cond value); reflexivity.
Qed.


Lemma First_filter : forall cond keep rows,
  (forall r, In r rows -> cond r = true -> keep r = true) ->
  gorm.First pk cond (filter keep rows) = gorm.First pk cond rows.
Proof.
  intros cond keep rows H. unfold gorm.First.
  rewrite (filter_filter_implied cond keep rows H). reflexivity.
Qed.

End CreateFacts.

(** ** Authorization codes *)



(** X8.  A stored code presented with a client identifier other than the
    one it was created for is refused with the invalid-grant error and
    stays in the store, whatever the secret is. *)
Theorem authorization_code_bound_to_client :
  forall (o : oauth.OAuthManager) (db : gorm.DB) (now : time.Time)
         (authCode : AuthorizationCode.t) (clientID clientSecret : string),
    codes_consistent (gorm.authorization_codes db) ->
    In authCode (gorm.authorization_codes db) ->
    clientID <> AuthorizationCode.ClientID authCode ->
    oauth.ValidateAuthorizationCode o db now (AuthorizationCode.Code authCode) clientID
      clientSecret
    = (Err oauth.invalid_grant, db).
Proof.
  intros o db now authCode clientID clientSecret (_ & Hcodes & _) Hin Hclient.
  apply no_live_code_invalid_grant. intros r Hr.
  destruct (String.eqb (AuthorizationCode.Code r) (AuthorizationCode.Code authCode)) eqn:E.
  - apply String.eqb_eq in E.
    assert (r = authCode) by (apply (NoDup_map_inj AuthorizationCode.Code _ _ _ Hcodes Hr Hin E)).
    subst r. unfold oauth.live_code.
    assert (E' : String.eqb (AuthorizationCode.ClientID authCode) clientID = false)
      by (apply String.eqb_neq; congruence).
    rewrite E'. rewrite andb_false_r. reflexivity.
  - apply live_code_other_code. apply String.eqb_neq. exact E.
Qed.

(** ** Access tokens *)

Lemma CreateAccessToken_Ok :
  forall o db now_jws now fresh userID clientID scope accessToken db',
    oauth.CreateAccessToken o db now_jws now fresh userID clientID scope
    = (Ok accessToken, db') ->
    exists tokenString,
      jwt.GenerateJWS (oauth.jwt_ o) now_jws (User.mk userID EmptyString EmptyString) scope
      = Ok tokenString
      /\ accessToken = AccessToken.mk fresh tokenString userID clientID scope
                         (time.Add now (24 * time.Hour))
      /\ db' = oauth.set_access_tokens db (gorm.access_tokens db ++ [accessToken])
      /\ forall r, In r (gorm.access_tokens db) ->
           AccessToken.ID r <> fresh /\ AccessToken.Token r <> tokenString.
Proof.
  intros o db now_jws now fresh userID clientID scope accessToken db' H.
  unfold oauth.CreateAccessToken in H.
  destruct (jwt.GenerateJWS _ _ _ _) as [tokenString|e] eqn:G; [|discriminate].
  unfold AccessToken.BeforeCreate in H. cbn [AccessToken.ID] in H.
  rewrite String.eqb_refl in H.
  cbn [AccessToken.Token AccessToken.UserID AccessToken.ClientID AccessToken.Scope
       AccessToken.ExpiresAt] in H.
  destruct (gorm.Create _ _ _ _) as [rows|e] eqn:C; [|discriminate].
  injection H as <- <-.
  apply Create_Ok in C. destruct C as [-> Hfresh].
  exists tokenString. split; [reflexivity|]. split; [reflexivity|].
  split; [reflexivity|exact Hfresh].
Qed.

(** X9.  The row [CreateAccessToken] stores has the user, the client and
    the scope it was called with, and its token, validated under the same
    manager up to its expiry second, gives claims with the user and the
    scope of the row and an empty email. *)
Theorem CreateAccessToken_record_matches_claims :
  forall (o : oauth.OAuthManager) (db : gorm.DB) (now_jws now : time.Time)
         (fresh userID : uuid.UUID) (clientID scope : string)
         (accessToken : AccessToken.t) (db' : gorm.DB),
    uuid.wf userID ->
    utf8.ValidString scope = true ->
    0 <= config.Expiration (jwt.config (oauth.jwt_ o)) < 2 ^ 63 ->
    wall_clock now_jws ->
    oauth.CreateAccessToken o db now_jws now fresh userID clientID scope
    = (Ok accessToken, db') ->
    In accessToken (gorm.access_tokens db')
    /\ AccessToken.UserID accessToken = userID
    /\ AccessToken.ClientID accessToken = clientID
    /\ AccessToken.Scope accessToken = scope
    /\ forall now' : time.Time,
         time.wf now' ->
         unix_nano now'
           <= time.Unix_ (time.Add now_jws (config.Expiration (jwt.config (oauth.jwt_ o))))
              * 1000000000 ->
         jwt.ValidateJWS (oauth.jwt_ o) now' (AccessToken.Token accessToken)
         = Ok (jwt.mkClaims (AccessToken.UserID accessToken) EmptyString
                 (AccessToken.Scope accessToken)).
Proof.
  intros o db now_jws now fresh userID clientID scope accessToken db'
         Hid Hscope Httl Hclock Hcreate.
  apply CreateAccessToken_Ok in Hcreate.
  destruct Hcreate as (tokenString & Hgen & -> & -> & _).
  cbn [AccessToken.UserID AccessToken.ClientID AccessToken.Scope AccessToken.Token].
  split.
  { unfold oauth.set_access_tokens. cbn [gorm.access_tokens].
    apply in_or_app. right. left. reflexivity. }
  split; [reflexivity|]. split; [reflexivity|]. split; [reflexivity|].
  intros now' Hwf' Hle.
  destruct (ValidateJWS_issued (oauth.jwt_ o) now_jws now'
              (User.mk userID EmptyString EmptyString) scope Hclock Httl)
    as (jws & email' & scope' & Hgen' & Vemail & Vscope & Hval).
  rewrite Hgen in Hgen'. injection Hgen' as <-.
  rewrite (Hval (oauth.jwt_ o) eq_refl).
  assert (HB : time.Before
                 (time.mkTime
                    (time.Unix_ (time.Add now_jws
                                   (config.Expiration (jwt.config (oauth.jwt_ o))))) 0)
                 now' = false).
  { apply Before_nano_false; [unfold time.wf; cbn [time.nsec]; lia|assumption|].
    unfold unix_nano at 2. cbn [time.sec time.nsec]. lia. }
  rewrite HB. cbn [User.ID User.Email] in *.
  rewrite Parse_String by assumption.
  rewrite (Vscope Hscope), (Vemail eq_refl). reflexivity.
Qed.

Lemma GenerateJWS_same_second : forall j now1 now2 user scope k,
  time.wf now1 -> time.wf now2 -> 0 <= k ->
  config.Expiration (jwt.config j) = k * time.Second ->
  time.sec now1 = time.sec now2 ->
  jwt.GenerateJWS j now1 user scope = jwt.GenerateJWS j now2 user scope.
Proof.
  intros j now1 now2 user scope k H1 H2 Hk Hexp Hsec.
  rewrite !GenerateJWS_text. rewrite Hexp.
  rewrite !Add_whole_seconds by assumption.
  unfold time.Unix_. cbn [time.sec]. rewrite Hsec. reflexivity.
Qed.

(** X10.  Under an expiration of whole seconds, once a token has been
    stored for a user and a scope, another [CreateAccessToken] for the same
    user and scope whose clock reading falls in the same second builds the
    same token string, fails on the unique column and leaves the store as
    it is. *)
Theorem CreateAccessToken_same_second_collides :
  forall (o : oauth.OAuthManager) (db : gorm.DB) (now_jws now : time.Time)
         (fresh userID : uuid.UUID) (clientID scope : string)
         (accessToken : AccessToken.t) (db' : gorm.DB) (k : Z),
    0 <= k ->
    config.Expiration (jwt.config (oauth.jwt_ o)) = k * time.Second ->
    time.wf now_jws ->
    oauth.CreateAccessToken o db now_jws now fresh userID clientID scope
    = (Ok accessToken, db') ->
    forall (now_jws2 now2 : time.Time) (fresh2 : uuid.UUID) (clientID2 : string),
      time.wf now_jws2 ->
      time.sec now_jws2 = time.sec now_jws ->
      exists e : error,
        oauth.CreateAccessToken o db' now_jws2 now2 fresh2 userID clientID2 scope
        = (Err e, db').
Proof.
  intros o db now_jws now fresh userID clientID scope accessToken db' k Hk Hexp Hwf Hcreate
         now_jws2 now2 fresh2 clientID2 Hwf2 Hsec.
  apply CreateAccessToken_Ok in Hcreate.
  destruct Hcreate as (tokenString & Hgen & -> & -> & _).
  exists gorm.ErrDuplicatedKey.
  unfold oauth.CreateAccessToken.
  rewrite (GenerateJWS_same_second (oauth.jwt_ o) now_jws2 now_jws _ scope k Hwf2 Hwf Hk Hexp Hsec).
  rewrite Hgen.
  unfold oauth.set_access_tokens at 1. cbn [gorm.access_tokens].
  erewrite Create_duplicate; [reflexivity| |].
  - apply in_or_app. right. left. reflexivity.
  - unfold AccessToken.BeforeCreate. cbn [AccessToken.ID]. rewrite String.eqb_refl.
    reflexivity.
Qed.

(** X11.  The row [CreateAccessToken] has stored is returned by
    [ValidateAccessToken] for its token at every instant less than 24 hours
    after the clock reading of the row, and from 24 hours on the call fails.
    The clock readings are in whole microseconds, which the database keeps. *)
Theorem CreateAccessToken_then_ValidateAccessToken :
  forall (o : oauth.OAuthManager) (db : gorm.DB) (now_jws now : time.Time)
         (fresh userID : uuid.UUID) (clientID scope : string)
         (accessToken : AccessToken.t) (db' : gorm.DB),
    microseconds now ->
    oauth.CreateAccessToken o db now_jws now fresh userID clientID scope
    = (Ok accessToken, db') ->
    forall now' : time.Time,
      microseconds now' ->
      (unix_nano now' < unix_nano now + 24 * time.Hour ->
       oauth.ValidateAccessToken o db' now' (AccessToken.Token accessToken) = Ok accessToken)
      /\ (unix_nano now + 24 * time.Hour <= unix_nano now' ->
          oauth.ValidateAccessToken o db' now' (AccessToken.Token accessToken)
          = Err (Errorf "invalid or expired access token")).
Proof.
  intros o db now_jws now fresh userID clientID scope accessToken db' [Hwf _] Hcreate
         now' [Hwf' _].
  apply CreateAccessToken_Ok in Hcreate.
  destruct Hcreate as (tokenString & Hgen & -> & -> & Hrows).
  set (accessToken := AccessToken.mk fresh tokenString userID clientID scope
                        (time.Add now (24 * time.Hour))) in *.
  cbn [AccessToken.Token accessToken].
  assert (Hother : forall r, In r (gorm.access_tokens db) ->
                             oauth.live_token tokenString now' r = false).
  { intros r Hr. unfold oauth.live_token.
    assert (E : String.eqb (AccessToken.Token r) tokenString = false)
      by (apply String.eqb_neq; apply (Hrows r Hr)).
    rewrite E. reflexivity. }
  assert (Hlive : oauth.live_token tokenString now' accessToken
                  = time.After (time.Add now (24 * time.Hour)) now').
  { unfold oauth.live_token, accessToken. cbn [AccessToken.Token AccessToken.ExpiresAt].
    rewrite String.eqb_refl. reflexivity. }
  unfold oauth.ValidateAccessToken, oauth.set_access_tokens. cbn [gorm.access_tokens].
  rewrite (First_created AccessToken.ID _ accessToken _ Hother), Hlive.
  split; intros H.
  - rewrite (proj2 (After_Add now (24 * time.Hour) now' Hwf Hwf') H). reflexivity.
  - rewrite (proj2 (After_Add_false now (24 * time.Hour) now' Hwf Hwf') H). reflexivity.
Qed.

(** ** Cleanup *)

Lemma Before_trans_false : forall e now now1,
  time.Before now e = true -> time.Before now now1 = false -> time.Before e now1 = false.
Proof.
  intros [s n] [s' n'] [s1 n1]. unfold time.Before. cbn [time.sec time.nsec].
  rewrite orb_true_iff, andb_true_iff, !orb_false_iff, !andb_false_iff,
          !Z.ltb_lt, !Z.ltb_ge, Z.eqb_eq, !Z.eqb_neq.
  lia.
Qed.

(** X12.  [CleanupExpiredTokens] removes nothing a later validation would
    accept: at any instant not before the clock reading of the cleanup,
    [ValidateAuthorizationCode] and [ValidateAccessToken] answer the same
    on the cleaned store as on the original one; the users are untouched. *)
Theorem CleanupExpiredTokens_keeps_what_validates :
  forall (o : oauth.OAuthManager) (db : gorm.DB) (now1 now2 now : time.Time),
    (time.Before now now1 = false ->
     forall code clientID clientSecret : string,
       fst (oauth.ValidateAuthorizationCode o (oauth.CleanupExpiredTokens o db now1 now2) now
              code clientID clientSecret)
       = fst (oauth.ValidateAuthorizationCode o db now code clientID clientSecret))
    /\ (time.Before now now2 = false ->
        forall tokenString : string,
          oauth.ValidateAccessToken o (oauth.CleanupExpiredTokens o db now1 now2) now
            tokenString
          = oauth.ValidateAccessToken o db now tokenString)
    /\ gorm.users (oauth.CleanupExpiredTokens o db now1 now2) = gorm.users db.
Proof.
  intros o db now1 now2 now. split; [|split; [|reflexivity]].
  - intros Hnow code clientID clientSecret.
    unfold oauth.ValidateAuthorizationCode, oauth.CleanupExpiredTokens, gorm.DeleteWhere.
    cbn [gorm.authorization_codes].
    rewrite First_filter.
    + destruct (gorm.First _ _ _); [|reflexivity].
      destruct (negb _); reflexivity.
    + intros r _ Hlive. unfold oauth.live_code in Hlive.
      apply andb_true_iff in Hlive. destruct Hlive as [_ Hafter].
      apply negb_true_iff. apply (Before_trans_false _ now); assumption.
  - intros Hnow tokenString.
    unfold oauth.ValidateAccessToken, oauth.CleanupExpiredTokens, gorm.DeleteWhere.
    cbn [gorm.access_tokens].
    rewrite First_filter; [reflexivity|].
    intros r _ Hlive. unfold oauth.live_token in Hlive.
    apply andb_true_iff in Hlive. destruct Hlive as [_ Hafter].
    apply negb_true_iff. apply (Before_trans_false _ now); assumption.
Qed.

(** ** Users *)

(** X13.  [AuthenticateUser] fails with the same error when no user has
    the email and when the password does not match the stored hash; when it
    succeeds, the user is a row of the table with that email whose hash
    matches the password. *)
Theorem AuthenticateUser_uniform_failure :
  forall (CompareHashAndPassword : string -> string -> bool)
         (o : oauth.OAuthManager) (db : gorm.DB) (email password : string),
    ((forall u, In u (gorm.users db) -> User.Email u = email ->
                CompareHashAndPassword (User.PasswordHash u) password = false) ->
     oauth.AuthenticateUser CompareHashAndPassword o db email password
     = Err (Errorf "invalid credentials"))
    /\ (forall user,
          oauth.AuthenticateUser CompareHashAndPassword o db email password = Ok user ->
          In user (gorm.users db)
          /\ User.Email user = email
          /\ CompareHashAndPassword (User.PasswordHash user) password = true).
Proof.
  intros compare o db email password. split.
  - intros H. unfold oauth.AuthenticateUser.
    destruct (gorm.First _ _ _) as [user|e] eqn:F; [|reflexivity].
    apply First_Ok in F. destruct F as [Hin Hcond]. apply String.eqb_eq in Hcond.
    rewrite (H user Hin Hcond). reflexivity.
  - intros user H. unfold oauth.AuthenticateUser in H.
    destruct (gorm.First _ _ _) as [u|e] eqn:F; [|discriminate].
    destruct (compare (User.PasswordHash u) password) eqn:C; [|discriminate].
    injection H as <-. apply First_Ok in F. destruct F as [Hin Hcond].
    apply String.eqb_eq in Hcond. auto.
Qed.

(** X14.  After [CreateUser] has stored a user, [AuthenticateUser] with
    the same email returns that user exactly for the passwords that match
    the stored hash, and another [CreateUser] with the same email fails and
    leaves the store as it is. *)
Theorem CreateUser_then_AuthenticateUser :
  forall (CompareHashAndPassword : string -> string -> bool)
         (o : oauth.OAuthManager) (db : gorm.DB) (hashedPassword : string)
         (fresh : uuid.UUID) (email password : string) (user : User.t) (db' : gorm.DB),
    oauth.CreateUser o db (Ok hashedPassword) fresh email password = (Ok user, db') ->
    (forall password' : string,
       oauth.AuthenticateUser CompareHashAndPassword o db' email password'
       = if CompareHashAndPassword hashedPassword password'
         then Ok user else Err (Errorf "invalid credentials"))
    /\ (forall (hashed : result string) (fresh2 : uuid.UUID) (password2 : string),
          exists e, oauth.CreateUser o db' hashed fresh2 email password2 = (Err e, db')).
Proof.
  intros compare o db hashedPassword fresh email password user db' H.
  unfold oauth.CreateUser in H.
  unfold User.BeforeCreate in H. cbn [User.ID] in H. rewrite String.eqb_refl in H.
  cbn [User.Email User.PasswordHash] in H.
  destruct (gorm.Create _ _ _ _) as [rows|e] eqn:C; [|discriminate].
  injection H as <- <-.
  apply Create_Ok in C. destruct C as [-> Hrows].
  set (user := User.mk fresh email hashedPassword) in *.
  split.
  - intros password'. unfold oauth.AuthenticateUser, oauth.set_users. cbn [gorm.users].
    rewrite (First_created User.ID).
    + unfold user. cbn [User.Email]. rewrite String.eqb_refl. cbv beta iota.
      cbn [User.PasswordHash].
      destruct (compare hashedPassword password'); reflexivity.
    + intros r Hr. apply String.eqb_neq. apply (Hrows r Hr).
  - intros hashed fresh2 password2. unfold oauth.CreateUser.
    destruct hashed as [h|e]; [|exists e; reflexivity].
    exists gorm.ErrDuplicatedKey.
    unfold oauth.set_users at 1. cbn [gorm.users].
    erewrite Create_duplicate; [reflexivity| |].
    + apply in_or_app. right. left. reflexivity.
    + unfold User.BeforeCreate. cbn [User.ID]. rewrite String.eqb_refl. reflexivity.
Qed.

(** ** The request authorizer *)

Lemma encode_sextet_not_space : forall v, Ascii.eqb (base64.encode_sextet v) " " = false.
Proof.
  intros v. destruct (Ascii.eqb _ _) eqn:E; [|reflexivity].
  apply Ascii.eqb_eq in E. pose proof (decodeMap_encode v) as H.
  rewrite E in H. discriminate.
Qed.

Lemma EncodeToString_no_space : forall s,
  has_byte " " (base64.RawURLEncoding.EncodeToString s) = false.
Proof.
  induction s as [| a | a b | a b c s IH] using string_ind3;
    cbn [base64.RawURLEncoding.EncodeToString has_byte];
    rewrite ?encode_sextet_not_space; auto.
Qed.

Lemma has_byte_app : forall c a b, has_byte c (a ++ b) = has_byte c a || has_byte c b.
Proof.
  intros c a b. induction a as [|x a IH]; [reflexivity|].
  cbn [append has_byte]. rewrite IH. apply orb_assoc.
Qed.

Lemma GenerateJWS_no_space : forall j now user scope jws,
  jwt.GenerateJWS j now user scope = Ok jws -> has_byte " " jws = false.
Proof.
  intros j now user scope jws H. rewrite GenerateJWS_text in H.
  set (p := base64.RawURLEncoding.EncodeToString _) in H.
  set (s := jwt.sign j _) in H.
  assert (Hp : has_byte " " p = false) by apply EncodeToString_no_space.
  assert (Hs : has_byte " " s = false) by apply EncodeToString_no_space.
  clearbody p s.
  set (t := (jws_header ++ "." ++ p ++ "." ++ s)%string) in *.
  assert (E : jws = t) by congruence.
  subst jws. unfold t.
  rewrite (has_byte_app " " jws_header), (has_byte_app " " "."), (has_byte_app " " p),
          (has_byte_app " " "." s), Hp, Hs.
  reflexivity.
Qed.

Lemma Split_Bearer : forall header scheme tokenString,
  strings.Split header " " = [scheme; tokenString] ->
  header = (scheme ++ " " ++ tokenString)%string /\ has_byte " " tokenString = false.
Proof.
  intros header scheme tok H. split.
  - rewrite <- (Split_join header " "), H. reflexivity.
  - apply (Split_pieces header " "). rewrite H. right. left. reflexivity.
Qed.

Lemma Authenticate_cases :
  forall a db now db_now (Next : gin.Context -> gin.Context) c,
    (exists msg : string,
       middleware.Authenticate a db now db_now Next c
       = middleware.reject c gin.StatusUnauthorized msg)
    \/ (exists tokenString claims accessToken user,
          gin.GetHeader c "Authorization" = ("Bearer " ++ tokenString)%string
          /\ jwt.ValidateJWS (middleware.jwt_ a) now tokenString = Ok claims
          /\ middleware.Authenticate a db now db_now Next c
             = Next (passed c user claims accessToken)).
Proof.
  intros a db now db_now Next c. unfold middleware.Authenticate.
  destruct (String.eqb (gin.GetHeader c "Authorization") EmptyString);
    [left; eexists; reflexivity|].
  destruct (strings.Split _ " ") as [|scheme [|tokenString [|x l]]] eqn:S;
    try (left; eexists; reflexivity).
  destruct (String.eqb scheme "Bearer") eqn:B; cbn [negb];
    [|left; eexists; reflexivity].
  apply String.eqb_eq in B. subst scheme.
  destruct (jwt.ValidateJWS _ _ _) as [claims|e] eqn:V;
    [|left; eexists; reflexivity].
  destruct (gorm.First AccessToken.ID _ _) as [accessToken|e];
    [|left; eexists; reflexivity].
  destruct (gorm.First User.ID _ _) as [user|e];
    [|left; eexists; reflexivity].
  right. exists tokenString, claims, accessToken, user.
  apply Split_Bearer in S. destruct S as [S _].
  split; [exact S|]. split; [exact V|reflexivity].
Qed.

(** X15.  [Authenticate] has two outcomes: it answers 401 with a message
    and aborts without calling the next handler, or it calls the next
    handler once, on the context with the three keys bound; in that case the
    header is [Bearer] and a token that [ValidateJWS] accepts, the bound row
    is a live row of that token and the bound user is the row of the user
    the claims name. *)
Theorem Authenticate_outcomes :
  forall (a : middleware.AuthMiddleware) (db : gorm.DB) (now db_now : time.Time)
         (Next : gin.Context -> gin.Context) (c : gin.Context),
    (exists msg : string,
       middleware.Authenticate a db now db_now Next c
       = gin.Abort (gin.JSON c gin.StatusUnauthorized [("error", msg)]))
    \/ (exists (tokenString : string) (claims : jwt.Claims) (accessToken : AccessToken.t)
               (user : User.t),
          gin.GetHeader c "Authorization" = ("Bearer " ++ tokenString)%string
          /\ jwt.ValidateJWS (middleware.jwt_ a) now tokenString = Ok claims
          /\ In accessToken (gorm.access_tokens db)
          /\ AccessToken.Token accessToken = tokenString
          /\ time.After (AccessToken.ExpiresAt accessToken) db_now = true
          /\ In user (gorm.users db)
          /\ User.ID user = jwt.UserID claims
          /\ middleware.Authenticate a db now db_now Next c
             = Next (passed c user claims accessToken)).
Proof.
  intros a db now db_now Next c. unfold middleware.Authenticate.
  destruct (String.eqb (gin.GetHeader c "Authorization") EmptyString);
    [left; eexists; reflexivity|].
  destruct (strings.Split _ " ") as [|scheme [|tokenString [|x l]]] eqn:S;
    try (left; eexists; reflexivity).
  destruct (String.eqb scheme "Bearer") eqn:B; cbn [negb];
    [|left; eexists; reflexivity].
  apply String.eqb_eq in B. subst scheme.
  destruct (jwt.ValidateJWS _ _ _) as [claims|e] eqn:V;
    [|left; eexists; reflexivity].
  destruct (gorm.First AccessToken.ID _ _) as [accessToken|e] eqn:F1;
    [|left; eexists; reflexivity].
  destruct (gorm.First User.ID _ _) as [user|e] eqn:F2;
    [|left; eexists; reflexivity].
  right. exists tokenString, claims, accessToken, user.
  apply Split_Bearer in S. destruct S as [S _].
  apply First_Ok in F1. destruct F1 as [Hin1 Hlive].
  apply First_Ok in F2. destruct F2 as [Hin2 Hid].
  unfold oauth.live_token in Hlive. apply andb_true_iff in Hlive.
  destruct Hlive as [Htok Hafter].
  apply String.eqb_eq in Htok, Hid.
  repeat split; assumption || reflexivity.
Qed.

(** X16.  [Authenticate] answers 401 and aborts, each with its own
    message, when the Authorization header is missing, when it is not
    [Bearer], one space and a token without spaces, and when [ValidateJWS]
    rejects the token. *)
Theorem Authenticate_rejects_bad_header :
  forall (a : middleware.AuthMiddleware) (db : gorm.DB) (now db_now : time.Time)
         (Next : gin.Context -> gin.Context) (c : gin.Context),
    (gin.GetHeader c "Authorization" = EmptyString ->
     middleware.Authenticate a db now db_now Next c
     = gin.Abort (gin.JSON c gin.StatusUnauthorized
                    [("error", "Authorization header required")]))
    /\ (gin.GetHeader c "Authorization" <> EmptyString ->
        (forall tokenString : string,
           has_byte " " tokenString = false ->
           gin.GetHeader c "Authorization" <> ("Bearer " ++ tokenString)%string) ->
        middleware.Authenticate a db now db_now Next c
        = gin.Abort (gin.JSON c gin.StatusUnauthorized
                       [("error", "Invalid authorization header format. Use 'Bearer <token>'")]))
    /\ (forall (tokenString : string) (e : error),
          has_byte " " tokenString = false ->
          gin.GetHeader c "Authorization" = ("Bearer " ++ tokenString)%string ->
          jwt.ValidateJWS (middleware.jwt_ a) now tokenString = Err e ->
          middleware.Authenticate a db now db_now Next c
          = gin.Abort (gin.JSON c gin.StatusUnauthorized
                         [("error", "Invalid or expired token")])).
Proof.
  intros a db now db_now Next c. split; [|split].
  - intros H. unfold middleware.Authenticate. rewrite H. reflexivity.
  - intros Hne Hfmt. unfold middleware.Authenticate.
    destruct (String.eqb _ EmptyString) eqn:E; [apply String.eqb_eq in E; contradiction|].
    destruct (strings.Split _ " ") as [|scheme [|tokenString [|x l]]] eqn:S;
      try reflexivity.
    destruct (String.eqb scheme "Bearer") eqn:B; cbn [negb]; [|reflexivity].
    apply String.eqb_eq in B. subst scheme.
    apply Split_Bearer in S. destruct S as [S Hsp].
    exfalso. apply (Hfmt tokenString Hsp). exact S.
  - intros tokenString e Hsp Hhdr Hval. unfold middleware.Authenticate.
    rewrite Hhdr.
    change ("Bearer " ++ tokenString)%string
      with ("Bearer" ++ String " " tokenString)%string.
    rewrite (Split_app "Bearer" " " tokenString eq_refl).
    rewrite (Split_no_sep tokenString " " Hsp).
    cbn [String.eqb Ascii.eqb Bool.eqb negb append]. rewrite Hval. reflexivity.
Qed.

Lemma First_exists : forall {row : Type} (pk : row -> uuid.UUID) cond rows r,
  In r rows -> cond r = true ->
  exists r', gorm.First pk cond rows = Ok r' /\ In r' rows /\ cond r' = true.
Proof.
  intros row pk cond rows r Hin Hc.
  destruct (gorm.First pk cond rows) as [r'|e] eqn:F.
  - exists r'. split; [reflexivity|]. apply (First_Ok pk) in F. exact F.
  - pose proof (First_Err_inv pk cond rows e F r Hin). congruence.
Qed.

(** X17.  A request that carries as bearer a token [CreateAccessToken]
    has stored for a user of the table passes [Authenticate], up to the
    expiry second of the token and before the expiry of the row: the next
    handler is called on the context from which [GetUserFromContext],
    [GetClaimsFromContext] and [GetAccessTokenFromContext] give the user, the
    claims of the token and the row.  The clock readings the rows are
    compared with are in whole microseconds. *)
Theorem Authenticate_accepts_issued_token :
  forall (a : middleware.AuthMiddleware) (o : oauth.OAuthManager) (db : gorm.DB)
         (now_jws now : time.Time) (fresh userID : uuid.UUID) (clientID scope : string)
         (accessToken : AccessToken.t) (db' : gorm.DB) (user : User.t),
    middleware.jwt_ a = oauth.jwt_ o ->
    uuid.wf userID ->
    utf8.ValidString scope = true ->
    0 <= config.Expiration (jwt.config (oauth.jwt_ o)) < 2 ^ 63 ->
    wall_clock now_jws -> microseconds now ->
    In user (gorm.users db) -> User.ID user = userID ->
    oauth.CreateAccessToken o db now_jws now fresh userID clientID scope
    = (Ok accessToken, db') ->
    forall (now' db_now : time.Time) (Next : gin.Context -> gin.Context) (c : gin.Context),
      gin.GetHeader c "Authorization" = ("Bearer " ++ AccessToken.Token accessToken)%string ->
      time.wf now' ->
      unix_nano now'
        <= time.Unix_ (time.Add now_jws (config.Expiration (jwt.config (oauth.jwt_ o))))
           * 1000000000 ->
      microseconds db_now ->
      unix_nano db_now < unix_nano now + 24 * time.Hour ->
      exists user' : User.t,
        In user' (gorm.users db') /\ User.ID user' = userID
        /\ middleware.Authenticate a db' now' db_now Next c
           = Next (passed c user' (jwt.mkClaims userID EmptyString scope) accessToken)
        /\ middleware.GetUserFromContext
             (passed c user' (jwt.mkClaims userID EmptyString scope) accessToken)
           = Some user'
        /\ middleware.GetClaimsFromContext
             (passed c user' (jwt.mkClaims userID EmptyString scope) accessToken)
           = Some (jwt.mkClaims userID EmptyString scope)
        /\ middleware.GetAccessTokenFromContext
             (passed c user' (jwt.mkClaims userID EmptyString scope) accessToken)
           = Some accessToken.
Proof.
  intros a o db now_jws now fresh userID clientID scope accessToken db' user
         Hjwt Hid Hscope Httl Hclock [Hwf _] Huser Huid Hcreate now' db_now Next c
         Hhdr Hwf' Hle [Hwfdb _] Hlt.
  apply CreateAccessToken_Ok in Hcreate.
  destruct Hcreate as (tokenString & Hgen & -> & -> & Hrows).
  set (accessToken := AccessToken.mk fresh tokenString userID clientID scope
                        (time.Add now (24 * time.Hour))) in *.
  cbn [AccessToken.Token accessToken] in Hhdr.
  (* the token is accepted *)
  assert (Hval : jwt.ValidateJWS (oauth.jwt_ o) now' tokenString
                 = Ok (jwt.mkClaims userID EmptyString scope)).
  { destruct (ValidateJWS_issued (oauth.jwt_ o) now_jws now'
                (User.mk userID EmptyString EmptyString) scope Hclock Httl)
      as (jws & email' & scope' & Hgen' & Vemail & Vscope & Hval).
    rewrite Hgen in Hgen'. injection Hgen' as <-.
    rewrite (Hval (oauth.jwt_ o) eq_refl).
    assert (HB : time.Before
                   (time.mkTime
                      (time.Unix_ (time.Add now_jws
                                     (config.Expiration (jwt.config (oauth.jwt_ o))))) 0)
                   now' = false).
    { apply Before_nano_false; [unfold time.wf; cbn [time.nsec]; lia|assumption|].
      unfold unix_nano at 2. cbn [time.sec time.nsec]. lia. }
    rewrite HB. cbn [User.ID User.Email] in *.
    rewrite Parse_String by assumption.
    rewrite (Vscope Hscope), (Vemail eq_refl). reflexivity. }
  (* its row is found *)
  assert (Hrow : gorm.First AccessToken.ID (oauth.live_token tokenString db_now)
                   (gorm.access_tokens db ++ [accessToken]) = Ok accessToken).
  { rewrite (First_created AccessToken.ID).
    - unfold oauth.live_token, accessToken. cbn [AccessToken.Token AccessToken.ExpiresAt].
      rewrite String.eqb_refl.
      rewrite (proj2 (After_Add now (24 * time.Hour) db_now Hwf Hwfdb) Hlt). reflexivity.
    - intros r Hr. unfold oauth.live_token.
      assert (E : String.eqb (AccessToken.Token r) tokenString = false)
        by (apply String.eqb_neq; apply (Hrows r Hr)).
      rewrite E. reflexivity. }
  (* and so is the user *)
  destruct (First_exists User.ID (fun u => String.eqb (User.ID u) userID) (gorm.users db)
              user Huser) as (user' & Hfirst & Hin' & Hid').
  { apply String.eqb_eq. exact Huid. }
  apply String.eqb_eq in Hid'.
  exists user'. split; [exact Hin'|]. split; [exact Hid'|].
  split; [|split; [reflexivity|split; reflexivity]].
  unfold middleware.Authenticate. rewrite Hhdr.
  change ("Bearer " ++ tokenString)%string with ("Bearer" ++ String " " tokenString)%string.
  rewrite (Split_app "Bearer" " " tokenString eq_refl).
  rewrite (Split_no_sep tokenString " " (GenerateJWS_no_space _ _ _ _ _ Hgen)).
  cbn [String.eqb Ascii.eqb Bool.eqb negb append].
  rewrite Hjwt, Hval.
  unfold oauth.set_access_tokens. cbn [gorm.access_tokens gorm.users].
  rewrite Hrow. cbn [jwt.UserID]. rewrite Hfirst. reflexivity.
Qed.

(** ** The chain of handlers *)

(** X18.  In the chain of [Authenticate], [RequireScope] and a handler
    that never moves the index back, served by the engine, the handler runs
    only on a request whose bearer token [ValidateJWS] accepts with claims
    that have the required scope; otherwise the response is a single 401, or
    a 403 when only the scope is missing, and the handler is not run. *)
Theorem protected_handler_runs_only_with_scope :
  forall (a : middleware.AuthMiddleware) (db : gorm.DB) (now db_now : time.Time)
         (requiredScope : string) (h : gin.HandlerFunc) (c : gin.Context),
    (forall Next x, gin.index x <= gin.index (h Next x)) ->
    (exists msg : string,
       gin.handle [middleware.Authenticate a db now db_now;
                   middleware.RequireScope a requiredScope; h] c
       = rejected c (gin.Keys c) gin.StatusUnauthorized msg (gin.abortIndex + 1))
    \/ (exists (tokenString : string) (claims : jwt.Claims) (accessToken : AccessToken.t)
               (user : User.t),
          gin.GetHeader c "Authorization" = ("Bearer " ++ tokenString)%string
          /\ jwt.ValidateJWS (middleware.jwt_ a) now tokenString = Ok claims
          /\ ((jwt.HasScope (middleware.jwt_ a) claims requiredScope = false
               /\ gin.handle [middleware.Authenticate a db now db_now;
                              middleware.RequireScope a requiredScope; h] c
                  = rejected c (gin.Keys (passed c user claims accessToken))
                      gin.StatusForbidden "Insufficient permissions" (gin.abortIndex + 2))
              \/ (jwt.HasScope (middleware.jwt_ a) claims requiredScope = true
                  /\ gin.handle [middleware.Authenticate a db now db_now;
                                 middleware.RequireScope a requiredScope; h] c
                     = gin.incr (gin.incr (gin.incr
                         (h gin.incr
                            (gin.mkContext (gin.Header c) (gin.Writer c)
                               (gin.Keys (passed c user claims accessToken)) 2))))))).
Proof.
  intros a db now db_now requiredScope h c Hmono.
  set (R := middleware.RequireScope a requiredScope).
  set (c0 := gin.incr (gin.mkContext (gin.Header c) (gin.Writer c) (gin.Keys c) (-1))).
  set (N1 := fun c' => gin.run [R; h] 1 (gin.incr c')).
  set (N2 := fun c' => gin.run [h] 2 (gin.incr c')).
  assert (Hhandle : gin.handle [middleware.Authenticate a db now db_now; R; h] c
                    = gin.run [R; h] 1
                        (gin.incr (middleware.Authenticate a db now db_now N1 c0)))
    by reflexivity.
  rewrite Hhandle.
  destruct (Authenticate_cases a db now db_now N1 c0)
    as [(msg & ->)|(tokenString & claims & accessToken & user & Hhdr & Hval & ->)].
  - left. exists msg. reflexivity.
  - right. exists tokenString, claims, accessToken, user.
    split; [exact Hhdr|]. split; [exact Hval|].
    set (c1 := gin.incr (passed c0 user claims accessToken)).
    assert (Hstep : N1 (passed c0 user claims accessToken)
                    = gin.run [h] 2 (gin.incr (R N2 c1))) by reflexivity.
    rewrite Hstep.
    assert (HR : R N2 c1
                 = if negb (jwt.HasScope (middleware.jwt_ a) claims requiredScope)
                   then middleware.reject c1 gin.StatusForbidden "Insufficient permissions"
                   else N2 c1) by reflexivity.
    rewrite HR.
    destruct (jwt.HasScope (middleware.jwt_ a) claims requiredScope) eqn:Hs; cbn [negb].
    + right. split; [reflexivity|].
      assert (Hrun : N2 c1 = gin.incr (h gin.incr (gin.incr c1))) by reflexivity.
      rewrite Hrun.
      set (r := h gin.incr (gin.incr c1)).
      assert (Hr : 2 <= gin.index r) by (apply (Hmono gin.incr (gin.incr c1))).
      assert (H1 : gin.run [h] 2 (gin.incr (gin.incr r)) = gin.incr (gin.incr r)).
      { apply run_passed. cbn [gin.index gin.incr List.length]. lia. }
      rewrite H1.
      rewrite run_passed by (cbn [gin.index gin.incr List.length]; lia).
      reflexivity.
    + left. split; [reflexivity|]. reflexivity.
Qed.

(** X19.  [ValidateUserOwnership] answers 401 without a user in the
    context; with any user it calls the next handler exactly when the URL
    parameter parses to the identifier of a task of the table, and answers
    400 or 404 otherwise: which user it is plays no part. *)
Theorem ValidateUserOwnership_checks_no_owner :
  forall (a : middleware.AuthMiddleware) (tasks : list Task.t) (resourceID : string)
         (Next : gin.Context -> gin.Context) (c : gin.Context),
    (middleware.GetUserFromContext c = None ->
     middleware.ValidateUserOwnership a tasks resourceID Next c
     = middleware.reject c gin.StatusUnauthorized "Authentication required")
    /\ (forall user : User.t,
          middleware.GetUserFromContext c = Some user ->
          ((exists task, In task tasks /\ uuid.Parse resourceID = Ok (Task.ID task)) ->
           middleware.ValidateUserOwnership a tasks resourceID Next c = Next c)
          /\ ((forall task, In task tasks -> uuid.Parse resourceID <> Ok (Task.ID task)) ->
              exists (code : Z) (msg : string),
                (code = gin.StatusBadRequest \/ code = gin.StatusNotFound)
                /\ middleware.ValidateUserOwnership a tasks resourceID Next c
                   = middleware.reject c code msg)).
Proof.
  intros a tasks resourceID Next c. split.
  - intros H. unfold middleware.ValidateUserOwnership. rewrite H. reflexivity.
  - intros user H. unfold middleware.ValidateUserOwnership. rewrite H. split.
    + intros (task & Hin & Hparse).
      destruct (String.eqb resourceID EmptyString) eqn:E.
      { apply String.eqb_eq in E. subst resourceID. discriminate Hparse. }
      rewrite Hparse.
      destruct (First_exists Task.ID (fun t => String.eqb (Task.ID t) (Task.ID task)) tasks
                  task Hin (String.eqb_refl _)) as (task' & -> & _).
      reflexivity.
    + intros Hnone.
      destruct (String.eqb resourceID EmptyString);
        [exists gin.StatusBadRequest; eexists; split; [left; reflexivity|reflexivity]|].
      destruct (uuid.Parse resourceID) as [resourceUUID|e] eqn:P;
        [|exists gin.StatusBadRequest; eexists; split; [left; reflexivity|reflexivity]].
      destruct (gorm.First Task.ID _ tasks) as [task|e] eqn:F;
        [|exists gin.StatusNotFound; eexists; split; [right; reflexivity|reflexivity]].
      apply (First_Ok Task.ID) in F. destruct F as [Hin Hid].
      apply String.eqb_eq in Hid. exfalso. apply (Hnone task Hin). congruence.
Qed.

(** ** Configuration *)

Lemma dec_value_ge : forall s acc,
  all_digits s = true -> 0 <= acc -> acc <= dec_value acc s.
Proof.
  induction s as [|c s IH]; intros acc H Hacc; cbn [dec_value]; [lia|].
  cbn [all_digits] in H. apply andb_true_iff in H. destruct H as [Hc Hs].
  apply isDigit_range in Hc.
  specialize (IH (acc * 10 + (byte_val c - 48)) Hs ltac:(lia)). lia.
Qed.

Lemma ParseUint_digits : forall s acc,
  all_digits s = true -> 0 <= acc -> dec_value acc s < 2 ^ 64 ->
  atoi.ParseUint acc s = atoi.Value (dec_value acc s).
Proof.
  induction s as [|c s IH]; intros acc H Hacc Hv; [reflexivity|].
  pose proof H as H0.
  cbn [all_digits] in H. apply andb_true_iff in H. destruct H as [Hc Hs].
  cbn [atoi.ParseUint dec_value] in *. rewrite Hc. cbn [negb].
  apply isDigit_range in Hc.
  pose proof (dec_value_ge s (acc * 10 + (byte_val c - 48)) Hs ltac:(lia)) as Hge.
  unfold atoi.cutoff. change ((2 ^ 64 - 1) / 10 + 1) with 1844674407370955162.
  destruct (Z.leb_spec 1844674407370955162 acc); [lia|].
  cbv zeta. destruct (Z.leb_spec (2 ^ 64) (acc * 10 + (byte_val c - 48))); [lia|].
  apply IH; [assumption|lia|assumption].
Qed.

Lemma ParseUint_not_digits : forall s acc,
  all_digits s = false ->
  atoi.ParseUint acc s = atoi.ErrSyntax \/ atoi.ParseUint acc s = atoi.ErrRange.
Proof.
  induction s as [|c s IH]; intros acc H; [discriminate|].
  cbn [all_digits] in H. cbn [atoi.ParseUint].
  destruct (json.isDigit (byte_val c)); cbn [negb andb] in *; [|left; reflexivity].
  destruct (atoi.cutoff <=? acc); [right; reflexivity|].
  cbv zeta. destruct (2 ^ 64 <=? _); [right; reflexivity|].
  apply IH. exact H.
Qed.




Lemma Atoi_unsigned : forall s,
  atoi.Atoi s
  = match unsigned s with
    | EmptyString => (0, false)
    | body =>
        let neg := match s with
                   | String c _ => Ascii.eqb c "-"
                   | EmptyString => false
                   end in
        match atoi.ParseUint 0 body with
        | atoi.ErrSyntax => (0, false)
        | atoi.ErrRange => (if neg then - 2 ^ 63 else 2 ^ 63 - 1, false)
        | atoi.Value un =>
            if negb neg && (2 ^ 63 <=? un) then (2 ^ 63 - 1, false)
            else if neg && (2 ^ 63 <? un) then (- 2 ^ 63, false)
            else (if neg then - un else un, true)
        end
    end.
Proof.
  intros s. unfold atoi.Atoi, unsigned.
  destruct s as [|c rest]; [reflexivity|].
  destruct (Ascii.eqb c "-"); [destruct rest; reflexivity|].
  destruct (Ascii.eqb c "+"); [destruct rest; reflexivity|reflexivity].
Qed.


Lemma Atoi_error : forall s,
  all_digits (unsigned s) = false -> snd (atoi.Atoi s) = false.
Proof.
  intros s H. rewrite Atoi_unsigned. revert H.
  destruct (unsigned s) as [|a b]; intros H; [reflexivity|].
  cbv zeta. destruct (ParseUint_not_digits (String a b) 0 H) as [-> | ->]; reflexivity.
Qed.

Lemma ParseUint_nonneg : forall s acc un,
  0 <= acc -> atoi.ParseUint acc s = atoi.Value un -> 0 <= un.
Proof.
  induction s as [|c s IH]; intros acc un Hacc P; cbn [atoi.ParseUint] in P.
  - injection P as <-. exact Hacc.
  - destruct (json.isDigit (byte_val c)) eqn:Hc; cbn [negb] in P; [|discriminate].
    apply isDigit_range in Hc.
    destruct (atoi.cutoff <=? acc); [discriminate|]. cbv zeta in P.
    destruct (2 ^ 64 <=? acc * 10 + (byte_val c - 48)); [discriminate|].
    apply (IH (acc * 10 + (byte_val c - 48)) un); [lia|exact P].
Qed.

Lemma Atoi_ok_range : forall s n, atoi.Atoi s = (n, true) -> - 2 ^ 63 <= n < 2 ^ 63.
Proof.
  intros s n H. rewrite Atoi_unsigned in H.
  destruct (unsigned s) as [|a b]; [discriminate|].
  cbv zeta in H.
  destruct (atoi.ParseUint 0 (String a b)) as [un| |] eqn:P.
  - pose proof (ParseUint_nonneg (String a b) 0 un ltac:(lia) P) as Hun.
    destruct (match s with String c _ => Ascii.eqb c "-" | EmptyString => false end);
      cbn [negb andb] in H.
    + destruct (Z.ltb_spec (2 ^ 63) un); [discriminate|]. injection H as <-. lia.
    + destruct (Z.leb_spec (2 ^ 63) un); [discriminate|]. injection H as <-. lia.
  - discriminate.
  - destruct (match s with String c _ => Ascii.eqb c "-" | EmptyString => false end);
      discriminate.
Qed.

Lemma FormatInt_digits : forall n, 0 <= n < 2 ^ 63 ->
  exists c rest,
    strconv.FormatInt n = String c rest
    /\ all_digits (String c rest) = true
    /\ dec_value 0 (String c rest) = n.
Proof.
  intros n Hn. unfold strconv.FormatInt.
  replace (n <? 0) with false by (symmetry; apply Z.ltb_ge; lia).
  assert (Hd : all_digits (strconv.digits 20 n EmptyString) = true)
    by (apply all_digits_digits; [lia|reflexivity]).
  assert (Hv : dec_value 0 (strconv.digits 20 n EmptyString) = n)
    by (apply dec_value_digits; change (10 ^ Z.of_nat 20) with 100000000000000000000; lia).
  destruct (strconv.digits 20 n EmptyString) as [|c rest] eqn:E.
  - cbn [dec_value] in Hv. subst n. discriminate E.
  - exists c, rest. auto.
Qed.

Lemma Atoi_FormatInt : forall n, 0 <= n < 2 ^ 63 ->
  atoi.Atoi (strconv.FormatInt n) = (n, true).
Proof.
  intros n Hn. destruct (FormatInt_digits n Hn) as (c & rest & -> & Hd & Hv).
  assert (Hc : json.isDigit (byte_val c) = true)
    by (cbn [all_digits] in Hd; apply andb_true_iff in Hd; tauto).
  apply isDigit_range in Hc.
  assert (Hm : Ascii.eqb c "-" = false).
  { apply Ascii.eqb_neq. intros ->. change (byte_val "-") with 45 in Hc. lia. }
  assert (Hp : Ascii.eqb c "+" = false).
  { apply Ascii.eqb_neq. intros ->. change (byte_val "+") with 43 in Hc. lia. }
  rewrite Atoi_unsigned. unfold unsigned. rewrite Hm, Hp. cbv zeta.
  rewrite (ParseUint_digits _ 0 Hd ltac:(lia) ltac:(rewrite Hv; lia)), Hv.
  cbn [negb andb].
  replace (2 ^ 63 <=? n) with false by (symmetry; apply Z.leb_gt; lia).
  reflexivity.
Qed.

(** What [Load] makes of a value of JWT_EXPIRATION_HOURS that is no
    number: zero after a syntax error, and after a range error the wrapped
    product of the largest or the smallest int with [time.Hour]. *)
Lemma Load_expiration_not_a_number : forall env : config.Env,
  all_digits (unsigned (env "JWT_EXPIRATION_HOURS")) = false ->
  config.Expiration (config.JWT (config.Load env)) = 0
  \/ config.Expiration (config.JWT (config.Load env)) = - time.Hour.
Proof.
  intros env Hbad.
  unfold config.Load. cbn [config.JWT config.Expiration]. unfold config.getEnv.
  destruct (String.eqb (env "JWT_EXPIRATION_HOURS") EmptyString) eqn:E.
  { apply String.eqb_eq in E. rewrite E in Hbad. discriminate Hbad. }
  rewrite Atoi_unsigned. revert Hbad.
  destruct (unsigned (env "JWT_EXPIRATION_HOURS")) as [|a b]; intros Hbad; [discriminate|].
  cbv zeta.
  destruct (ParseUint_not_digits (String a b) 0 Hbad) as [-> | ->]; cbn [fst].
  - left. reflexivity.
  - destruct (match env "JWT_EXPIRATION_HOURS" with
              | String c _ => Ascii.eqb c "-"
              | EmptyString => false
              end); [left|right]; reflexivity.
Qed.

(** X20.  [Load] turns JWT_EXPIRATION_HOURS, written as a decimal number
    of hours, into that many hours up to 2562047; from 2562048 to 5124095
    hours the 64-bit product wraps and the expiration is negative. *)
Theorem Load_expiration_hours :
  forall (env : config.Env) (n : Z),
    env "JWT_EXPIRATION_HOURS" = strconv.FormatInt n ->
    (0 <= n <= 2562047 ->
     config.Expiration (config.JWT (config.Load env)) = n * time.Hour)
    /\ (2562047 < n <= 5124095 ->
        config.Expiration (config.JWT (config.Load env)) = n * time.Hour - 2 ^ 64
        /\ config.Expiration (config.JWT (config.Load env)) < 0).
Proof.
  intros env n Henv.
  assert (Hload : 0 <= n < 2 ^ 63 ->
                  config.Expiration (config.JWT (config.Load env))
                  = time.wrap64 (n * time.Hour)).
  { intros Hn. unfold config.Load. cbn [config.JWT config.Expiration].
    unfold config.getEnv. rewrite Henv.
    destruct (FormatInt_digits n Hn) as (c & rest & E & _).
    rewrite E. cbn [String.eqb]. rewrite <- E.
    rewrite Atoi_FormatInt by assumption. reflexivity. }
  unfold time.Hour, time.Minute, time.Second in *. split; intros Hn.
  - rewrite Hload by lia. unfold time.wrap64. rewrite Z.mod_small by lia. lia.
  - rewrite Hload by lia. unfold time.wrap64.
    replace (n * (60 * (60 * 1000000000)) + 2 ^ 63)
      with ((n * (60 * (60 * 1000000000)) - 2 ^ 63) + 1 * 2 ^ 64) by lia.
    rewrite Z.mod_add by lia. rewrite Z.mod_small by lia. lia.
Qed.


(** ** The token endpoint *)

Lemma ValidateAuthorizationCode_Err : forall o db now code clientID clientSecret e db',
  oauth.ValidateAuthorizationCode o db now code clientID clientSecret = (Err e, db') ->
  db' = db /\ (e = oauth.invalid_grant \/ e = oauth.invalid_client).
Proof.
  intros o db now code clientID clientSecret e db' H.
  unfold oauth.ValidateAuthorizationCode in H.
  destruct (gorm.First _ _ _).
  - destruct (negb _); [|discriminate]. injection H as <- <-. auto.
  - injection H as <- <-. auto.
Qed.

(** X22.  The token endpoint answers 400, 401, 500 or 200.  With 400 or
    401 the store is as it was; a 401 carries the invalid-grant or the
    invalid-client error; a grant type other than [authorization_code] gets
    400 before the code is looked at. *)
Theorem Token_refusal_leaves_store :
  forall (h : handlers.AuthHandler) (db : gorm.DB) (bound : result oauth.TokenRequest)
         (now_code now_jws now_token : time.Time) (fresh : uuid.UUID),
    let out := handlers.Token h db bound now_code now_jws now_token fresh in
    (fst (fst out) = gin.StatusBadRequest \/ fst (fst out) = gin.StatusUnauthorized
     \/ fst (fst out) = gin.StatusInternalServerError \/ fst (fst out) = gin.StatusOK)
    /\ (fst (fst out) = gin.StatusBadRequest \/ fst (fst out) = gin.StatusUnauthorized ->
        snd out = db)
    /\ (fst (fst out) = gin.StatusUnauthorized ->
        snd (fst out) = handlers.ErrorBody oauth.invalid_grant
        \/ snd (fst out) = handlers.ErrorBody oauth.invalid_client)
    /\ (forall req : oauth.TokenRequest,
          bound = Ok req -> oauth.GrantType req <> "authorization_code" ->
          out = ((gin.StatusBadRequest,
                  handlers.ErrorBody (Errorf "grant_type must be 'authorization_code'")), db)).
Proof.
  intros h db bound now_code now_jws now_token fresh. cbv zeta.
  unfold handlers.Token.
  destruct bound as [req|e].
  2:{ cbn [fst snd].
      split; [left; reflexivity|]. split; [reflexivity|].
      split; [intros E; discriminate E|]. intros req E. discriminate E. }
  destruct (String.eqb (oauth.GrantType req) "authorization_code") eqn:G; cbn [negb].
  2:{ cbn [fst snd].
      split; [left; reflexivity|]. split; [reflexivity|].
      split; [intros E; discriminate E|]. reflexivity. }
  apply String.eqb_eq in G.
  assert (H4 : forall (out : handlers.response * gorm.DB) req', Ok req = Ok req' ->
                 oauth.GrantType req' <> "authorization_code" ->
                 out = ((gin.StatusBadRequest,
                         handlers.ErrorBody
                           (Errorf "grant_type must be 'authorization_code'")), db)).
  { intros out req' E Hg. injection E as <-. contradiction. }
  destruct (oauth.ValidateAuthorizationCode _ _ _ _ _ _) as [[authCode|e] db1] eqn:V.
  - destruct (oauth.CreateAccessToken _ _ _ _ _ _ _ _) as [[accessToken|e] db2] eqn:C;
      cbn [fst snd].
    + split; [right; right; right; reflexivity|].
      split; [intros [E|E]; discriminate E|].
      split; [intros E; discriminate E|apply H4].
    + split; [right; right; left; reflexivity|].
      split; [intros [E|E]; discriminate E|].
      split; [intros E; discriminate E|apply H4].
  - cbn [fst snd].
    apply ValidateAuthorizationCode_Err in V. destruct V as [-> He].
    split; [right; left; reflexivity|]. split; [reflexivity|].
    split; [|apply H4].
    intros _. destruct He as [-> | ->]; [left|right]; reflexivity.
Qed.

Lemma Token_replay : forall h db req now_code now_jws now_token fresh,
  oauth.GrantType req = "authorization_code" ->
  (forall r, In r (gorm.authorization_codes db) ->
             AuthorizationCode.Code r <> oauth.Code req) ->
  handlers.Token h db (Ok req) now_code now_jws now_token fresh
  = ((gin.StatusUnauthorized, handlers.ErrorBody oauth.invalid_grant), db).
Proof.
  intros h db req now_code now_jws now_token fresh Hg Hgone.
  unfold handlers.Token. rewrite Hg. cbn [String.eqb Ascii.eqb Bool.eqb negb].
  rewrite no_live_code_invalid_grant; [reflexivity|].
  intros r Hr. apply live_code_other_code. apply (Hgone r Hr).
Qed.

(** X23.  When the token endpoint answers 200, the code of the request was
    a live code of the client, presented with the configured secret; it is
    gone from the store, the store holds the row of a token for the user and
    scope of the code, the response carries that token with the scope of the
    code, the type [Bearer] and 86400 seconds, and the same request sent
    again gets 401 with the invalid-grant error. *)
Theorem Token_success_consumes_code :
  forall (h : handlers.AuthHandler) (db : gorm.DB) (req : oauth.TokenRequest)
         (now_code now_jws now_token : time.Time) (fresh : uuid.UUID)
         (r : oauth.TokenResponse) (db' : gorm.DB),
    codes_consistent (gorm.authorization_codes db) ->
    handlers.Token h db (Ok req) now_code now_jws now_token fresh
    = ((gin.StatusOK, handlers.TokenBody r), db') ->
    (exists (authCode : AuthorizationCode.t) (accessToken : AccessToken.t),
       In authCode (gorm.authorization_codes db)
       /\ oauth.live_code (oauth.Code req) (oauth.ClientID req) now_code authCode = true
       /\ oauth.ClientSecret req = config.ClientSecret (oauth.config (handlers.oauth_ h))
       /\ ~ In authCode (gorm.authorization_codes db')
       /\ In accessToken (gorm.access_tokens db')
       /\ AccessToken.UserID accessToken = AuthorizationCode.UserID authCode
       /\ AccessToken.ClientID accessToken = oauth.ClientID req
       /\ AccessToken.Scope accessToken = AuthorizationCode.Scope authCode
       /\ r = oauth.mkTokenResponse (AccessToken.Token accessToken) "Bearer" 86400
                EmptyString (AuthorizationCode.Scope authCode))
    /\ forall (now_code' now_jws' now_token' : time.Time) (fresh' : uuid.UUID),
         handlers.Token h db' (Ok req) now_code' now_jws' now_token' fresh'
         = ((gin.StatusUnauthorized, handlers.ErrorBody oauth.invalid_grant), db').
Proof.
  intros h db req now_code now_jws now_token fresh r db' Hcons H.
  unfold handlers.Token in H.
  destruct (String.eqb (oauth.GrantType req) "authorization_code") eqn:G; cbn [negb] in H;
    [|discriminate].
  apply String.eqb_eq in G.
  destruct (oauth.ValidateAuthorizationCode _ _ _ _ _ _) as [[authCode|e] db1] eqn:V;
    [|discriminate].
  destruct (oauth.CreateAccessToken _ _ _ _ _ _ _ _) as [[accessToken|e] db2] eqn:C;
    [|discriminate].
  injection H as <- <-.
  pose proof (consumed_code_is_gone _ _ _ _ _ _ _ _ Hcons V) as (Hin & Hcode & Hdb1 & Hgone).
  assert (Hlive : oauth.live_code (oauth.Code req) (oauth.ClientID req) now_code authCode = true
                  /\ oauth.ClientSecret req
                     = config.ClientSecret (oauth.config (handlers.oauth_ h))).
  { unfold oauth.ValidateAuthorizationCode in V.
    destruct (gorm.First _ _ _) as [ac|e] eqn:F; [|discriminate].
    destruct (String.eqb (oauth.ClientSecret req) _) eqn:S; cbn [negb] in V; [|discriminate].
    injection V as <- _. apply String.eqb_eq in S.
    apply (First_Ok AuthorizationCode.ID) in F. tauto. }
  apply CreateAccessToken_Ok in C.
  destruct C as (tokenString & _ & -> & -> & _).
  assert (Hcodes : gorm.authorization_codes
                     (oauth.set_access_tokens db1
                        (gorm.access_tokens db1
                         ++ [AccessToken.mk fresh tokenString (AuthorizationCode.UserID authCode)
                               (oauth.ClientID req) (AuthorizationCode.Scope authCode)
                               (time.Add now_token (24 * time.Hour))]))
                   = gorm.authorization_codes db1) by reflexivity.
  split.
  - eexists authCode, _.
    split; [exact Hin|]. split; [exact (proj1 Hlive)|]. split; [exact (proj2 Hlive)|].
    split.
    { rewrite Hcodes. intros Habs. apply (Hgone _ Habs). exact Hcode. }
    split.
    { unfold oauth.set_access_tokens. cbn [gorm.access_tokens].
      apply in_or_app. right. left. reflexivity. }
    repeat split.
  - intros now_code' now_jws' now_token' fresh'.
    apply Token_replay; [exact G|].
    rewrite Hcodes. exact Hgone.
Qed.

(** X24.  The token endpoint deletes the code before it creates the token:
    when the code is valid and [CreateAccessToken] fails, the answer is 500,
    no token is stored, the code is gone, and the same request sent again
    gets 401 with the invalid-grant error. *)
Theorem Token_failed_creation_burns_code :
  forall (h : handlers.AuthHandler) (db : gorm.DB) (req : oauth.TokenRequest)
         (now_code now_jws now_token : time.Time) (fresh : uuid.UUID)
         (authCode : AuthorizationCode.t) (db1 : gorm.DB) (e : error) (db2 : gorm.DB),
    codes_consistent (gorm.authorization_codes db) ->
    oauth.GrantType req = "authorization_code" ->
    oauth.ValidateAuthorizationCode (handlers.oauth_ h) db now_code (oauth.Code req)
      (oauth.ClientID req) (oauth.ClientSecret req) = (Ok authCode, db1) ->
    oauth.CreateAccessToken (handlers.oauth_ h) db1 now_jws now_token fresh
      (AuthorizationCode.UserID authCode) (oauth.ClientID req)
      (AuthorizationCode.Scope authCode) = (Err e, db2) ->
    handlers.Token h db (Ok req) now_code now_jws now_token fresh
    = ((gin.StatusInternalServerError,
        handlers.ErrorBody (Errorf "Failed to create access token")), db1)
    /\ In authCode (gorm.authorization_codes db)
    /\ ~ In authCode (gorm.authorization_codes db1)
    /\ gorm.access_tokens db1 = gorm.access_tokens db
    /\ forall (now_code' now_jws' now_token' : time.Time) (fresh' : uuid.UUID),
         handlers.Token h db1 (Ok req) now_code' now_jws' now_token' fresh'
         = ((gin.StatusUnauthorized, handlers.ErrorBody oauth.invalid_grant), db1).
Proof.
  intros h db req now_code now_jws now_token fresh authCode db1 e db2 Hcons G V C.
  pose proof (consumed_code_is_gone _ _ _ _ _ _ _ _ Hcons V) as (Hin & Hcode & Hdb1 & Hgone).
  assert (Hdb2 : db2 = db1).
  { unfold oauth.CreateAccessToken in C.
    destruct (jwt.GenerateJWS _ _ _ _); [|injection C as _ <-; reflexivity].
    destruct (gorm.Create _ _ _ _); [discriminate|]. injection C as _ <-. reflexivity. }
  subst db2.
  split.
  { unfold handlers.Token. rewrite G. cbn [String.eqb Ascii.eqb Bool.eqb negb].
    rewrite V, C. reflexivity. }
  split; [exact Hin|]. split.
  { intros Habs. apply (Hgone _ Habs). exact Hcode. }
  split.
  { unfold oauth.ValidateAuthorizationCode in V.
    destruct (gorm.First _ _ _); [|discriminate].
    destruct (negb _); [discriminate|]. injection V as _ <-. reflexivity. }
  intros now_code' now_jws' now_token' fresh'.
  apply Token_replay; assumption.
Qed.

(** ** Pagination *)

(** X25.  The pagination of [ListTasks]: the page is at least 1 and the
    limit between 1 and 100 whatever the query strings hold, a value that
    is not a number gives page 1 or limit 10, and the offset is
    [(page - 1) * limit], not negative, for pages up to 92233720368547758;
    beyond, the 64-bit product wraps (page 9223372036854775807 with limit
    100 gives offset -200). *)
Theorem pagination_bounds :
  (forall (pageStr limitStr : string),
     let '(page, limit, offset) := handlers.pagination pageStr limitStr in
     1 <= page < 2 ^ 63
     /\ 1 <= limit <= 100
     /\ (page <= 92233720368547758 -> offset = (page - 1) * limit /\ 0 <= offset)
     /\ (all_digits (unsigned pageStr) = false -> page = 1)
     /\ (all_digits (unsigned limitStr) = false -> limit = 10))
  /\ handlers.pagination "9223372036854775807" "100" = (9223372036854775807, 100, -200).
Proof.
  split; [|vm_compute; reflexivity].
  intros pageStr limitStr. unfold handlers.pagination.
  destruct (atoi.Atoi pageStr) as [p okp] eqn:Ep.
  destruct (atoi.Atoi limitStr) as [l okl] eqn:El.
  set (page := if negb okp || (p <? 1) then 1 else p).
  set (limit := if negb okl || (l <? 1) || (100 <? l) then 10 else l).
  assert (Hpage : 1 <= page < 2 ^ 63).
  { unfold page. destruct okp; cbn [negb orb]; [|lia].
    destruct (Z.ltb_spec p 1); [lia|]. apply Atoi_ok_range in Ep. lia. }
  assert (Hlimit : 1 <= limit <= 100).
  { unfold limit. destruct okl; cbn [negb orb]; [|lia].
    destruct (Z.ltb_spec l 1); cbn [orb]; [lia|].
    destruct (Z.ltb_spec 100 l); lia. }
  split; [exact Hpage|]. split; [exact Hlimit|].
  split; [|split].
  - intros Hsmall. unfold time.wrap64.
    rewrite Z.mod_small by nia. split; nia.
  - intros Hbad. pose proof (Atoi_error _ Hbad) as Hs. rewrite Ep in Hs.
    cbn [snd] in Hs. subst. reflexivity.
  - intros Hbad. pose proof (Atoi_error _ Hbad) as Hs. rewrite El in Hs.
    cbn [snd] in Hs. subst. reflexivity.
Qed.

(** ** The login form *)








(** ** Examples *)

Lemma ValidateJWS_ignores_header_witness :
  jwt.ValidateJWS demo.j demo.on_time
    (demo.headerB64 ++ "." ++ demo.payloadB64 ++ "."
     ++ jwt.sign demo.j (demo.headerB64 ++ "." ++ demo.payloadB64))
  = jwt.ValidateJWS demo.j demo.on_time
      ("bm9uZQ" ++ "." ++ demo.payloadB64 ++ "."
       ++ jwt.sign demo.j ("bm9uZQ" ++ "." ++ demo.payloadB64)).
Proof.
  apply (ValidateJWS_ignores_header demo.j demo.on_time demo.headerB64 "bm9uZQ"
           demo.payloadB64); reflexivity.
Defined.

Lemma ValidateJWS_checks_only_the_secret_witness :
  exists (jws : string) (claims : jwt.Claims),
    jwt.GenerateJWS demo.j_other demo.issued demo.user demo.scope = Ok jws
    /\ jwt.ValidateJWS demo.j demo.on_time jws = Ok claims
    /\ jwt.UserID claims = User.ID demo.user
    /\ jwt.Scope claims = demo.scope.
Proof.
  apply (ValidateJWS_checks_only_the_secret demo.j demo.j_other demo.issued demo.on_time
           demo.user demo.scope).
  - reflexivity.
  - reflexivity.
  - vm_compute. reflexivity.
  - split; closed.
  - split; [split; closed|split; closed].
  - split; closed.
  - closed.
Defined.

Lemma ValidateJWS_accepts_until_exp_witness :
  jwt.ValidateJWS demo.j demo.on_time demo.token = Ok (claims_of demo.payload demo.uid).
Proof.
  apply (ValidateJWS_accepts_until_exp demo.j demo.on_time demo.token demo.headerB64
           demo.payloadB64 demo.signatureB64 demo.payloadBytes demo.payload
           (1700086400 # 1) (uuid.String_ demo.uid) demo.uid).
  - vm_compute. reflexivity.
  - vm_compute. reflexivity.
  - vm_compute. reflexivity.
  - vm_compute. reflexivity.
  - vm_compute. reflexivity.
  - vm_compute. reflexivity.
  - vm_compute. reflexivity.
  - split; closed.
  - closed.
  - closed.
Defined.

Lemma ValidateJWS_rejects_far_future_exp_witness :
  jwt.ValidateJWS demo.j demo.on_time demo.far_token = Err (Errorf "token expired").
Proof.
  apply (ValidateJWS_rejects_far_future_exp demo.j demo.on_time demo.far_token demo.headerB64
           demo.far_payloadB64 demo.far_signatureB64 demo.far_bytes demo.far_payload
           (9223372036854775808 # 1)).
  - vm_compute. reflexivity.
  - vm_compute. reflexivity.
  - vm_compute. reflexivity.
  - vm_compute. reflexivity.
  - vm_compute. reflexivity.
  - closed.
  - closed.
Defined.

Lemma HasScope_rejects_scope_with_space_witness :
  jwt.HasScope demo.j (jwt.mkClaims demo.uid EmptyString "tasks:read tasks:write")
    "tasks:read tasks:write" = false.
Proof.
  apply (HasScope_rejects_scope_with_space demo.j
           (jwt.mkClaims demo.uid EmptyString "tasks:read tasks:write")
           "tasks:read tasks:write").
  reflexivity.
Defined.


Lemma authorization_code_bound_to_client_witness :
  oauth.ValidateAuthorizationCode demo.o demo.db1 demo.issued
    (AuthorizationCode.Code demo.authCode) "other-client" "test-secret"
  = (Err oauth.invalid_grant, demo.db1).
Proof.
  apply (authorization_code_bound_to_client demo.o demo.db1 demo.issued demo.authCode
           "other-client" "test-secret").
  - exact demo_codes_consistent.
  - left. reflexivity.
  - vm_compute. discriminate.
Defined.

Lemma demo_create_token :
  oauth.CreateAccessToken demo.o demo.db0 demo.issued demo.issued demo.fresh2 demo.uid
    "test-client" demo.scope
  = (Ok demo.accessToken, demo.db2).
Proof. vm_compute. reflexivity. Qed.

Lemma CreateAccessToken_record_matches_claims_witness :
  In demo.accessToken (gorm.access_tokens demo.db2)
  /\ AccessToken.UserID demo.accessToken = demo.uid
  /\ AccessToken.ClientID demo.accessToken = "test-client"
  /\ AccessToken.Scope demo.accessToken = demo.scope
  /\ jwt.ValidateJWS (oauth.jwt_ demo.o) demo.on_time (AccessToken.Token demo.accessToken)
     = Ok (jwt.mkClaims (AccessToken.UserID demo.accessToken) EmptyString
             (AccessToken.Scope demo.accessToken)).
Proof.
  destruct (CreateAccessToken_record_matches_claims demo.o demo.db0 demo.issued demo.issued
              demo.fresh2 demo.uid "test-client" demo.scope demo.accessToken demo.db2)
    as (H1 & H2 & H3 & H4 & H5).
  - reflexivity.
  - vm_compute. reflexivity.
  - split; closed.
  - split; [split; closed|split; closed].
  - exact demo_create_token.
  - split; [exact H1|]. split; [exact H2|]. split; [exact H3|]. split; [exact H4|].
    apply H5.
    + split; closed.
    + closed.
Defined.

Lemma CreateAccessToken_same_second_collides_witness :
  exists e : error,
    oauth.CreateAccessToken demo.o demo.db2 (time.mkTime 1700000000 900000000)
      (time.mkTime 1700000001 0) demo.fresh3 demo.uid "another-client" demo.scope
    = (Err e, demo.db2).
Proof.
  apply (CreateAccessToken_same_second_collides demo.o demo.db0 demo.issued demo.issued
           demo.fresh2 demo.uid "test-client" demo.scope demo.accessToken demo.db2 86400).
  - lia.
  - vm_compute. reflexivity.
  - split; closed.
  - exact demo_create_token.
  - split; closed.
  - reflexivity.
Defined.

Lemma CreateAccessToken_then_ValidateAccessToken_witness :
  oauth.ValidateAccessToken demo.o demo.db2 demo.on_time (AccessToken.Token demo.accessToken)
  = Ok demo.accessToken
  /\ oauth.ValidateAccessToken demo.o demo.db2 demo.later (AccessToken.Token demo.accessToken)
     = Err (Errorf "invalid or expired access token").
Proof.
  assert (Hwf : microseconds demo.issued) by (split; [split; closed|reflexivity]).
  split.
  - apply (CreateAccessToken_then_ValidateAccessToken demo.o demo.db0 demo.issued demo.issued
             demo.fresh2 demo.uid "test-client" demo.scope demo.accessToken demo.db2
             Hwf demo_create_token demo.on_time).
    + split; [split; closed|reflexivity].
    + closed.
  - apply (CreateAccessToken_then_ValidateAccessToken demo.o demo.db0 demo.issued demo.issued
             demo.fresh2 demo.uid "test-client" demo.scope demo.accessToken demo.db2
             Hwf demo_create_token demo.later).
    + split; [split; closed|reflexivity].
    + closed.
Defined.

Lemma CreateUser_then_AuthenticateUser_witness :
  oauth.AuthenticateUser (fun hash password => String.eqb password "password123") demo.o
    demo.db0 "user@example.com" "password123"
  = Ok demo.user
  /\ oauth.AuthenticateUser (fun hash password => String.eqb password "password123") demo.o
       demo.db0 "user@example.com" "guess"
     = Err (Errorf "invalid credentials")
  /\ exists e,
       oauth.CreateUser demo.o demo.db0 (Ok "$2a$10$other") demo.fresh2 "user@example.com"
         "another"
       = (Err e, demo.db0).
Proof.
  destruct (CreateUser_then_AuthenticateUser
              (fun hash password => String.eqb password "password123") demo.o
              (gorm.mkDB [] [] []) "$2a$10$hash" demo.uid "user@example.com" "password123"
              demo.user demo.db0) as [H1 H2].
  - vm_compute. reflexivity.
  - split; [exact (H1 "password123")|]. split; [exact (H1 "guess")|].
    exact (H2 (Ok "$2a$10$other") demo.fresh2 "another").
Defined.

Lemma Authenticate_accepts_issued_token_witness :
  exists user' : User.t,
    In user' (gorm.users demo.db2) /\ User.ID user' = demo.uid
    /\ middleware.Authenticate demo.a demo.db2 demo.on_time demo.on_time
         (demo.ok_handler gin.incr) demo.bearer
       = demo.ok_handler gin.incr
           (passed demo.bearer user' (jwt.mkClaims demo.uid EmptyString demo.scope)
              demo.accessToken)
    /\ middleware.GetUserFromContext
         (passed demo.bearer user' (jwt.mkClaims demo.uid EmptyString demo.scope)
            demo.accessToken)
       = Some user'
    /\ middleware.GetClaimsFromContext
         (passed demo.bearer user' (jwt.mkClaims demo.uid EmptyString demo.scope)
            demo.accessToken)
       = Some (jwt.mkClaims demo.uid EmptyString demo.scope)
    /\ middleware.GetAccessTokenFromContext
         (passed demo.bearer user' (jwt.mkClaims demo.uid EmptyString demo.scope)
            demo.accessToken)
       = Some demo.accessToken.
Proof.
  apply (Authenticate_accepts_issued_token demo.a demo.o demo.db0 demo.issued demo.issued
           demo.fresh2 demo.uid "test-client" demo.scope demo.accessToken demo.db2 demo.user).
  - reflexivity.
  - reflexivity.
  - vm_compute. reflexivity.
  - split; closed.
  - split; [split; closed|split; closed].
  - split; [split; closed|reflexivity].
  - left. reflexivity.
  - reflexivity.
  - exact demo_create_token.
  - reflexivity.
  - split; closed.
  - closed.
  - split; [split; closed|reflexivity].
  - closed.
Defined.

Lemma protected_handler_runs_only_with_scope_witness :
  (exists msg : string,
     gin.handle [middleware.Authenticate demo.a demo.db2 demo.on_time demo.on_time;
                 middleware.RequireScope demo.a "tasks:read"; demo.ok_handler] demo.bearer
     = rejected demo.bearer (gin.Keys demo.bearer) gin.StatusUnauthorized msg
         (gin.abortIndex + 1))
  \/ (exists (tokenString : string) (claims : jwt.Claims) (accessToken : AccessToken.t)
             (user : User.t),
        gin.GetHeader demo.bearer "Authorization" = ("Bearer " ++ tokenString)%string
        /\ jwt.ValidateJWS (middleware.jwt_ demo.a) demo.on_time tokenString = Ok claims
        /\ ((jwt.HasScope (middleware.jwt_ demo.a) claims "tasks:read" = false
             /\ gin.handle [middleware.Authenticate demo.a demo.db2 demo.on_time demo.on_time;
                            middleware.RequireScope demo.a "tasks:read"; demo.ok_handler]
                  demo.bearer
                = rejected demo.bearer (gin.Keys (passed demo.bearer user claims accessToken))
                    gin.StatusForbidden "Insufficient permissions" (gin.abortIndex + 2))
            \/ (jwt.HasScope (middleware.jwt_ demo.a) claims "tasks:read" = true
                /\ gin.handle [middleware.Authenticate demo.a demo.db2 demo.on_time
                                 demo.on_time;
                               middleware.RequireScope demo.a "tasks:read"; demo.ok_handler]
                     demo.bearer
                   = gin.incr (gin.incr (gin.incr
                       (demo.ok_handler gin.incr
                          (gin.mkContext (gin.Header demo.bearer) (gin.Writer demo.bearer)
                             (gin.Keys (passed demo.bearer user claims accessToken)) 2))))))).
Proof.
  apply (protected_handler_runs_only_with_scope demo.a demo.db2 demo.on_time demo.on_time
           "tasks:read" demo.ok_handler demo.bearer).
  intros Next x. simpl. lia.
Defined.

Lemma Load_expiration_hours_witness :
  config.Expiration (config.JWT (config.Load demo.env_1h)) = 1 * time.Hour
  /\ config.Expiration (config.JWT (config.Load demo.env_wrap)) = 2562048 * time.Hour - 2 ^ 64
  /\ config.Expiration (config.JWT (config.Load demo.env_wrap)) < 0.
Proof.
  split.
  - apply (Load_expiration_hours demo.env_1h 1); [reflexivity|lia].
  - apply (Load_expiration_hours demo.env_wrap 2562048); [reflexivity|lia].
Defined.


Lemma Token_success_consumes_code_witness :
  handlers.Token demo.h demo.db1 (Ok demo.tokenRequest) demo.issued demo.issued demo.issued
    demo.fresh2
  = ((gin.StatusOK,
      handlers.TokenBody
        (oauth.mkTokenResponse (AccessToken.Token demo.accessToken) "Bearer" 86400 EmptyString
           demo.scope)), demo.db2)
  /\ handlers.Token demo.h demo.db2 (Ok demo.tokenRequest) demo.five_minutes_later
       demo.five_minutes_later demo.five_minutes_later demo.fresh3
     = ((gin.StatusUnauthorized, handlers.ErrorBody oauth.invalid_grant), demo.db2).
Proof.
  assert (H : handlers.Token demo.h demo.db1 (Ok demo.tokenRequest) demo.issued demo.issued
                demo.issued demo.fresh2
              = ((gin.StatusOK,
                  handlers.TokenBody
                    (oauth.mkTokenResponse (AccessToken.Token demo.accessToken) "Bearer" 86400
                       EmptyString demo.scope)), demo.db2)) by (vm_compute; reflexivity).
  split; [exact H|].
  apply (Token_success_consumes_code demo.h demo.db1 demo.tokenRequest demo.issued demo.issued
           demo.issued demo.fresh2 _ demo.db2 demo_codes_consistent H).
Defined.

Lemma Token_failed_creation_burns_code_witness :
  handlers.Token demo.h demo.db3 (Ok demo.tokenRequest) demo.issued demo.issued demo.issued
    demo.fresh3
  = ((gin.StatusInternalServerError,
      handlers.ErrorBody (Errorf "Failed to create access token")), demo.db2)
  /\ In demo.authCode (gorm.authorization_codes demo.db3)
  /\ ~ In demo.authCode (gorm.authorization_codes demo.db2)
  /\ gorm.access_tokens demo.db2 = gorm.access_tokens demo.db3
  /\ handlers.Token demo.h demo.db2 (Ok demo.tokenRequest) demo.issued demo.issued demo.issued
       demo.fresh3
     = ((gin.StatusUnauthorized, handlers.ErrorBody oauth.invalid_grant), demo.db2).
Proof.
  destruct (Token_failed_creation_burns_code demo.h demo.db3 demo.tokenRequest demo.issued
              demo.issued demo.issued demo.fresh3 demo.authCode demo.db2
              gorm.ErrDuplicatedKey demo.db2) as (H1 & H2 & H3 & H4 & H5).
  - exact demo_codes_consistent.
  - reflexivity.
  - vm_compute. reflexivity.
  - vm_compute. reflexivity.
  - split; [exact H1|]. split; [exact H2|]. split; [exact H3|]. split; [exact H4|].
    apply H5.
Defined.
